(** * run_circuits: chunked, self-recovering execution of a Qobj

    A shallow embedding of [qiskit/aqua/utils/run_circuits.py] and the
    properties of its chunker, submission guard, status prober, recovery
    loop, result combiner and orchestrator.

    Python objects live in a store and are named by their address, so that
    "the very same object" is an equality of addresses.  Calls into the
    backend and its jobs go through an explicit record of collaborator
    operations acting on an abstract world; every such call, every log line
    and every sleep is appended to a trace.  [while True] loops take fuel. *)

From Stdlib Require Import ZArith Lia Ascii.
From stdpp Require Import base list strings.

Open Scope Z_scope.

(** ** Exceptions *)

#[warnings="-register-all"]
Inductive exn :=
| JobError (msg : string)          (* qiskit.providers.JobError *)
| OtherException (msg : string)    (* any other subclass of Exception,
                                      [msg] the text [str] gives of it *)
| AquaError (msg : string) (cause : option exn)
| ValueError (msg : string)
| IndexError (msg : string)
| KeyError (key : string)
| ZeroDivisionError (msg : string)
| BadReference.                    (* an address outside the store: no Python
                                      program can produce one *)

(** [isinstance(ex, JobError)]: which [except] clause catches [ex]. *)
Definition is_JobError (ex : exn) : bool :=
  match ex with JobError _ => true | _ => false end.

(** [repr(s)] of a str.  A string of the model is a Python str whose
    characters are below U+0100; among those, the ones Python does not
    print as they are stand below 32, from 127 to 160, and at 173. *)
Definition single_quote : ascii := ascii_of_nat 39.
Definition double_quote : ascii := ascii_of_nat 34.
Definition backslash : ascii := ascii_of_nat 92.

Fixpoint has_char (c : ascii) (s : string) : bool :=
  match s with
  | EmptyString => false
  | String d s' => if Ascii.eqb c d then true else has_char c s'
  end.

Definition hex_digit (n : nat) : ascii :=
  ascii_of_nat (if (n <? 10)%nat then 48 + n else 87 + n).

Definition printable (n : nat) : bool :=
  (32 <=? n)%nat && negb ((127 <=? n)%nat && (n <=? 160)%nat)
  && negb (n =? 173)%nat.

Definition repr_char (quote c : ascii) : string :=
  let n := nat_of_ascii c in
  if Ascii.eqb c backslash then String backslash (String backslash EmptyString)
  else if Ascii.eqb c quote then String backslash (String quote EmptyString)
  else if (n =? 9)%nat then String backslash "t"
  else if (n =? 10)%nat then String backslash "n"
  else if (n =? 13)%nat then String backslash "r"
  else if printable n then String c EmptyString
  else String backslash
         (String "x"%char
            (String (hex_digit (n / 16))
               (String (hex_digit (n mod 16)) EmptyString))).

Fixpoint repr_chars (quote : ascii) (s : string) : string :=
  match s with
  | EmptyString => EmptyString
  | String c s' => repr_char quote c +:+ repr_chars quote s'
  end.

Definition py_repr (s : string) : string :=
  let quote :=
    if has_char single_quote s && negb (has_char double_quote s)
    then double_quote else single_quote in
  String quote (repr_chars quote s +:+ String quote EmptyString).

(** [str(ex)], as used by [format]: a QiskitError (JobError, AquaError)
    gives the repr of its message, a KeyError the repr of its key, and the
    other exceptions their text. *)
Definition str_exn (ex : exn) : string :=
  match ex with
  | JobError m | AquaError m _ => py_repr m
  | KeyError k => py_repr k
  | OtherException m | ValueError m | IndexError m | ZeroDivisionError m => m
  | BadReference => "bad reference"
  end.

(** ** Outcomes and the state-and-exception monad *)

Inductive outcome (A : Type) :=
| Ret (a : A)
| Raise (e : exn)
| Diverge.               (* the fuel of a [while True] ran out *)
Arguments Ret {A} a.
Arguments Raise {A} e.
Arguments Diverge {A}.

Definition M (S A : Type) : Type := S -> outcome A * S.

Definition ret {S A} (a : A) : M S A := fun s => (Ret a, s).
Definition raise {S A} (e : exn) : M S A := fun s => (Raise e, s).
Definition diverge {S A} : M S A := fun s => (Diverge, s).
Definition bind {S A B} (m : M S A) (k : A -> M S B) : M S B :=
  fun s => match m s with
           | (Ret a, s') => k a s'
           | (Raise e, s') => (Raise e, s')
           | (Diverge, s') => (Diverge, s')
           end.
Definition get {S} : M S S := fun s => (Ret s, s).
Definition modify {S} (f : S -> S) : M S unit := fun s => (Ret tt, f s).

Declare Scope py_scope.
Delimit Scope py_scope with py.
Notation "x <- m ;; k" := (bind m (fun x => k))
  (at level 100, m at next level, right associativity) : py_scope.
Notation "m ;; k" := (bind m (fun _ => k))
  (at level 100, right associativity) : py_scope.
Open Scope py_scope.

(** [for x in xs: acc = body(acc, x)] *)
Fixpoint for_each {S A X} (xs : list X) (body : A -> X -> M S A) (acc : A)
  : M S A :=
  match xs with
  | [] => ret acc
  | x :: xs' => acc' <- body acc x ;; for_each xs' body acc'
  end.

(** ** Data *)

Definition loc := nat.

(** Identifiers: those the caller chose, and those drawn from
    [uuid.uuid4()], which the model numbers in the order they are drawn. *)
Inductive ident :=
| Named (s : string)
| Uuid (n : nat).

(** An experiment, a configuration and a header are opaque here. *)
Definition Experiment := nat.
Definition QobjConfig := nat.
Definition QobjHeader := nat.

Record Qobj := mkQobj {
  is_QasmQobj : bool;          (* isinstance(qobj, QasmQobj) *)
  qobj_id : ident;
  config : QobjConfig;
  experiments : list Experiment;
  header : QobjHeader
}.

Definition ExperimentResult := nat.

Record Result := mkResult {
  success : bool;
  results : list ExperimentResult
}.

Record Heap := mkHeap {
  qobj_store : list Qobj;
  result_store : list Result;
  uuid_count : nat
}.

Definition alloc_qobj (q : Qobj) : M Heap loc :=
  fun h => (Ret (length (qobj_store h)),
            mkHeap (qobj_store h ++ [q]) (result_store h) (uuid_count h)).

Definition read_qobj (l : loc) : M Heap Qobj :=
  fun h => match qobj_store h !! l with
           | Some q => (Ret q, h)
           | None => (Raise BadReference, h)
           end.

Definition update_qobj (l : loc) (f : Qobj -> Qobj) : M Heap unit :=
  fun h => match qobj_store h !! l with
           | Some q => (Ret tt, mkHeap (<[l := f q]> (qobj_store h))
                                       (result_store h) (uuid_count h))
           | None => (Raise BadReference, h)
           end.

Definition alloc_result (r : Result) : M Heap loc :=
  fun h => (Ret (length (result_store h)),
            mkHeap (qobj_store h) (result_store h ++ [r]) (uuid_count h)).

Definition read_result (l : loc) : M Heap Result :=
  fun h => match result_store h !! l with
           | Some r => (Ret r, h)
           | None => (Raise BadReference, h)
           end.

Definition update_result (l : loc) (f : Result -> Result) : M Heap unit :=
  fun h => match result_store h !! l with
           | Some r => (Ret tt, mkHeap (qobj_store h)
                                       (<[l := f r]> (result_store h))
                                       (uuid_count h))
           | None => (Raise BadReference, h)
           end.

(** [uuid.uuid4()] *)
Definition uuid4 : M Heap ident :=
  fun h => (Ret (Uuid (uuid_count h)),
            mkHeap (qobj_store h) (result_store h) (S (uuid_count h))).

(** [copy.deepcopy] of an object whose fields are values. *)
Definition deepcopy_qobj (l : loc) : M Heap loc :=
  q <- read_qobj l ;; alloc_qobj q.
Definition deepcopy_result (l : loc) : M Heap loc :=
  r <- read_result l ;; alloc_result r.

(** ** Python arithmetic and slices *)

(** The ceiling of the exact quotient [a / b], for [b <> 0]. *)
Definition ceil_div (a b : Z) : Z := - ((- a) / b).

(** The quotient [a / b] of two integers is a double, the nearest to the
    exact quotient.  It is zero when the exact quotient is at most
    2^-1075 in size, half of the smallest double above zero. *)
Definition underflows (a b : Z) : bool :=
  Z.abs a * 2 ^ 1075 <=? Z.abs b.

(** [int(np.ceil(a / b))] for the length [a] of a list and [b <> 0]: zero
    when the double quotient is zero, and the ceiling of the exact quotient
    otherwise, which is the ceiling of the double for every [a] below 2^53
    (no list is that long). *)
Definition np_ceil_div (a b : Z) : Z :=
  if underflows a b then 0 else ceil_div a b.

(** How a slice bound is brought into [0 .. len]. *)
Definition clamp_index (len i : Z) : Z :=
  if i <? 0 then Z.max (i + len) 0 else Z.min i len.

(** [l[lo:hi]] *)
Definition py_slice {A} (l : list A) (lo hi : Z) : list A :=
  let n := Z.of_nat (length l) in
  let a := clamp_index n lo in
  let b := clamp_index n hi in
  take (Z.to_nat (b - a)) (drop (Z.to_nat a) l).

(** [range(n)] *)
Definition py_range (n : Z) : list Z := seqZ 0 n.

(** ** _combine_result_objects *)

Definition extend_results (target : loc) (more : list ExperimentResult)
  : M Heap unit :=
  update_result target
    (fun r => mkResult (success r) (results r ++ more)).

Definition _combine_result_objects (rs : list loc) : M Heap loc :=
  if decide (length rs = 1%nat) then
    match rs !! 0%nat with
    | Some r => ret r
    | None => raise (IndexError "list index out of range")
    end
  else
    match rs !! 0%nat with
    | None => raise (IndexError "list index out of range")
    | Some r0 =>
        new_result <- deepcopy_result r0 ;;
        for_each (drop 1 rs)
          (fun (_ : unit) r =>
             x <- read_result r ;; extend_results new_result (results x))
          tt ;;
        ret new_result
    end.

(** ** _split_qobj_to_qobjs *)

Definition split_iteration (qobj qobj_template : loc) (chunk_size : Z)
  (qobjs : list loc) (i : Z) : M Heap (list loc) :=
  temp_qobj <- deepcopy_qobj qobj_template ;;
  fresh <- uuid4 ;;
  update_qobj temp_qobj
    (fun t => mkQobj (is_QasmQobj t) fresh (config t) (experiments t)
                     (header t)) ;;
  q <- read_qobj qobj ;;
  update_qobj temp_qobj
    (fun t => mkQobj (is_QasmQobj t) (qobj_id t) (config t)
                (py_slice (experiments q) (i * chunk_size)
                          ((i + 1) * chunk_size))
                (header t)) ;;
  ret (qobjs ++ [temp_qobj]).

Definition _split_qobj_to_qobjs (qobj : loc) (chunk_size : Z)
  : M Heap (list loc) :=
  q <- read_qobj qobj ;;
  if decide (chunk_size = 0) then
    raise (ZeroDivisionError "division by zero")
  else
    let num_chunks :=
      np_ceil_div (Z.of_nat (length (experiments q))) chunk_size in
    if decide (num_chunks = 1) then ret [qobj]
    else if is_QasmQobj q then
      qobj_template <- alloc_qobj (mkQobj true (qobj_id q) (config q) []
                                        (header q)) ;;
      for_each (py_range num_chunks)
        (split_iteration qobj qobj_template chunk_size) []
    else raise (AquaError "Only support QasmQobj now." None).


(** ** The collaborators: job status, jobs, the backend *)

(** Modelled from the spec: the [JobStatus] enumeration of
    [qiskit.providers] is not part of this file; the spec lists its values
    as queued, running, done, cancelled, error and other/unknown. *)
Inductive JobStatus :=
| QUEUED | RUNNING | DONE | CANCELLED | ERROR
| OTHER (name : string).

#[global] Instance JobStatus_eq_dec : EqDecision JobStatus.
Proof. solve_decision. Defined.

(** A job handle, an object of the backend's. *)
Definition Job := nat.

(** A [dict] with string keys. *)
Definition dict (V : Type) : Type := list (string * V).

Fixpoint dict_get {V} (key : string) (d : dict V) : option V :=
  match d with
  | [] => None
  | (k, v) :: d' => if decide (k = key) then Some v else dict_get key d'
  end.

(** [d[key]] *)
Definition subscript {S V} (d : dict V) (key : string) : M S V :=
  match dict_get key d with
  | Some v => ret v
  | None => raise (KeyError key)
  end.

(** [x or {}] *)
Definition or_empty {V} (x : option (dict V)) : dict V :=
  match x with Some d => d | None => [] end.

Definition OptionValue := nat.
Definition BackendStatus := nat.

(** What the logger is given, one constructor for each call of it. *)
Inductive log_record :=
| CanNotGetJobIdTerra (ex : exn)
| CanNotGetJobId (ex : exn)
| FailToGetStatus (job_id : string) (ex : exn)
| BackendStatusIs (s : BackendStatus)
| JobsSubmitted (n : nat)
| AllJobIds (job_ids : list string)
| RunningQobj (idx : nat) (job_id : string)
| QueuedAt (job_id : string) (queue_position : Z)
| StatusIs (job_id : string) (job_status : JobStatus)
| Completed (idx : nat) (job_id : string)
| FailureJob (job_id : string)
| CompletedAnyway (job_id : string)
| IsCancelled (job_id : string)
| EncountersError (job_id : string) (error_message : string)
| UnknownStatus (job_id : string) (job_status : JobStatus)
| CanNotSkipValidation.

Inductive level := Info | Warning.

(** What the program does to the outside, in order. *)
Inductive event :=
| CallRun (qobj : Qobj) (backend_options noise_config : dict OptionValue)
| CallAerSubmit (job_id : ident) (qobj : Qobj)
    (backend_options noise_model : option OptionValue)
| CallBasicAerSubmit (job_id : ident) (qobj : Qobj)
    (backend_options : dict OptionValue)
| CallBackendStatus
| CallRetrieveJob (job_id : string)
| CallJobId (job : Job)
| CallStatus (job : Job)
| CallQueuePosition (job : Job)
| CallResult (job : Job) (qjob_config : dict Z)
| CallQobj (job : Job)
| CallErrorMessage (job : Job)
| Callback (job_id : string) (job_status : JobStatus) (queue_position : Z)
    (job : Job)
| Sleep (seconds : Z)
| Log (lvl : level) (r : log_record).

(** A collaborator's operation: it answers or raises, and the world moves. *)
Definition op (W A : Type) : Type := W -> (exn + A) * W.

(** The backend, its jobs, and what [backend_utils] says of it. *)
Record Backend (W : Type) := mkBackend {
  is_simulator_backend : bool;
  is_local_backend : bool;
  is_aer_provider : bool;
  is_basicaer_provider : bool;
  max_experiments : Z;          (* backend.configuration().max_experiments *)
  (* backend.run(qobj, **backend_options, **noise_config) *)
  backend_run : Qobj -> dict OptionValue -> dict OptionValue -> op W Job;
  (* AerJob(backend, job_id, backend._run_job, qobj, ..) and its submission *)
  aer_submit : ident -> Qobj -> option OptionValue -> option OptionValue ->
               op W Job;
  (* backend._set_options(..), BasicAerJob(..) and its submission *)
  basicaer_submit : ident -> Qobj -> dict OptionValue -> op W Job;
  backend_status : op W BackendStatus;
  retrieve_job : string -> op W Job;
  job_id : Job -> op W string;
  job_status : Job -> op W JobStatus;
  queue_position : Job -> op W Z;
  job_result : Job -> dict Z -> op W Result;
  job_qobj : Job -> op W Qobj;
  error_message : Job -> op W string
}.
Arguments is_simulator_backend {W}.
Arguments is_local_backend {W}.
Arguments is_aer_provider {W}.
Arguments is_basicaer_provider {W}.
Arguments max_experiments {W}.
Arguments backend_run {W}.
Arguments aer_submit {W}.
Arguments basicaer_submit {W}.
Arguments backend_status {W}.
Arguments retrieve_job {W}.
Arguments job_id {W}.
Arguments job_status {W}.
Arguments queue_position {W}.
Arguments job_result {W}.
Arguments job_qobj {W}.
Arguments error_message {W}.

(** The caller's observer, [job_callback(job_id, job_status, queue_position,
    job)]. *)
Definition callback (W : Type) : Type :=
  string -> JobStatus -> Z -> Job -> op W unit.

(** ** The state of a run *)

Record State (W : Type) := mkState {
  world : W;
  heap : Heap;
  trace : list event
}.
Arguments mkState {W}.
Arguments world {W}.
Arguments heap {W}.
Arguments trace {W}.

Definition call {W A} (ev : event) (f : op W A) : M (State W) A :=
  fun s =>
    let (r, w') := f (world s) in
    let s' := mkState w' (heap s) (trace s ++ [ev]) in
    match r with
    | inl ex => (Raise ex, s')
    | inr a => (Ret a, s')
    end.

Definition emit {W} (ev : event) : M (State W) unit :=
  fun s => (Ret tt, mkState (world s) (heap s) (trace s ++ [ev])).

Definition on_heap {W A} (m : M Heap A) : M (State W) A :=
  fun s => let (r, h') := m (heap s) in (r, mkState (world s) h' (trace s)).

(** [try: m except Exception as ex: ..]: the exception becomes a value. *)
Definition attempt {S A} (m : M S A) : M S (exn + A) :=
  fun s => match m s with
           | (Ret a, s') => (Ret (inr a), s')
           | (Raise ex, s') => (Ret (inl ex), s')
           | (Diverge, s') => (Diverge, s')
           end.

(** [time.sleep(seconds)] *)
Definition sleep {W} (seconds : Z) : M (State W) unit :=
  if seconds <? 0 then raise (ValueError "sleep length must be non-negative")
  else emit (Sleep seconds).

(** [sys.maxsize] *)
Definition sys_maxsize : Z := 2 ^ 63 - 1.

(** ** run_on_backend *)

Definition run_on_backend {W} (backend : Backend W) (qobj : Qobj)
  (backend_options noise_config : dict OptionValue)
  (skip_qobj_validation : bool) : M (State W) Job :=
  if skip_qobj_validation then
    job_id <- on_heap uuid4 ;;
    if is_aer_provider backend then
      temp_backend_options <-
        match backend_options with
        | [] => ret None
        | _ => v <- subscript backend_options "backend_options" ;; ret (Some v)
        end ;;
      temp_noise_config <-
        match noise_config with
        | [] => ret None
        | _ => v <- subscript noise_config "noise_model" ;; ret (Some v)
        end ;;
      call (CallAerSubmit job_id qobj temp_backend_options temp_noise_config)
           (aer_submit backend job_id qobj temp_backend_options
                       temp_noise_config)
    else if is_basicaer_provider backend then
      call (CallBasicAerSubmit job_id qobj backend_options)
           (basicaer_submit backend job_id qobj backend_options)
    else
      emit (Log Info CanNotSkipValidation) ;;
      call (CallRun qobj backend_options noise_config)
           (backend_run backend qobj backend_options noise_config)
  else
    call (CallRun qobj backend_options noise_config)
         (backend_run backend qobj backend_options noise_config).

(** ** _safe_submit_qobj *)

Fixpoint _safe_submit_qobj {W} (fuel : nat) (qobj : Qobj)
  (backend : Backend W) (backend_options noise_config : dict OptionValue)
  (skip_qobj_validation : bool) : M (State W) (Job * string) :=
  match fuel with
  | O => diverge
  | S fuel' =>
      job <- run_on_backend backend qobj backend_options noise_config
                            skip_qobj_validation ;;
      got <- attempt (call (CallJobId job) (job_id backend job)) ;;
      match got with
      | inr job_id => ret (job, job_id)
      | inl ex =>
          emit (Log Warning (if is_JobError ex then CanNotGetJobIdTerra ex
                             else CanNotGetJobId ex)) ;;
          _safe_submit_qobj fuel' qobj backend backend_options noise_config
                            skip_qobj_validation
      end
  end.

(** ** _safe_get_job_status *)

(** ["FAILURE: job id: {}, status: 'FAIL_TO_GET_STATUS' Unknown error:
    ({})".format(job_id, ex)] *)
Definition fail_to_get_status_message (job_id : string) (ex : exn) : string :=
  "FAILURE: job id: " +:+ job_id +:+
  ", status: 'FAIL_TO_GET_STATUS' Unknown error: (" +:+ str_exn ex +:+ ")".

Fixpoint _safe_get_job_status {W} (fuel : nat) (backend : Backend W)
  (job : Job) (job_id : string) : M (State W) JobStatus :=
  match fuel with
  | O => diverge
  | S fuel' =>
      got <- attempt (call (CallStatus job) (job_status backend job)) ;;
      match got with
      | inr job_status => ret job_status
      | inl ex =>
          if is_JobError ex then
            emit (Log Warning (FailToGetStatus job_id ex)) ;;
            sleep 5 ;;
            _safe_get_job_status fuel' backend job job_id
          else
            raise (AquaError (fail_to_get_status_message job_id ex) (Some ex))
      end
  end.

(** ** run_qobj *)

Section run_qobj.
Context {W : Type}.
(** [JOB_FINAL_STATES], imported from [qiskit.providers.jobstatus]. *)
Variable JOB_FINAL_STATES : list JobStatus.
(** [MAX_CIRCUITS_PER_JOB], the value of the environment variable
    [QISKIT_AQUA_MAX_CIRCUITS_PER_JOB] as [int] reads it, if it is set. *)
Variable MAX_CIRCUITS_PER_JOB : option Z.

Definition do_callback (job_callback : option (callback W))
  (job_id : string) (job_status : JobStatus) (queue_position : Z)
  (job : Job) : M (State W) unit :=
  match job_callback with
  | Some f => call (Callback job_id job_status queue_position job)
                   (f job_id job_status queue_position job)
  | None => ret tt
  end.

(** The inner [while True] of lines 236-251: poll until the status is
    final. *)
Fixpoint poll (fuel : nat) (backend : Backend W) (job : Job)
  (job_id : string) (qjob_config : dict Z)
  (job_callback : option (callback W)) : M (State W) JobStatus :=
  match fuel with
  | O => diverge
  | S fuel' =>
      job_status <- _safe_get_job_status fuel' backend job job_id ;;
      if bool_decide (job_status ∈ JOB_FINAL_STATES) then
        do_callback job_callback job_id job_status 0 job ;;
        ret job_status
      else
        queue_position <-
          (if decide (job_status = QUEUED) then
             queue_position <- call (CallQueuePosition job)
                                    (queue_position backend job) ;;
             emit (Log Info (QueuedAt job_id queue_position)) ;;
             ret queue_position
           else
             emit (Log Info (StatusIs job_id job_status)) ;;
             ret 0) ;;
        do_callback job_callback job_id job_status queue_position job ;;
        wait <- subscript qjob_config "wait" ;;
        sleep wait ;;
        poll fuel' backend job job_id qjob_config job_callback
  end.

(** The [while True] of lines 255-265: fetch until the result succeeds. *)
Fixpoint fetch (fuel : nat) (backend : Backend W) (idx : nat) (job : Job)
  (job_id : string) (qjob_config : dict Z) : M (State W) loc :=
  match fuel with
  | O => diverge
  | S fuel' =>
      r <- call (CallResult job qjob_config)
                (job_result backend job qjob_config) ;;
      result <- on_heap (alloc_result r) ;;
      if success r then
        emit (Log Info (Completed idx job_id)) ;;
        ret result
      else
        emit (Log Warning (FailureJob job_id)) ;;
        emit (Log Warning (CompletedAnyway job_id)) ;;
        job' <- call (CallRetrieveJob job_id) (retrieve_job backend job_id) ;;
        fetch fuel' backend idx job' job_id qjob_config
  end.

(** The warnings of lines 271-280, for a job that ended otherwise than
    DONE. *)
Definition report_failure (backend : Backend W) (job : Job)
  (job_id : string) (job_status : JobStatus) : M (State W) unit :=
  if decide (job_status = CANCELLED) then
    emit (Log Warning (IsCancelled job_id))
  else if decide (job_status = ERROR) then
    msg <- call (CallErrorMessage job) (error_message backend job) ;;
    emit (Log Warning (EncountersError job_id msg))
  else
    emit (Log Warning (UnknownStatus job_id job_status)).

(** The [while True] of lines 233-286, for the chunk [idx]: its result,
    and the lists of jobs and of job ids as the loop leaves them. *)
Fixpoint recover (fuel : nat) (backend : Backend W) (idx : nat)
  (jobs : list Job) (job_ids : list string) (job : Job) (job_id : string)
  (qjob_config : dict Z) (backend_options noise_config : dict OptionValue)
  (skip_qobj_validation : bool) (job_callback : option (callback W))
  : M (State W) (list Job * list string * loc) :=
  match fuel with
  | O => diverge
  | S fuel' =>
      emit (Log Info (RunningQobj idx job_id)) ;;
      job_status <- poll fuel' backend job job_id qjob_config job_callback ;;
      if decide (job_status = DONE) then
        result <- fetch fuel' backend idx job job_id qjob_config ;;
        ret (jobs, job_ids, result)
      else
        qobj <- call (CallQobj job) (job_qobj backend job) ;;
        report_failure backend job job_id job_status ;;
        submitted <- _safe_submit_qobj fuel' qobj backend backend_options
                                       noise_config skip_qobj_validation ;;
        let (job', job_id') := submitted : Job * string in
        recover fuel' backend idx (<[idx := job']> jobs)
                (<[idx := job_id']> job_ids) job' job_id'
                qjob_config backend_options noise_config
                skip_qobj_validation job_callback
  end.

(** [for qob in qobjs: ..], lines 219-223. *)
Definition submit_all (fuel : nat) (backend : Backend W) (qobjs : list loc)
  (backend_options noise_config : dict OptionValue)
  (skip_qobj_validation : bool) : M (State W) (list Job * list string) :=
  for_each qobjs
    (fun (acc : list Job * list string) qob =>
       let (jobs, job_ids) := acc in
       q <- on_heap (read_qobj qob) ;;
       submitted <- _safe_submit_qobj fuel q backend backend_options
                                      noise_config skip_qobj_validation ;;
       let (job, job_id) := submitted : Job * string in
       ret (jobs ++ [job], job_ids ++ [job_id]))
    ([], []).

(** [for idx, _ in enumerate(jobs): ..], lines 230-286. *)
Definition recover_all (fuel : nat) (backend : Backend W)
  (jobs : list Job) (job_ids : list string)
  (qjob_config : dict Z) (backend_options noise_config : dict OptionValue)
  (skip_qobj_validation : bool) (job_callback : option (callback W))
  : M (State W) (list Job * list string * list loc) :=
  for_each (seq 0 (length jobs))
    (fun (acc : list Job * list string * list loc) idx =>
       let '(jobs, job_ids, results) := acc in
       match jobs !! idx, job_ids !! idx with
       | Some job, Some job_id =>
           done <- recover fuel backend idx jobs job_ids job job_id
                     qjob_config backend_options noise_config
                     skip_qobj_validation job_callback ;;
           let '(jobs', job_ids', result) := done in
           ret (jobs', job_ids', results ++ [result])
       | _, _ => raise (IndexError "list index out of range")
       end)
    (jobs, job_ids, []).

(** [for job in jobs: results.append(job.result(..))], lines 289-290. *)
Definition fetch_all (backend : Backend W) (jobs : list Job)
  (qjob_config : dict Z) : M (State W) (list loc) :=
  for_each jobs
    (fun (results : list loc) job =>
       r <- call (CallResult job qjob_config)
                 (job_result backend job qjob_config) ;;
       result <- on_heap (alloc_result r) ;;
       ret (results ++ [result]))
    [].

(** The chunk size of lines 206-212. *)
Definition max_circuits_per_job (backend : Backend W) : Z :=
  match MAX_CIRCUITS_PER_JOB with
  | Some n => n
  | None => if is_local_backend backend then sys_maxsize
            else max_experiments backend
  end.

Definition run_qobj (fuel : nat) (qobj : loc) (backend : option (Backend W))
  (qjob_config : option (dict Z))
  (backend_options noise_config : option (dict OptionValue))
  (skip_qobj_validation : bool) (job_callback : option (callback W))
  : M (State W) (option loc) :=
  let qjob_config := or_empty qjob_config in
  let backend_options := or_empty backend_options in
  let noise_config := or_empty noise_config in
  match backend with
  | None =>
      raise (ValueError "Backend is missing or not an instance of BaseBackend")
  | Some backend =>
      let with_autorecover := negb (is_simulator_backend backend) in
      let max_circuits_per_job := max_circuits_per_job backend in
      qobjs <- on_heap (_split_qobj_to_qobjs qobj max_circuits_per_job) ;;
      submitted <- submit_all fuel backend qobjs backend_options
                              noise_config skip_qobj_validation ;;
      let (jobs, job_ids) := submitted : list Job * list string in
      results <-
        (if with_autorecover then
           status <- call CallBackendStatus (backend_status backend) ;;
           emit (Log Info (BackendStatusIs status)) ;;
           emit (Log Info (JobsSubmitted (length jobs))) ;;
           emit (Log Info (AllJobIds job_ids)) ;;
           recovered <- recover_all fuel backend jobs job_ids qjob_config
                          backend_options noise_config
                          skip_qobj_validation job_callback ;;
           ret (snd recovered)
         else
           fetch_all backend jobs qjob_config) ;;
      match results with
      | [] => ret None
      | _ => result <- on_heap (_combine_result_objects results) ;;
             ret (Some result)
      end
  end.

End run_qobj.

(** ** Vocabulary of the statements *)

(** The chunk objects the loop of [_split_qobj_to_qobjs] leaves in the store
    for the indices [a, a+1, ..], the first one with the [u]-th uuid. *)
Fixpoint new_chunks (tmpl q : Qobj) (K a : Z) (u k : nat) : list Qobj :=
  match k with
  | O => []
  | S k' =>
      mkQobj (is_QasmQobj tmpl) (Uuid u) (config tmpl)
             (py_slice (experiments q) (a * K) ((a + 1) * K)) (header tmpl)
      :: new_chunks tmpl q K (a + 1) (S u) k'
  end.

(** The objects behind a list of addresses. *)
Definition qobjs_at (h : Heap) (ls : list loc) (qs : list Qobj) : Prop :=
  Forall2 (fun l q => qobj_store h !! l = Some q) ls qs.

Definition results_at (h : Heap) (ls : list loc) (rs : list Result) : Prop :=
  Forall2 (fun l r => result_store h !! l = Some r) ls rs.

(** A store holding one QasmQobj with no experiment, at address 0. *)
Definition empty_batch : Qobj := mkQobj true (Named "batch") 0%nat [] 0%nat.
Definition empty_batch_heap : Heap := mkHeap [empty_batch] [] 0.

(** The records of the result object at an address. *)
Definition records_at (st : list Result) (l : loc) : list ExperimentResult :=
  match st !! l with
  | Some r => results r
  | None => []
  end.

(** A batch of ten experiments at address 0, and one of three. *)
Definition ten_batch : Qobj :=
  mkQobj true (Named "ten") 7%nat (seq 0 10) 9%nat.
Definition ten_batch_heap : Heap := mkHeap [ten_batch] [] 0.

Definition three_batch : Qobj :=
  mkQobj true (Named "three") 7%nat (seq 0 3) 9%nat.
Definition three_batch_heap : Heap := mkHeap [three_batch] [] 0.

(** Two chunk results, at addresses 0 and 1. *)
Definition two_results : list Result :=
  [mkResult true [10; 11]%nat; mkResult true [12]%nat].
Definition two_results_heap : Heap := mkHeap [] two_results 0.

(** The status query of [job] raises a JobError, with the texts [msgs], as
    many times in a row, taking the world from [w] to [w']. *)
Fixpoint status_job_errors {W} (backend : Backend W) (job : Job)
  (msgs : list string) (w w' : W) : Prop :=
  match msgs with
  | [] => w = w'
  | m :: msgs' =>
      exists w1, job_status backend job w = (inl (JobError m), w1) /\
                 status_job_errors backend job msgs' w1 w'
  end.

(** What the prober does for each of these failures. *)
Definition status_retry_trace (job : Job) (job_id : string)
  (msgs : list string) : list event :=
  flat_map (fun m => [CallStatus job;
                      Log Warning (FailToGetStatus job_id (JobError m));
                      Sleep 5]) msgs.

(** The warning of the submission guard for a job whose id cannot be read. *)
Definition job_id_warning (ex : exn) : event :=
  Log Warning (if is_JobError ex then CanNotGetJobIdTerra ex
               else CanNotGetJobId ex).

(** Rounds of the submission guard that end with the job id unreadable: the
    backend hands back the jobs of [rounds], and reading the id of each
    raises the exception next to it. *)
Fixpoint job_id_failures {W} (backend : Backend W) (qobj : Qobj)
  (backend_options noise_config : dict OptionValue) (skip : bool)
  (rounds : list (Job * exn)) (s s' : State W) : Prop :=
  match rounds with
  | [] => s = s'
  | (job, ex) :: rounds' =>
      exists s1 w2,
        run_on_backend backend qobj backend_options noise_config skip s
          = (Ret job, s1) /\
        job_id backend job (world s1) = (inl ex, w2) /\
        job_id_failures backend qobj backend_options noise_config skip rounds'
          (mkState w2 (heap s1)
                   (trace s1 ++ [CallJobId job; job_id_warning ex])) s'
  end.

(** ** Backends to run the program on *)

(** A backend whose world is the number of calls made to it so far, and
    whose answers are functions of that number. *)
Definition scripted_backend (simulator : bool)
  (run_answer : nat -> exn + Job)
  (id_answer : nat -> exn + string)
  (status_answer : nat -> exn + JobStatus)
  (position_answer : nat -> exn + Z)
  (result_answer : nat -> exn + Result)
  (qobj_answer : nat -> exn + Qobj)
  (backend_status_answer : nat -> exn + BackendStatus) : Backend nat :=
  {| is_simulator_backend := simulator;
     is_local_backend := simulator;
     is_aer_provider := false;
     is_basicaer_provider := false;
     max_experiments := 4;
     backend_run := fun _ _ _ w => (run_answer w, S w);
     aer_submit := fun _ _ _ _ w => (run_answer w, S w);
     basicaer_submit := fun _ _ _ w => (run_answer w, S w);
     backend_status := fun w => (backend_status_answer w, S w);
     retrieve_job := fun _ w => (run_answer w, S w);
     job_id := fun _ w => (id_answer w, S w);
     job_status := fun _ w => (status_answer w, S w);
     queue_position := fun _ w => (position_answer w, S w);
     job_result := fun _ _ w => (result_answer w, S w);
     job_qobj := fun _ w => (qobj_answer w, S w);
     error_message := fun _ w => (inr "boom"%string, S w) |}.

Definition final_states : list JobStatus := [DONE; CANCELLED; ERROR].

Definition start {W} (w : W) (h : Heap) : State W := mkState w h [].

(** The status query fails three times with a JobError, then says DONE. *)
Definition flaky_status_backend : Backend nat :=
  scripted_backend false
    (fun w => inr w) (fun _ => inr "id"%string)
    (fun w => if (w <? 3)%nat then inl (JobError "busy") else inr DONE)
    (fun _ => inr 0) (fun _ => inr (mkResult true [1%nat]))
    (fun _ => inr three_batch) (fun _ => inr 0%nat).

(** The status query fails once with a JobError, and then with a KeyError
    for the key [status]. *)
Definition broken_status_backend : Backend nat :=
  scripted_backend false
    (fun w => inr w) (fun _ => inr "id"%string)
    (fun w => if (w <? 1)%nat then inl (JobError "busy")
              else inl (KeyError "status"))
    (fun _ => inr 0) (fun _ => inr (mkResult true [1%nat]))
    (fun _ => inr three_batch) (fun _ => inr 0%nat).

(** The job id cannot be read from the first two jobs (calls 1 and 3). *)
Definition flaky_id_backend : Backend nat :=
  scripted_backend false
    (fun w => inr w)
    (fun w => if (w <? 4)%nat then inl (OtherException "no id yet")
              else inr "id-4"%string)
    (fun _ => inr DONE)
    (fun _ => inr 0) (fun _ => inr (mkResult true [1%nat]))
    (fun _ => inr three_batch) (fun _ => inr 0%nat).

(** The backend refuses every submission. *)
Definition refusing_backend : Backend nat :=
  scripted_backend false
    (fun _ => inl (JobError "refused")) (fun _ => inr "id"%string)
    (fun _ => inr DONE)
    (fun _ => inr 0) (fun _ => inr (mkResult true [1%nat]))
    (fun _ => inr three_batch) (fun _ => inr 0%nat).

(** An observer that takes note and returns. *)
Definition noting_callback : callback nat :=
  fun _ _ _ _ w => (inr tt, S w).

(** Every job stays QUEUED, and its queue position cannot be read. *)
Definition no_position_backend : Backend nat :=
  scripted_backend false
    (fun w => inr w) (fun _ => inr "id"%string)
    (fun _ => inr QUEUED)
    (fun _ => inl (JobError "no position"))
    (fun _ => inr (mkResult true [1%nat]))
    (fun _ => inr three_batch) (fun _ => inr 0%nat).

(** A job is QUEUED at position 3 (call 0), then DONE. *)
Definition queued_then_done_backend : Backend nat :=
  scripted_backend false
    (fun w => inr w) (fun _ => inr "id"%string)
    (fun w => if (w <? 1)%nat then inr QUEUED else inr DONE)
    (fun _ => inr 3)
    (fun _ => inr (mkResult true [1%nat]))
    (fun _ => inr three_batch) (fun _ => inr 0%nat).

(** The first job is CANCELLED (call 0); the next ones are DONE. *)
Definition cancelled_then_done_backend : Backend nat :=
  scripted_backend false
    (fun w => inr w) (fun _ => inr "id-again"%string)
    (fun w => if (w <? 1)%nat then inr CANCELLED else inr DONE)
    (fun _ => inr 0)
    (fun _ => inr (mkResult true [1%nat]))
    (fun _ => inr three_batch) (fun _ => inr 0%nat).

(** The only job is CANCELLED, and its chunk cannot be read back. *)
Definition unreadable_job_backend : Backend nat :=
  scripted_backend false
    (fun w => inr w) (fun _ => inr "id"%string)
    (fun _ => inr CANCELLED)
    (fun _ => inr 0)
    (fun _ => inr (mkResult true [1%nat]))
    (fun _ => inl (JobError "gone")) (fun _ => inr 0%nat).

(** What is logged for a job that ended on [job_status], from the world
    [w]: the events, the error message being asked of an ERROR job, and the
    world after them; nothing when that message cannot be read. *)
Definition dead_job_warning {W} (backend : Backend W) (job : Job)
  (job_id : string) (job_status : JobStatus) (w : W)
  : option (W * list event) :=
  match job_status with
  | CANCELLED => Some (w, [Log Warning (IsCancelled job_id)])
  | ERROR =>
      match error_message backend job w with
      | (inr msg, w') =>
          Some (w', [CallErrorMessage job;
                     Log Warning (EncountersError job_id msg)])
      | (inl _, _) => None
      end
  | _ => Some (w, [Log Warning (UnknownStatus job_id job_status)])
  end.

(** Every run of [m] extends the trace, and only by events that satisfy
    [P]. *)
Definition emits {W A} (P : event -> Prop) (m : M (State W) A) : Prop :=
  forall s r s', m s = (r, s') ->
    exists evs, trace s' = trace s ++ evs /\ Forall P evs.

(** The events of the recovery machinery: status polls, queue positions,
    calls of the observer, sleeps, jobs retrieved by id, chunks read back
    from a job, error messages, and the backend status it logs. *)
Definition recovery_event (ev : event) : bool :=
  match ev with
  | CallStatus _ | CallQueuePosition _ | Callback _ _ _ _ | Sleep _
  | CallRetrieveJob _ | CallQobj _ | CallErrorMessage _
  | CallBackendStatus => true
  | _ => false
  end.

(** A run of [m] emits no event of the recovery machinery. *)
Definition quiet {W A} (m : M (State W) A) : Prop :=
  emits (fun ev => recovery_event ev = false) m.

(** In the spec's words: the blocking result fetch, once for each job, in
    order, whatever it returns; an exception ends it.  The results fetched,
    the exception if any, the jobs asked, and the world after. *)
Fixpoint direct_fetch {W} (backend : Backend W) (jobs : list Job)
  (qjob_config : dict Z) (w : W)
  : list Result * option exn * list Job * W :=
  match jobs with
  | [] => ([], None, [], w)
  | job :: jobs' =>
      match job_result backend job qjob_config w with
      | (inr r, w') =>
          let '(rs, raised, asked, w'') :=
            direct_fetch backend jobs' qjob_config w' in
          (r :: rs, raised, job :: asked, w'')
      | (inl ex, w') => ([], Some ex, [job], w')
      end
  end.

(** A simulator whose jobs all give a result, the second of them a failed
    one. *)
Definition simulator_backend : Backend nat :=
  scripted_backend true
    (fun w => inr w) (fun _ => inr "sim"%string)
    (fun _ => inr DONE) (fun _ => inr 0)
    (fun w => inr (mkResult (w <? 5)%nat [w]))
    (fun _ => inr three_batch) (fun _ => inr 0%nat).

(** A backend that is no simulator and whose status cannot be asked. *)
Definition status_failing_backend : Backend nat :=
  scripted_backend false
    (fun w => inr w) (fun _ => inr "id"%string)
    (fun _ => inr DONE) (fun _ => inr 0)
    (fun _ => inr (mkResult true [1%nat]))
    (fun _ => inr three_batch)
    (fun _ => inl (JobError "status unavailable")).

(** The run of [simulator_backend] on the batch of three with chunks of two,
    up to the end of the submissions. *)
Definition simulator_chunks : outcome (list loc) * Heap :=
  Eval vm_compute in _split_qobj_to_qobjs 0%nat 2 three_batch_heap.

Definition simulator_submitted : outcome (list Job * list string) * State nat :=
  Eval vm_compute in
    submit_all 3 simulator_backend [2; 3]%nat [] [] false
      (mkState 0%nat (snd simulator_chunks) []).

(** The blocking result fetches among the events. *)
Definition is_fetch (ev : event) : bool :=
  match ev with CallResult _ _ => true | _ => false end.

(** ** find_regs_by_name *)

(** A register of a circuit. *)
Record Register := mkRegister {
  reg_name : string;
  reg_size : nat
}.

Record QuantumCircuit := mkCircuit {
  qregs : list Register;
  cregs : list Register
}.

(** [for reg in regs: if reg.name == name: found_reg = reg; break] *)
Fixpoint find_regs_loop (regs : list Register) (name : string)
  : option Register :=
  match regs with
  | [] => None
  | reg :: regs' =>
      if decide (reg_name reg = name) then Some reg
      else find_regs_loop regs' name
  end.

Definition find_regs_by_name (circuit : QuantumCircuit) (name : string)
  (qreg : bool) : option Register :=
  let regs := if qreg then qregs circuit else cregs circuit in
  find_regs_loop regs name.

(** A circuit with two quantum registers and a classical one that has the
    name of the second. *)
Definition sample_circuit : QuantumCircuit :=
  mkCircuit [mkRegister "q" 3; mkRegister "anc" 1; mkRegister "anc" 2]
            [mkRegister "anc" 4].

(** ** Vocabulary of the further statements *)

(** The template object [_split_qobj_to_qobjs] builds from a batch. *)
Definition template_of (q : Qobj) : Qobj :=
  mkQobj true (qobj_id q) (config q) [] (header q).

(** A batch of another kind than QasmQobj, at address 0. *)
Definition pulse_batch : Qobj :=
  mkQobj false (Named "pulse") 7%nat (seq 0 5) 9%nat.
Definition pulse_batch_heap : Heap := mkHeap [pulse_batch] [] 0.

(** The events of a submission: the run operation in its three forms, the
    reading of the job id, and log lines. *)
Definition submission_event (ev : event) : bool :=
  match ev with
  | CallRun _ _ _ | CallAerSubmit _ _ _ _ | CallBasicAerSubmit _ _ _
  | CallJobId _ | Log _ _ => true
  | _ => false
  end.

(** The events of the status prober for a job: the status query of that
    job, the warning for a failed query, and the sleep of 5. *)
Definition prober_event (job : Job) (job_id : string) (ev : event) : Prop :=
  ev = CallStatus job \/ ev = Sleep 5 \/
  exists ex, ev = Log Warning (FailToGetStatus job_id ex).

(** The job id can never be read. *)
Definition no_id_backend : Backend nat :=
  scripted_backend false
    (fun w => inr w) (fun _ => inl (JobError "no id"))
    (fun _ => inr DONE)
    (fun _ => inr 0) (fun _ => inr (mkResult true [1%nat]))
    (fun _ => inr three_batch) (fun _ => inr 0%nat).

(** Every job is RUNNING for ever. *)
Definition running_backend : Backend nat :=
  scripted_backend false
    (fun w => inr w) (fun _ => inr "id"%string)
    (fun _ => inr RUNNING)
    (fun _ => inr 0) (fun _ => inr (mkResult true [1%nat]))
    (fun _ => inr three_batch) (fun _ => inr 0%nat).

(** The store after one more result object is allocated. *)
Definition with_result (h : Heap) (r : Result) : Heap :=
  mkHeap (qobj_store h) (result_store h ++ [r]) (uuid_count h).

(** Rounds of the fetch loop that end with a failed result: each job of the
    loop gives the result next to it in [rounds], whose success flag is
    false, and the backend then retrieves, for the job id, the job of the
    next round. *)
Fixpoint failed_fetches {W} (backend : Backend W) (job_id : string)
  (qjob_config : dict Z) (rounds : list (Result * Job)) (job : Job)
  (s : State W) (job' : Job) (s' : State W) : Prop :=
  match rounds with
  | [] => job = job' /\ s = s'
  | (r, next) :: rounds' =>
      exists w1 w2,
        job_result backend job qjob_config (world s) = (inr r, w1) /\
        success r = false /\
        retrieve_job backend job_id w1 = (inr next, w2) /\
        failed_fetches backend job_id qjob_config rounds' next
          (mkState w2 (with_result (heap s) r)
             (trace s ++ [CallResult job qjob_config;
                          Log Warning (FailureJob job_id);
                          Log Warning (CompletedAnyway job_id);
                          CallRetrieveJob job_id]))
          job' s'
  end.

(** The result of a job fails twice (calls 0 and 2), then succeeds. *)
Definition failing_result_backend : Backend nat :=
  scripted_backend false
    (fun w => inr (100 + w)%nat) (fun _ => inr "id"%string)
    (fun _ => inr DONE) (fun _ => inr 0)
    (fun w => inr (mkResult (3 <? w)%nat [w]))
    (fun _ => inr three_batch) (fun _ => inr 0%nat).

(** The result store of [s'] holds every result object of [s], as it was. *)
Definition results_kept {W} (s s' : State W) : Prop :=
  forall l r,
    result_store (heap s) !! l = Some r ->
    result_store (heap s') !! l = Some r.

(** No run of [m] removes or changes a result object. *)
Definition keeps_results {W A} (m : M (State W) A) : Prop :=
  forall s r s', m s = (r, s') -> results_kept s s'.

(** The address [l] holds a result object whose success flag is true. *)
Definition successful_at {W} (s : State W) (l : loc) : Prop :=
  exists r, result_store (heap s) !! l = Some r /\ success r = true.

(** The job 0 is CANCELLED; the job submitted in its place is DONE, and its
    result fails once before it succeeds. *)
Definition eventful_backend : Backend nat :=
  scripted_backend false
    (fun w => inr w) (fun _ => inr "id"%string)
    (fun w => if (w <? 4)%nat then inr CANCELLED else inr DONE)
    (fun _ => inr 0)
    (fun w => inr (mkResult (8 <? w)%nat [w]))
    (fun _ => inr three_batch) (fun _ => inr 0%nat).

(** The recovery loop of the chunk 0 on [eventful_backend], after the first
    three calls to the backend. *)
Definition eventful_recovery
  : outcome (list Job * list string * loc) * State nat :=
  Eval vm_compute in
    recover final_states 5 eventful_backend 0 [0%nat] ["id"%string] 0%nat "id"
      [("wait"%string, 2)] [] [] false None (start 3%nat empty_batch_heap).

(** The whole run on [eventful_backend], for the batch of three. *)
Definition eventful_run : outcome (option loc) * State nat :=
  Eval vm_compute in
    run_qobj final_states None 6 0%nat (Some eventful_backend)
      (Some [("wait"%string, 2)]) None None false None
      (start 0%nat three_batch_heap).

(** The store after one more uuid is drawn. *)
Definition with_uuid_drawn (h : Heap) : Heap :=
  mkHeap (qobj_store h) (result_store h) (S (uuid_count h)).

(** A local Aer simulator. *)
Definition aer_backend : Backend nat :=
  {| is_simulator_backend := true;
     is_local_backend := true;
     is_aer_provider := true;
     is_basicaer_provider := false;
     max_experiments := 4;
     backend_run := fun _ _ _ w => (inr w, S w);
     aer_submit := fun _ _ _ _ w => (inr w, S w);
     basicaer_submit := fun _ _ _ w => (inr w, S w);
     backend_status := fun w => (inr 0%nat, S w);
     retrieve_job := fun _ w => (inr w, S w);
     job_id := fun _ w => (inr "aer"%string, S w);
     job_status := fun _ w => (inr DONE, S w);
     queue_position := fun _ w => (inr 0, S w);
     job_result := fun _ _ w => (inr (mkResult true [w]), S w);
     job_qobj := fun _ w => (inr three_batch, S w);
     error_message := fun _ w => (inr "boom"%string, S w) |}.
(** * Properties *)

(** ** Arithmetic of the chunk count *)

Lemma ceil_div_bounds (m k : Z) :
  0 < k -> k * (ceil_div m k - 1) < m <= k * ceil_div m k.
Proof.
  intros Hk. unfold ceil_div.
  pose proof (Z.div_mod (- m) k ltac:(lia)) as Hdm.
  pose proof (Z.mod_pos_bound (- m) k Hk) as Hb.
  nia.
Qed.

Lemma ceil_div_unique (m k n : Z) :
  0 < k -> k * (n - 1) < m <= k * n -> ceil_div m k = n.
Proof.
  intros Hk Hn. pose proof (ceil_div_bounds m k Hk) as Hc. nia.
Qed.

Lemma ceil_div_zero (k : Z) : 0 < k -> ceil_div 0 k = 0.
Proof. intros Hk. apply ceil_div_unique; lia. Qed.

Lemma ceil_div_one (m k : Z) : 1 <= m <= k -> ceil_div m k = 1.
Proof. intros H. apply ceil_div_unique; lia. Qed.

Lemma ceil_div_nonneg (m k : Z) : 0 < k -> 0 <= m -> 0 <= ceil_div m k.
Proof. intros Hk Hm. pose proof (ceil_div_bounds m k Hk). nia. Qed.

(** ** The chunk count on doubles *)

Lemma np_ceil_div_zero (k : Z) : np_ceil_div 0 k = 0.
Proof.
  unfold np_ceil_div. destruct (underflows 0 k); [reflexivity|].
  reflexivity.
Qed.

Lemma np_ceil_div_exact (m k : Z) :
  0 <= m -> Z.abs k < m * 2 ^ 1075 -> np_ceil_div m k = ceil_div m k.
Proof.
  intros Hm Hk. unfold np_ceil_div, underflows.
  rewrite Z.abs_eq by exact Hm.
  destruct (Z.leb_spec (m * 2 ^ 1075) (Z.abs k)) as [?|_]; [lia|reflexivity].
Qed.

Lemma np_ceil_div_underflow (m k : Z) :
  0 <= m -> m * 2 ^ 1075 <= Z.abs k -> np_ceil_div m k = 0.
Proof.
  intros Hm Hk. unfold np_ceil_div, underflows.
  rewrite Z.abs_eq by exact Hm.
  destruct (Z.leb_spec (m * 2 ^ 1075) (Z.abs k)) as [_|?]; [reflexivity|lia].
Qed.

(** A chunk size below the length never makes the quotient zero. *)
Lemma np_ceil_div_large (m k : Z) :
  1 <= k -> k < m -> np_ceil_div m k = ceil_div m k.
Proof.
  intros Hk Hm. apply np_ceil_div_exact; [lia|].
  assert (1 <= 2 ^ 1075) by (apply Z.pow_le_mono_r with (b := 0); lia).
  rewrite Z.abs_eq by lia. nia.
Qed.

(** ** Slices *)

Lemma py_slice_take {A} (l : list A) (a b : Z) :
  0 <= a <= b ->
  take (Z.to_nat a) l ++ py_slice l a b = take (Z.to_nat b) l.
Proof.
  intros Hab. unfold py_slice, clamp_index.
  destruct (Z.ltb_spec a 0) as [?|_]; [lia|].
  destruct (Z.ltb_spec b 0) as [?|_]; [lia|].
  destruct (Z.le_gt_cases a (Z.of_nat (length l))) as [Hle|Hgt].
  - rewrite (Z.min_l a) by lia.
    rewrite take_take_drop.
    destruct (Z.le_gt_cases b (Z.of_nat (length l))) as [Hb|Hb].
    + rewrite (Z.min_l b) by lia. f_equal. lia.
    + rewrite (Z.min_r b) by lia.
      rewrite !take_ge by lia. reflexivity.
  - rewrite (Z.min_r a), (Z.min_r b) by lia.
    rewrite Z.sub_diag. simpl. rewrite app_nil_r.
    rewrite !take_ge by lia. reflexivity.
Qed.

Lemma py_slice_length {A} (l : list A) (a k : Z) :
  0 <= a -> 0 <= k -> Z.of_nat (length (py_slice l a (a + k))) <= k.
Proof.
  intros Ha Hk. unfold py_slice, clamp_index.
  destruct (Z.ltb_spec a 0) as [?|_]; [lia|].
  destruct (Z.ltb_spec (a + k) 0) as [?|_]; [lia|].
  rewrite length_take. lia.
Qed.

(** The slices taken by the chunker, one after the other, are a prefix of
    the list. *)
Lemma slices_concat {A} (l : list A) (K : Z) (k : nat) :
  0 < K ->
  concat (map (fun i => py_slice l (i * K) ((i + 1) * K))
              (seqZ 0 (Z.of_nat k)))
  = take (Z.to_nat (Z.of_nat k * K)) l.
Proof.
  intros HK. induction k as [|k IH].
  - reflexivity.
  - rewrite seqZ_S, map_app, concat_app, IH. simpl.
    rewrite app_nil_r, Z.add_0_l.
    rewrite py_slice_take by nia.
    f_equal. lia.
Qed.

(** ** The store *)

Lemma read_qobj_eq st rs u l q :
  st !! l = Some q -> read_qobj l (mkHeap st rs u) = (Ret q, mkHeap st rs u).
Proof. intros H. unfold read_qobj. cbn [qobj_store]. rewrite H. reflexivity. Qed.

Lemma update_qobj_last st rs u f x :
  update_qobj (length st) f (mkHeap (st ++ [x]) rs u)
  = (Ret tt, mkHeap (st ++ [f x]) rs u).
Proof.
  unfold update_qobj. cbn [qobj_store result_store uuid_count].
  rewrite list_lookup_middle by reflexivity.
  rewrite insert_app_r_alt, Nat.sub_diag by reflexivity. reflexivity.
Qed.

Lemma read_result_eq qs st u l r :
  st !! l = Some r -> read_result l (mkHeap qs st u) = (Ret r, mkHeap qs st u).
Proof. intros H. unfold read_result. cbn [result_store]. rewrite H. reflexivity. Qed.

Lemma update_result_eq qs st u l r f :
  st !! l = Some r ->
  update_result l f (mkHeap qs st u) = (Ret tt, mkHeap qs (<[l := f r]> st) u).
Proof.
  intros H. unfold update_result. cbn [qobj_store result_store uuid_count].
  rewrite H. reflexivity.
Qed.

(** ** The chunker's loop *)

Lemma split_iteration_spec st rs u qobj t q tmpl K acc i :
  st !! qobj = Some q -> st !! t = Some tmpl ->
  split_iteration qobj t K acc i (mkHeap st rs u)
  = (Ret (acc ++ [length st]),
     mkHeap (st ++ new_chunks tmpl q K i u 1) rs (S u)).
Proof.
  intros Hq Ht.
  unfold split_iteration, deepcopy_qobj, bind.
  rewrite (read_qobj_eq _ _ _ _ _ Ht). cbv beta iota.
  unfold alloc_qobj at 1, uuid4 at 1.
  cbn [qobj_store result_store uuid_count].
  rewrite update_qobj_last.
  rewrite (read_qobj_eq _ _ _ qobj q) by (apply lookup_app_l_Some, Hq).
  rewrite update_qobj_last.
  reflexivity.
Qed.

Lemma split_loop_spec k : forall st rs u qobj t q tmpl K acc a,
  st !! qobj = Some q -> st !! t = Some tmpl ->
  for_each (seqZ a (Z.of_nat k)) (split_iteration qobj t K) acc
    (mkHeap st rs u)
  = (Ret (acc ++ seq (length st) k),
     mkHeap (st ++ new_chunks tmpl q K a u k) rs (u + k)%nat).
Proof.
  induction k as [|k IH]; intros st rs u qobj t q tmpl K acc a Hq Ht.
  - simpl. rewrite !app_nil_r, Nat.add_0_r. reflexivity.
  - rewrite seqZ_cons by lia. simpl for_each. unfold bind at 1.
    rewrite (split_iteration_spec _ _ _ _ _ _ _ _ _ _ Hq Ht).
    replace (Z.pred (Z.of_nat (S k))) with (Z.of_nat k) by lia.
    rewrite (IH _ _ _ qobj t q tmpl).
    + cbn [new_chunks seq]. rewrite length_app, <- !app_assoc.
      cbn [length app].
      replace (length st + 1)%nat with (S (length st)) by lia.
      replace (Z.succ a) with (a + 1) by lia.
      replace (S u + k)%nat with (u + S k)%nat by lia.
      reflexivity.
    + apply lookup_app_l_Some, Hq.
    + apply lookup_app_l_Some, Ht.
Qed.

Lemma new_chunks_length tmpl q K a u k :
  length (new_chunks tmpl q K a u k) = k.
Proof.
  revert a u. induction k as [|k IH]; intros a u; simpl; [|rewrite IH]; done.
Qed.

Lemma new_chunks_experiments tmpl q K a u k :
  map experiments (new_chunks tmpl q K a u k)
  = map (fun i => py_slice (experiments q) (i * K) ((i + 1) * K))
        (seqZ a (Z.of_nat k)).
Proof.
  revert a u. induction k as [|k IH]; intros a u; [reflexivity|].
  rewrite seqZ_cons by lia. simpl. rewrite IH.
  replace (Z.pred (Z.of_nat (S k))) with (Z.of_nat k) by lia.
  replace (Z.succ a) with (a + 1) by lia. reflexivity.
Qed.

Lemma fresh_objects_at {A} (cs : list A) : forall pre,
  Forall2 (fun l c => (pre ++ cs) !! l = Some c) (seq (length pre) (length cs)) cs.
Proof.
  induction cs as [|c cs IH]; intros pre; simpl; constructor.
  - apply list_lookup_middle. reflexivity.
  - specialize (IH (pre ++ [c])).
    rewrite length_app, <- app_assoc in IH. simpl in IH.
    replace (length pre + 1)%nat with (S (length pre)) in IH by lia.
    exact IH.
Qed.

Lemma new_chunks_sizes tmpl q K a u k :
  0 <= a -> 0 <= K ->
  Forall (fun c => Z.of_nat (length (experiments c)) <= K)
         (new_chunks tmpl q K a u k).
Proof.
  revert a u. induction k as [|k IH]; intros a u Ha HK; simpl; constructor.
  - simpl. replace ((a + 1) * K) with (a * K + K) by lia.
    apply py_slice_length; nia.
  - apply IH; lia.
Qed.

Lemma sizes_sum (chunks : list Qobj) :
  list_sum (map (fun c => length (experiments c)) chunks)
  = length (concat (map experiments chunks)).
Proof.
  induction chunks as [|c cs IH]; simpl; [reflexivity|].
  rewrite length_app, IH. reflexivity.
Qed.

(** ** The chunker *)

(** X27: a QasmQobj batch of M experiments and a maximum chunk size
    K >= 1 for which the double quotient M / K is not zero (M = 0, or K
    below M * 2^1075) give ceil(M/K) chunks, each of at most K experiments,
    whose sizes sum to M and whose experiments, concatenated in order, are
    the batch's. *)
Theorem split_qobj_covers_batch (h : Heap) (qobj : loc) (q : Qobj) (K : Z) :
  qobj_store h !! qobj = Some q -> is_QasmQobj q = true -> 1 <= K ->
  let M := Z.of_nat (length (experiments q)) in
  M = 0 \/ K < M * 2 ^ 1075 ->
  exists (qobjs : list loc) (chunks : list Qobj) (h' : Heap),
    _split_qobj_to_qobjs qobj K h = (Ret qobjs, h') /\
    qobjs_at h' qobjs chunks /\
    Z.of_nat (length chunks) = ceil_div M K /\
    K * (ceil_div M K - 1) < M <= K * ceil_div M K /\
    Forall (fun c => Z.of_nat (length (experiments c)) <= K) chunks /\
    list_sum (map (fun c => length (experiments c)) chunks)
      = length (experiments q) /\
    concat (map experiments chunks) = experiments q.
Proof.
  intros Hq Hqasm HK M Hfl. destruct h as [st rs u].
  cbn [qobj_store] in Hq.
  pose proof (ceil_div_bounds M K ltac:(lia)) as Hceil.
  unfold _split_qobj_to_qobjs, bind.
  rewrite (read_qobj_eq _ _ _ _ _ Hq). cbv beta iota.
  destruct (decide (K = 0)) as [?|_]; [lia|].
  fold M.
  assert (np_ceil_div M K = ceil_div M K) as ->.
  { destruct Hfl as [->|Hfl].
    - rewrite np_ceil_div_zero, ceil_div_zero by lia. reflexivity.
    - apply np_ceil_div_exact; [lia|]. rewrite Z.abs_eq by lia. exact Hfl. }
  destruct (decide (ceil_div M K = 1)) as [H1|Hn1].
  - exists [qobj], [q], (mkHeap st rs u).
    split; [reflexivity|]. split; [repeat constructor; exact Hq|].
    split; [simpl; lia|]. split; [exact Hceil|].
    split; [repeat constructor; fold M; lia|].
    simpl. rewrite app_nil_r. split; [lia|reflexivity].
  - rewrite Hqasm.
    set (tmpl := mkQobj true (qobj_id q) (config q) [] (header q)).
    unfold alloc_qobj at 1. cbn [qobj_store result_store uuid_count].
    assert (0 <= ceil_div M K) as Hnn by (apply ceil_div_nonneg; lia).
    set (k := Z.to_nat (ceil_div M K)).
    assert (ceil_div M K = Z.of_nat k) as Hk by lia.
    unfold py_range. rewrite Hk.
    rewrite (split_loop_spec k _ _ _ qobj (length st) q tmpl)
      by (first [apply lookup_app_l_Some, Hq
                | apply list_lookup_middle; reflexivity]).
    cbv beta iota. unfold ret.
    exists (seq (length (st ++ [tmpl])) k), (new_chunks tmpl q K 0 u k).
    eexists. split; [reflexivity|].
    assert (concat (map experiments (new_chunks tmpl q K 0 u k))
            = experiments q) as Hcat.
    { rewrite new_chunks_experiments, slices_concat by lia.
      apply take_ge. subst M. nia. }
    split.
    { unfold qobjs_at. cbn [qobj_store].
      pose proof (fresh_objects_at (new_chunks tmpl q K 0 u k) (st ++ [tmpl]))
        as HF.
      rewrite new_chunks_length in HF. exact HF. }
    rewrite new_chunks_length.
    split; [lia|]. split; [rewrite <- Hk; exact Hceil|].
    split; [apply new_chunks_sizes; lia|].
    split; [rewrite sizes_sum, Hcat; reflexivity|exact Hcat].
Qed.

Lemma split_qobj_covers_batch_witness :
  qobj_store ten_batch_heap !! 0%nat = Some ten_batch /\
  exists qobjs chunks h',
    _split_qobj_to_qobjs 0%nat 4 ten_batch_heap = (Ret qobjs, h') /\
    qobjs_at h' qobjs chunks /\
    Z.of_nat (length chunks) = ceil_div 10 4 /\
    concat (map experiments chunks) = experiments ten_batch.
Proof.
  split; [reflexivity|].
  destruct (split_qobj_covers_batch ten_batch_heap 0%nat ten_batch 4)
    as (qobjs & chunks & h' & H1 & H2 & H3 & _ & _ & _ & H4);
    [reflexivity | reflexivity | lia | right; vm_compute; reflexivity |].
  exists qobjs, chunks, h'. auto.
Defined.

(** C3, where the code departs from it: for a QasmQobj batch of M >= 1
    experiments and a chunk size K of M * 2^1075 or more, the ceiling of
    M / K is 1, but the double quotient of the code is zero, and the
    chunker returns no chunk at all: the experiments are dropped. *)
Theorem split_qobj_underflow_drops_batch (h : Heap) (qobj : loc) (q : Qobj)
  (K : Z) :
  qobj_store h !! qobj = Some q -> is_QasmQobj q = true ->
  let M := Z.of_nat (length (experiments q)) in
  1 <= M -> M * 2 ^ 1075 <= K ->
  ceil_div M K = 1 /\
  _split_qobj_to_qobjs qobj K h
  = (Ret [],
     mkHeap (qobj_store h ++ [mkQobj true (qobj_id q) (config q) [] (header q)])
            (result_store h) (uuid_count h)).
Proof.
  intros Hq Hqasm M HM HK. destruct h as [st rs u]. cbn [qobj_store] in Hq.
  assert (1 <= 2 ^ 1075) as Hpow
    by (apply Z.pow_le_mono_r with (b := 0); lia).
  split; [apply ceil_div_one; nia|].
  unfold _split_qobj_to_qobjs, bind.
  rewrite (read_qobj_eq _ _ _ _ _ Hq). cbv beta iota.
  destruct (decide (K = 0)) as [?|_]; [nia|].
  fold M. rewrite np_ceil_div_underflow by (rewrite ?Z.abs_eq; nia).
  destruct (decide (0 = 1)) as [?|_]; [lia|].
  rewrite Hqasm. reflexivity.
Qed.

Lemma split_qobj_underflow_drops_batch_witness :
  ceil_div 3 (3 * 2 ^ 1075) = 1 /\
  _split_qobj_to_qobjs 0%nat (3 * 2 ^ 1075) three_batch_heap
  = (Ret [],
     mkHeap [three_batch; mkQobj true (Named "three") 7%nat [] 9%nat] [] 0).
Proof.
  apply (split_qobj_underflow_drops_batch three_batch_heap 0%nat
           three_batch (3 * 2 ^ 1075));
    [reflexivity | reflexivity | simpl; lia | simpl length; lia].
Defined.

(** With [QISKIT_AQUA_MAX_CIRCUITS_PER_JOB] set to 3 * 2^1075, a run on the
    batch of three submits nothing and returns None. *)
Example run_qobj_underflow_returns_none :
  run_qobj final_states (Some (3 * 2 ^ 1075)) 3 0%nat (Some simulator_backend)
    None None None false None (start 0%nat three_batch_heap)
  = (Ret None,
     mkState 0%nat
       (mkHeap [three_batch; mkQobj true (Named "three") 7%nat [] 9%nat] [] 0)
       []).
Proof. vm_compute. reflexivity. Qed.

(** The single-chunk shortcut. *)
Lemma split_single st rs u qobj q K :
  st !! qobj = Some q ->
  1 <= Z.of_nat (length (experiments q)) <= K ->
  K < Z.of_nat (length (experiments q)) * 2 ^ 1075 ->
  _split_qobj_to_qobjs qobj K (mkHeap st rs u)
  = (Ret [qobj], mkHeap st rs u).
Proof.
  intros Hq HM Hfl.
  unfold _split_qobj_to_qobjs, bind.
  rewrite (read_qobj_eq _ _ _ _ _ Hq). cbv beta iota.
  destruct (decide (K = 0)) as [?|_]; [lia|].
  rewrite np_ceil_div_exact by (rewrite ?Z.abs_eq; lia).
  rewrite ceil_div_one by lia.
  destruct (decide (1 = 1)) as [_|?]; [reflexivity|congruence].
Qed.

(** C9, as the code has it: a QasmQobj batch of M experiments with
    1 <= M <= K, K below M * 2^1075 so that the double quotient M / K is
    not zero, gives exactly one chunk, the address of the batch itself, and
    the store (objects and uuid supply) is untouched. *)
Theorem split_qobj_small_batch_is_identity (h : Heap) (qobj : loc) (q : Qobj)
  (K : Z) :
  qobj_store h !! qobj = Some q ->
  1 <= Z.of_nat (length (experiments q)) <= K ->
  K < Z.of_nat (length (experiments q)) * 2 ^ 1075 ->
  _split_qobj_to_qobjs qobj K h = (Ret [qobj], h).
Proof.
  intros Hq HM Hfl. destruct h as [st rs u]. cbn [qobj_store] in Hq.
  unfold _split_qobj_to_qobjs, bind.
  rewrite (read_qobj_eq _ _ _ _ _ Hq). cbv beta iota.
  destruct (decide (K = 0)) as [?|_]; [lia|].
  rewrite np_ceil_div_exact by (rewrite ?Z.abs_eq; lia).
  rewrite ceil_div_one by lia.
  destruct (decide (1 = 1)) as [_|?]; [reflexivity|congruence].
Qed.

Lemma split_qobj_small_batch_is_identity_witness :
  1 <= Z.of_nat (length (experiments three_batch)) <= 4 /\
  _split_qobj_to_qobjs 0%nat 4 three_batch_heap
  = (Ret [0%nat], three_batch_heap).
Proof.
  split; [simpl; lia|].
  apply (split_qobj_small_batch_is_identity three_batch_heap 0%nat three_batch);
    [reflexivity | simpl; lia | vm_compute; reflexivity].
Defined.

(** The empty batch (M = 0 <= K) gives no chunk at all, so not the batch
    itself. *)
Lemma split_qobj_empty_batch_gives_no_chunk :
  qobj_store empty_batch_heap !! 0%nat = Some empty_batch /\
  is_QasmQobj empty_batch = true /\
  Z.of_nat (length (experiments empty_batch)) <= 1 /\
  fst (_split_qobj_to_qobjs 0%nat 1 empty_batch_heap) = Ret [] /\
  fst (_split_qobj_to_qobjs 0%nat 1 empty_batch_heap) <> Ret [0%nat].
Proof.
  repeat split; try reflexivity; try (simpl; lia).
  vm_compute. discriminate.
Qed.

(** ** The combiner *)

Lemma records_at_insert_ne st n r l :
  l <> n -> records_at (<[n := r]> st) l = records_at st l.
Proof.
  intros Hne. unfold records_at. rewrite list_lookup_insert_ne by congruence.
  reflexivity.
Qed.

Lemma combine_loop_spec ls : forall qs st u n r,
  st !! n = Some r ->
  Forall (fun l => l <> n /\ is_Some (st !! l)) ls ->
  for_each ls
    (fun (_ : unit) l =>
       x <- read_result l ;; extend_results n (results x)) tt
    (mkHeap qs st u)
  = (Ret tt,
     mkHeap qs
       (<[n := mkResult (success r)
                 (results r ++ concat (map (records_at st) ls))]> st) u).
Proof.
  induction ls as [|l ls IH]; intros qs st u n r Hn Hls.
  - simpl. rewrite app_nil_r. destruct r as [s rec]. simpl.
    rewrite list_insert_id by exact Hn. reflexivity.
  - inversion Hls as [|? ? [Hne [x Hx]] Hrest]; subst.
    cbn [for_each]. unfold bind at 1. unfold bind at 1.
    rewrite (read_result_eq _ _ _ _ _ Hx). cbv beta iota.
    unfold extend_results.
    rewrite (update_result_eq _ _ _ _ _ _ Hn).
    pose proof (lookup_lt_Some _ _ _ Hn) as Hlt.
    rewrite (IH _ _ _ n (mkResult (success r) (results r ++ results x))).
    + rewrite list_insert_insert_eq. cbn [success results map concat].
      unfold records_at at 2. rewrite Hx.
      rewrite <- app_assoc.
      assert (map (records_at (<[n := mkResult (success r)
                                        (results r ++ results x)]> st)) ls
              = map (records_at st) ls) as ->; [|reflexivity].
      apply map_ext_Forall.
      eapply Forall_impl; [exact Hrest|].
      intros l0 [Hl0 _]. apply records_at_insert_ne, Hl0.
    + apply list_lookup_insert_eq, Hlt.
    + eapply Forall_impl; [exact Hrest|].
      intros l0 [Hl0 Hsome]. split; [exact Hl0|].
      rewrite list_lookup_insert_ne by congruence. exact Hsome.
Qed.

Lemma results_at_records st rs objs :
  Forall2 (fun l r => st !! l = Some r) rs objs ->
  map (records_at st) rs = map results objs.
Proof.
  induction 1 as [|l r rs objs Hl _ IH]; simpl; [reflexivity|].
  unfold records_at at 1. rewrite Hl, IH. reflexivity.
Qed.

(** What the combiner does on two results or more: a fresh object, copied
    from the first one and extended by the records of the others. *)
Lemma combine_many qs st u r0 r1 rest o0 o1 objs :
  Forall2 (fun l r => st !! l = Some r) (r0 :: r1 :: rest) (o0 :: o1 :: objs) ->
  _combine_result_objects (r0 :: r1 :: rest) (mkHeap qs st u)
  = (Ret (length st),
     mkHeap qs
       (st ++ [mkResult (success o0)
                 (concat (map results (o0 :: o1 :: objs)))]) u).
Proof.
  intros Hall.
  inversion Hall as [|? ? ? ? H0 Htail]; subst.
  unfold _combine_result_objects.
  destruct (decide (length (r0 :: r1 :: rest) = 1%nat)) as [Hlen|_];
    [simpl in Hlen; lia|].
  cbn [lookup list_lookup]. unfold bind, deepcopy_result.
  unfold bind. rewrite (read_result_eq _ _ _ _ _ H0). cbv beta iota.
  unfold alloc_result. cbn [qobj_store result_store uuid_count drop].
  rewrite (combine_loop_spec _ _ _ _ (length st) o0).
  - cbv beta iota. unfold ret. do 2 f_equal.
    rewrite insert_app_r_alt, Nat.sub_diag by reflexivity.
    cbn [insert list_insert]. do 3 f_equal.
    cbn [map concat]. f_equal.
    change (concat (map (records_at (st ++ [o0])) (r1 :: rest))
            = concat (map results (o1 :: objs))).
    f_equal. apply results_at_records.
    eapply Forall2_impl; [exact Htail|].
    intros l r Hl. apply lookup_app_l_Some, Hl.
  - apply list_lookup_middle. reflexivity.
  - clear -Htail. induction Htail as [|l r ls os Hl _ IH]; constructor.
    + pose proof (lookup_lt_Some _ _ _ Hl). split; [lia|].
      exists r. apply lookup_app_l_Some, Hl.
    + exact IH.
Qed.

(** C1: on the empty sequence the combiner raises (Python's IndexError, from
    [results[0]]), and on no other sequence of result objects does it
    raise. *)
Theorem combine_fails_exactly_on_empty (h : Heap) (rs : list loc)
  (objs : list Result) :
  results_at h rs objs ->
  (rs = [] ->
   _combine_result_objects rs h
   = (Raise (IndexError "list index out of range"), h)) /\
  (forall e h', _combine_result_objects rs h = (Raise e, h') -> rs = []) /\
  (forall h', _combine_result_objects rs h <> (Diverge, h')).
Proof.
  intros Hall. split; [intros ->; reflexivity|].
  destruct h as [qs st u]. unfold results_at in Hall.
  cbn [result_store] in Hall.
  destruct Hall as [|r0 o0 rs objs H0 Htail].
  - split; [reflexivity|]. intros h'. cbv. discriminate.
  - destruct Htail as [|r1 o1 rs objs H1 Htail].
    + split; intros; cbv; discriminate.
    + rewrite (combine_many qs st u r0 r1 rs o0 o1 objs)
        by (repeat constructor; assumption).
      split; intros; discriminate.
Qed.

Lemma combine_fails_exactly_on_empty_witness :
  results_at two_results_heap [] [] /\
  _combine_result_objects [] two_results_heap
  = (Raise (IndexError "list index out of range"), two_results_heap).
Proof.
  split; [constructor|].
  apply (combine_fails_exactly_on_empty two_results_heap [] []);
    [constructor | reflexivity].
Defined.

(** What the combiner returns on one result object or more. *)
Lemma combine_records (h : Heap) (rs : list loc) (objs : list Result) :
  results_at h rs objs -> rs <> [] ->
  exists (l : loc) (h' : Heap) (r : Result),
    _combine_result_objects rs h = (Ret l, h') /\
    result_store h' !! l = Some r /\
    results r = concat (map results objs) /\
    results_at h' rs objs /\
    qobj_store h' = qobj_store h /\
    (length rs = 1%nat -> rs = [l] /\ h' = h).
Proof.
  intros Hall Hne. destruct h as [qs st u]. unfold results_at in *.
  cbn [result_store] in *.
  destruct Hall as [|r0 o0 rs objs H0 Htail]; [congruence|].
  destruct Htail as [|r1 o1 rs objs H1 Htail].
  - exists r0, (mkHeap qs st u), o0.
    split; [reflexivity|]. split; [exact H0|].
    split; [simpl; rewrite app_nil_r; reflexivity|].
    split; [repeat constructor; exact H0|].
    split; [reflexivity|]. intros _. split; reflexivity.
  - rewrite (combine_many qs st u r0 r1 rs o0 o1 objs)
      by (repeat constructor; assumption).
    eexists _, _, _. split; [reflexivity|].
    cbn [result_store].
    split; [apply list_lookup_middle; reflexivity|].
    split; [reflexivity|].
    split; [|split; [reflexivity|simpl; intros; lia]].
    assert (Forall2 (fun l r => st !! l = Some r)
                    (r0 :: r1 :: rs) (o0 :: o1 :: objs)) as Hall
      by (repeat constructor; assumption).
    eapply Forall2_impl; [exact Hall|].
    intros l r Hl. apply lookup_app_l_Some, Hl.
Qed.

(** C4: on N >= 1 result objects the combiner returns an object whose
    records are the concatenation, in input order, of the inputs' records;
    the inputs are left as they were; and for N = 1 the object returned is
    the input itself, the store unchanged. *)
Theorem combine_concatenates_records (h : Heap) (rs : list loc)
  (objs : list Result) :
  results_at h rs objs -> rs <> [] ->
  exists (l : loc) (h' : Heap) (r : Result),
    _combine_result_objects rs h = (Ret l, h') /\
    result_store h' !! l = Some r /\
    results r = concat (map results objs) /\
    results_at h' rs objs /\
    (length rs = 1%nat -> rs = [l] /\ h' = h).
Proof.
  intros Hall Hne.
  destruct (combine_records h rs objs Hall Hne)
    as (l & h' & r & H1 & H2 & H3 & H4 & _ & H5).
  exists l, h', r. auto.
Qed.

Lemma combine_concatenates_records_witness :
  results_at two_results_heap [0; 1]%nat two_results /\
  exists l h' r,
    _combine_result_objects [0; 1]%nat two_results_heap = (Ret l, h') /\
    result_store h' !! l = Some r /\
    results r = [10; 11; 12]%nat.
Proof.
  split; [repeat constructor|].
  destruct (combine_concatenates_records two_results_heap [0; 1]%nat
              two_results)
    as (l & h' & r & H1 & H2 & H3 & _); [repeat constructor | discriminate |].
  exists l, h', r. auto.
Defined.

(** ** The monad *)

Lemma bind_Ret {S A B} (m : M S A) (k : A -> M S B) s a s' :
  m s = (Ret a, s') -> bind m k s = k a s'.
Proof. intros H. unfold bind. rewrite H. reflexivity. Qed.

Lemma bind_Raise {S A B} (m : M S A) (k : A -> M S B) s ex s' :
  m s = (Raise ex, s') -> bind m k s = (Raise ex, s').
Proof. intros H. unfold bind. rewrite H. reflexivity. Qed.

Lemma call_answers {W A} (ev : event) (f : op W A) (s : State W) a w' :
  f (world s) = (inr a, w') ->
  call ev f s = (Ret a, mkState w' (heap s) (trace s ++ [ev])).
Proof. intros H. unfold call. rewrite H. reflexivity. Qed.

Lemma call_raises {W A} (ev : event) (f : op W A) (s : State W) ex w' :
  f (world s) = (inl ex, w') ->
  call ev f s = (Raise ex, mkState w' (heap s) (trace s ++ [ev])).
Proof. intros H. unfold call. rewrite H. reflexivity. Qed.

(** ** The status prober *)

(** C7: when the status query raises JobError any number of times and then
    answers, the prober returns that answer, having logged a warning and
    slept 5 after each failure; when it then raises another kind of
    exception [ex], the prober raises an AquaError whose cause is [ex] and
    whose text is the job id between [FAILURE: job id: ] and the rest of
    the message, which ends with the text of [ex] in brackets. *)
Theorem safe_get_job_status_retries_job_errors {W} (backend : Backend W)
  (job : Job) (job_id : string) (msgs : list string) (s : State W) (w1 : W)
  (fuel : nat) :
  status_job_errors backend job msgs (world s) w1 ->
  (length msgs < fuel)%nat ->
  let after w2 :=
    mkState w2 (heap s)
      (trace s ++ status_retry_trace job job_id msgs ++ [CallStatus job]) in
  (forall st w2,
     job_status backend job w1 = (inr st, w2) ->
     _safe_get_job_status fuel backend job job_id s = (Ret st, after w2)) /\
  (forall ex w2,
     job_status backend job w1 = (inl ex, w2) -> is_JobError ex = false ->
     _safe_get_job_status fuel backend job job_id s
     = (Raise (AquaError
                 ("FAILURE: job id: " +:+ job_id +:+
                  ", status: 'FAIL_TO_GET_STATUS' Unknown error: (" +:+
                  str_exn ex +:+ ")")
                 (Some ex)),
        after w2)).
Proof.
  revert s fuel.
  induction msgs as [|m msgs IH]; intros s fuel Herr Hfuel after.
  - simpl in Herr. subst w1.
    destruct fuel as [|fuel]; [simpl in Hfuel; lia|].
    split.
    + intros st w2 Hst. simpl. unfold bind, attempt.
      rewrite (call_answers _ _ _ _ _ Hst). reflexivity.
    + intros ex w2 Hst Hex. simpl. unfold bind, attempt.
      rewrite (call_raises _ _ _ _ _ Hst). rewrite Hex. reflexivity.
  - destruct Herr as (wm & Hm & Hrest).
    destruct fuel as [|fuel]; [simpl in Hfuel; lia|].
    simpl in Hfuel.
    set (s' := mkState wm (heap s)
                 (trace s ++ [CallStatus job;
                              Log Warning (FailToGetStatus job_id (JobError m));
                              Sleep 5])).
    assert (_safe_get_job_status (S fuel) backend job job_id s
            = _safe_get_job_status fuel backend job job_id s') as Hstep.
    { simpl. unfold bind at 1. unfold attempt.
      rewrite (call_raises _ _ _ _ _ Hm). cbn [is_JobError].
      unfold bind, emit, sleep. simpl.
      unfold s'. rewrite <- !app_assoc. reflexivity. }
    destruct (IH s' fuel Hrest ltac:(lia)) as [IHok IHbad].
    assert (trace s' ++ status_retry_trace job job_id msgs ++ [CallStatus job]
            = trace s ++ status_retry_trace job job_id (m :: msgs)
                ++ [CallStatus job]) as Htr.
    { unfold s'. simpl. rewrite <- !app_assoc. reflexivity. }
    split.
    + intros st w2 Hst. rewrite Hstep, (IHok st w2 Hst).
      unfold after. simpl heap. rewrite Htr. reflexivity.
    + intros ex w2 Hst Hex. rewrite Hstep, (IHbad ex w2 Hst Hex).
      unfold after. simpl heap. rewrite Htr. reflexivity.
Qed.

Lemma safe_get_job_status_retries_job_errors_witness :
  (status_job_errors flaky_status_backend 0%nat ["busy"; "busy"; "busy"]
     0%nat 3%nat /\
   _safe_get_job_status 4 flaky_status_backend 0%nat "j"
     (start 0%nat empty_batch_heap)
   = (Ret DONE,
      mkState 4%nat empty_batch_heap
        [CallStatus 0%nat;
         Log Warning (FailToGetStatus "j" (JobError "busy")); Sleep 5;
         CallStatus 0%nat;
         Log Warning (FailToGetStatus "j" (JobError "busy")); Sleep 5;
         CallStatus 0%nat;
         Log Warning (FailToGetStatus "j" (JobError "busy")); Sleep 5;
         CallStatus 0%nat])) /\
  (status_job_errors broken_status_backend 0%nat ["busy"] 0%nat 1%nat /\
   _safe_get_job_status 2 broken_status_backend 0%nat "j"
     (start 0%nat empty_batch_heap)
   = (Raise (AquaError
               "FAILURE: job id: j, status: 'FAIL_TO_GET_STATUS' Unknown error: ('status')"
               (Some (KeyError "status"))),
      mkState 2%nat empty_batch_heap
        [CallStatus 0%nat;
         Log Warning (FailToGetStatus "j" (JobError "busy")); Sleep 5;
         CallStatus 0%nat])).
Proof.
  assert (status_job_errors flaky_status_backend 0%nat
            ["busy"; "busy"; "busy"] 0%nat 3%nat) as H.
  { simpl. eexists; split; [reflexivity|].
    eexists; split; [reflexivity|].
    eexists; split; [reflexivity|reflexivity]. }
  assert (status_job_errors broken_status_backend 0%nat ["busy"] 0%nat 1%nat)
    as H'.
  { simpl. eexists; split; [reflexivity|reflexivity]. }
  split; (split; [assumption|]).
  - apply (proj1 (safe_get_job_status_retries_job_errors flaky_status_backend
                    0%nat "j" ["busy"; "busy"; "busy"]
                    (start 0%nat empty_batch_heap) 3%nat 4%nat H
                    ltac:(simpl; lia))).
    reflexivity.
  - apply (proj2 (safe_get_job_status_retries_job_errors broken_status_backend
                    0%nat "j" ["busy"]
                    (start 0%nat empty_batch_heap) 1%nat 2%nat H'
                    ltac:(simpl; lia)) (KeyError "status") 2%nat);
      reflexivity.
Defined.

(** ** The submission guard *)

(** C2, as the code has it: when the job id cannot be read, whatever the
    exception and however many times in a row, the guard logs a warning and
    runs the chunk again at once, and it returns the first job whose id can
    be read; an exception of the run operation itself is not caught, and
    leaves the guard. *)
Theorem safe_submit_retries_job_id_failures {W} (backend : Backend W)
  (qobj : Qobj) (backend_options noise_config : dict OptionValue)
  (skip : bool) (rounds : list (Job * exn)) (s s1 : State W) (fuel : nat) :
  job_id_failures backend qobj backend_options noise_config skip rounds s s1 ->
  (length rounds < fuel)%nat ->
  (forall job s2 id w3,
     run_on_backend backend qobj backend_options noise_config skip s1
       = (Ret job, s2) ->
     job_id backend job (world s2) = (inr id, w3) ->
     _safe_submit_qobj fuel qobj backend backend_options noise_config skip s
     = (Ret (job, id), mkState w3 (heap s2) (trace s2 ++ [CallJobId job]))) /\
  (forall ex s2,
     run_on_backend backend qobj backend_options noise_config skip s1
       = (Raise ex, s2) ->
     _safe_submit_qobj fuel qobj backend backend_options noise_config skip s
     = (Raise ex, s2)).
Proof.
  revert s fuel.
  induction rounds as [|[job0 ex0] rounds IH]; intros s fuel Hfail Hfuel.
  - simpl in Hfail. subst s1.
    destruct fuel as [|fuel]; [simpl in Hfuel; lia|].
    split.
    + intros job s2 id w3 Hrun Hid. simpl.
      rewrite (bind_Ret _ _ _ _ _ Hrun). unfold bind, attempt.
      rewrite (call_answers _ _ _ _ _ Hid). reflexivity.
    + intros ex s2 Hrun. simpl. apply bind_Raise, Hrun.
  - destruct Hfail as (sa & wb & Hrun0 & Hid0 & Hrest).
    destruct fuel as [|fuel]; [simpl in Hfuel; lia|].
    simpl in Hfuel.
    set (s' := mkState wb (heap sa)
                 (trace sa ++ [CallJobId job0; job_id_warning ex0])) in *.
    assert (_safe_submit_qobj (S fuel) qobj backend backend_options
              noise_config skip s
            = _safe_submit_qobj fuel qobj backend backend_options
                noise_config skip s') as Hstep.
    { simpl. rewrite (bind_Ret _ _ _ _ _ Hrun0). unfold bind at 1.
      unfold attempt. rewrite (call_raises _ _ _ _ _ Hid0).
      unfold bind, emit. simpl. unfold s', job_id_warning.
      rewrite <- !app_assoc. reflexivity. }
    destruct (IH s' fuel Hrest ltac:(lia)) as [IHok IHbad].
    split.
    + intros job s2 id w3 Hrun Hid. rewrite Hstep. apply IHok; assumption.
    + intros ex s2 Hrun. rewrite Hstep. apply IHbad; assumption.
Qed.

Lemma safe_submit_retries_job_id_failures_witness :
  job_id_failures flaky_id_backend three_batch [] [] false
    [(0%nat, OtherException "no id yet"); (2%nat, OtherException "no id yet")]
    (start 0%nat empty_batch_heap)
    (mkState 4%nat empty_batch_heap
       [CallRun three_batch [] []; CallJobId 0%nat;
        job_id_warning (OtherException "no id yet");
        CallRun three_batch [] []; CallJobId 2%nat;
        job_id_warning (OtherException "no id yet")]) /\
  fst (_safe_submit_qobj 3 three_batch flaky_id_backend [] [] false
         (start 0%nat empty_batch_heap))
  = Ret (4%nat, "id-4"%string).
Proof.
  assert (job_id_failures flaky_id_backend three_batch [] [] false
    [(0%nat, OtherException "no id yet"); (2%nat, OtherException "no id yet")]
    (start 0%nat empty_batch_heap)
    (mkState 4%nat empty_batch_heap
       [CallRun three_batch [] []; CallJobId 0%nat;
        job_id_warning (OtherException "no id yet");
        CallRun three_batch [] []; CallJobId 2%nat;
        job_id_warning (OtherException "no id yet")])) as H.
  { simpl. eexists _, _. split; [reflexivity|]. split; [reflexivity|].
    eexists _, _. split; [reflexivity|]. split; [reflexivity|].
    reflexivity. }
  split; [exact H|].
  rewrite (proj1 (safe_submit_retries_job_id_failures flaky_id_backend
                    three_batch [] [] false _ _ _ 3%nat H ltac:(simpl; lia))
             4%nat _ "id-4"%string 6%nat eq_refl eq_refl).
  reflexivity.
Defined.

(** A backend whose run operation raises: the exception leaves the guard,
    whatever the fuel. *)
Lemma safe_submit_propagates_run_failure :
  fst (_safe_submit_qobj 1 three_batch refusing_backend [] [] false
         (start 0%nat empty_batch_heap)) = Raise (JobError "refused") /\
  fst (_safe_submit_qobj 1000 three_batch refusing_backend [] [] false
         (start 0%nat empty_batch_heap)) = Raise (JobError "refused") /\
  trace (snd (_safe_submit_qobj 1000 three_batch refusing_backend [] [] false
                (start 0%nat empty_batch_heap)))
  = [CallRun three_batch [] []].
Proof. repeat split; reflexivity. Qed.

(** ** Polling *)

(** C8, as the code has it: on a poll that observes QUEUED the queue
    position is read from the job; the position read is what is logged and
    what the observer is given before the wait and the next poll; and when
    reading it raises, the exception leaves the polling loop at once, the
    observer not having been called for that poll. *)
Theorem poll_queued_reads_position {W} (JOB_FINAL_STATES : list JobStatus)
  (backend : Backend W) (fuel : nat) (job : Job) (job_id : string)
  (qjob_config : dict Z) (job_callback : option (callback W))
  (s s1 : State W) :
  _safe_get_job_status fuel backend job job_id s = (Ret QUEUED, s1) ->
  QUEUED ∉ JOB_FINAL_STATES ->
  (forall ex w2,
     queue_position backend job (world s1) = (inl ex, w2) ->
     poll JOB_FINAL_STATES (S fuel) backend job job_id qjob_config
          job_callback s
     = (Raise ex,
        mkState w2 (heap s1) (trace s1 ++ [CallQueuePosition job]))) /\
  (forall p w2,
     queue_position backend job (world s1) = (inr p, w2) ->
     poll JOB_FINAL_STATES (S fuel) backend job job_id qjob_config
          job_callback s
     = (do_callback job_callback job_id QUEUED p job ;;
        wait <- subscript qjob_config "wait" ;;
        sleep wait ;;
        poll JOB_FINAL_STATES fuel backend job job_id qjob_config
             job_callback)
         (mkState w2 (heap s1)
            (trace s1 ++ [CallQueuePosition job;
                          Log Info (QueuedAt job_id p)]))).
Proof.
  intros Hst Hnonfinal. split.
  - intros ex w2 Hpos. simpl.
    rewrite (bind_Ret _ _ _ _ _ Hst).
    rewrite bool_decide_eq_false_2 by exact Hnonfinal.
    destruct (decide (QUEUED = QUEUED)) as [_|?]; [|congruence].
    apply bind_Raise, bind_Raise, call_raises, Hpos.
  - intros p w2 Hpos. simpl.
    rewrite (bind_Ret _ _ _ _ _ Hst).
    rewrite bool_decide_eq_false_2 by exact Hnonfinal.
    destruct (decide (QUEUED = QUEUED)) as [_|?]; [|congruence].
    erewrite bind_Ret; [reflexivity|].
    erewrite bind_Ret; [|apply call_answers, Hpos].
    unfold bind, emit, ret. simpl. rewrite <- app_assoc. reflexivity.
Qed.

Lemma poll_queued_reads_position_witness :
  _safe_get_job_status 2 queued_then_done_backend 0%nat "j"
    (start 0%nat empty_batch_heap)
  = (Ret QUEUED, mkState 1%nat empty_batch_heap [CallStatus 0%nat]) /\
  (QUEUED ∉ final_states) /\
  poll final_states 3 queued_then_done_backend 0%nat "j" [("wait"%string, 2)]
       (Some noting_callback) (start 0%nat empty_batch_heap)
  = (Ret DONE,
     mkState 5%nat empty_batch_heap
       [CallStatus 0%nat; CallQueuePosition 0%nat; Log Info (QueuedAt "j" 3);
        Callback "j" QUEUED 3 0%nat; Sleep 2;
        CallStatus 0%nat; Callback "j" DONE 0 0%nat]).
Proof.
  assert (QUEUED ∉ final_states) as Hnf.
  { unfold final_states. intros Hin.
    repeat (apply elem_of_cons in Hin as [Hin|Hin]; [discriminate|]).
    eapply not_elem_of_nil, Hin. }
  split; [reflexivity|]. split; [exact Hnf|].
  rewrite (proj2 (poll_queued_reads_position final_states
                    queued_then_done_backend 2%nat 0%nat "j"
                    [("wait"%string, 2)] (Some noting_callback)
                    (start 0%nat empty_batch_heap) _ eq_refl Hnf)
             3 2%nat eq_refl).
  reflexivity.
Defined.

(** A job that is QUEUED and whose queue position cannot be read: the
    exception leaves the polling loop, and [run_qobj]; the observer is never
    told a position 0. *)
Lemma poll_propagates_queue_position_failure :
  poll final_states 5 no_position_backend 0%nat "j" [("wait"%string, 2)]
       (Some noting_callback) (start 0%nat empty_batch_heap)
  = (Raise (JobError "no position"),
     mkState 2%nat empty_batch_heap [CallStatus 0%nat; CallQueuePosition 0%nat])
  /\
  fst (run_qobj final_states None 5 0%nat (Some no_position_backend)
         (Some [("wait"%string, 2)]) None None false (Some noting_callback)
         (start 0%nat three_batch_heap))
  = Raise (JobError "no position") /\
  trace (snd (run_qobj final_states None 5 0%nat (Some no_position_backend)
         (Some [("wait"%string, 2)]) None None false (Some noting_callback)
         (start 0%nat three_batch_heap)))
  = [CallRun three_batch [] []; CallJobId 0%nat; CallBackendStatus;
     Log Info (BackendStatusIs 0%nat); Log Info (JobsSubmitted 1);
     Log Info (AllJobIds ["id"%string]); Log Info (RunningQobj 0 "id");
     CallStatus 0%nat; CallQueuePosition 0%nat].
Proof. repeat split; vm_compute; reflexivity. Qed.

(** ** The recovery loop *)

Lemma bind_Ret_inv {S A B} (m : M S A) (k : A -> M S B) s b s' :
  bind m k s = (Ret b, s') ->
  exists a s1, m s = (Ret a, s1) /\ k a s1 = (Ret b, s').
Proof.
  unfold bind. destruct (m s) as [[a|ex|] s1]; intros H;
    [eauto | discriminate | discriminate].
Qed.

(** The polling loop only ever returns a final status. *)
Lemma poll_returns_final {W} (JOB_FINAL_STATES : list JobStatus)
  (backend : Backend W) (job : Job) (job_id : string) (qjob_config : dict Z)
  (job_callback : option (callback W)) (fuel : nat) :
  forall (s s' : State W) (job_status : JobStatus),
    poll JOB_FINAL_STATES fuel backend job job_id qjob_config job_callback s
      = (Ret job_status, s') ->
    job_status ∈ JOB_FINAL_STATES.
Proof.
  induction fuel as [|fuel IH]; intros s s' st H; [discriminate|].
  simpl in H.
  apply bind_Ret_inv in H as (st0 & s0 & _ & H).
  destruct (bool_decide (st0 ∈ JOB_FINAL_STATES)) eqn:Hfin.
  - apply bind_Ret_inv in H as (? & s1 & _ & H).
    unfold ret in H. inversion H; subst.
    apply bool_decide_eq_true in Hfin. exact Hfin.
  - apply bind_Ret_inv in H as (? & s1 & _ & H).
    apply bind_Ret_inv in H as (? & s2 & _ & H).
    apply bind_Ret_inv in H as (? & s3 & _ & H).
    apply bind_Ret_inv in H as (? & s4 & _ & H).
    eapply IH, H.
Qed.

Lemma report_failure_logs {W} (backend : Backend W) (job : Job)
  (job_id : string) (job_status : JobStatus) (w w' : W) (h : Heap)
  (tr evs : list event) :
  dead_job_warning backend job job_id job_status w = Some (w', evs) ->
  report_failure backend job job_id job_status (mkState w h tr)
  = (Ret tt, mkState w' h (tr ++ evs)).
Proof.
  unfold dead_job_warning, report_failure. intros H.
  destruct job_status; simpl; try (inversion H; subst; reflexivity).
  unfold bind, call, emit. cbn [world heap trace].
  destruct (error_message backend job w) as [[ex|msg] w0];
    [discriminate|].
  inversion H; subst. cbn [heap trace world]. rewrite <- app_assoc.
  reflexivity.
Qed.

Lemma report_failure_raises {W} (backend : Backend W) (job : Job)
  (job_id : string) (ex : exn) (w w' : W) (h : Heap) (tr : list event) :
  error_message backend job w = (inl ex, w') ->
  report_failure backend job job_id ERROR (mkState w h tr)
  = (Raise ex, mkState w' h (tr ++ [CallErrorMessage job])).
Proof.
  intros H. unfold report_failure. simpl. unfold bind, call.
  cbn [world heap trace]. rewrite H. reflexivity.
Qed.

(** C5, as the code has it: when polling of the job of chunk [idx] ends on
    a status other than DONE (CANCELLED, ERROR or any other final value),
    the loop reads the chunk back from the job handle, logs the failure,
    gives the chunk it has read to the submission guard, and goes on polling
    with the new job, which it has put with its id at the chunk's place in
    the two lists: when that job ends DONE the loop returns its result and
    the two lists so changed.  The dead job raises nothing by itself, but
    what is raised when the chunk is read back, when the error message of an
    ERROR job is read, or by the submission guard, leaves the loop. *)
Theorem recover_resubmits_dead_job {W} (JOB_FINAL_STATES : list JobStatus)
  (backend : Backend W) (fuel idx : nat) (jobs : list Job)
  (job_ids : list string) (job : Job) (job_id : string)
  (qjob_config : dict Z) (backend_options noise_config : dict OptionValue)
  (skip : bool) (job_callback : option (callback W))
  (s s1 : State W) (job_status : JobStatus) :
  jobs !! idx = Some job -> job_ids !! idx = Some job_id ->
  poll JOB_FINAL_STATES (S fuel) backend job job_id qjob_config job_callback
    (mkState (world s) (heap s) (trace s ++ [Log Info (RunningQobj idx job_id)]))
    = (Ret job_status, s1) ->
  job_status <> DONE ->
  let run :=
    recover JOB_FINAL_STATES (S (S fuel)) backend idx jobs job_ids job job_id
      qjob_config backend_options noise_config skip job_callback s in
  job_status ∈ JOB_FINAL_STATES /\
  (forall ex w2,
     job_qobj backend job (world s1) = (inl ex, w2) ->
     run = (Raise ex, mkState w2 (heap s1) (trace s1 ++ [CallQobj job]))) /\
  (forall qobj w2,
     job_qobj backend job (world s1) = (inr qobj, w2) ->
     (forall ex w3,
        job_status = ERROR ->
        error_message backend job w2 = (inl ex, w3) ->
        run = (Raise ex,
               mkState w3 (heap s1)
                 (trace s1 ++ [CallQobj job; CallErrorMessage job]))) /\
     (forall w3 evs,
        dead_job_warning backend job job_id job_status w2 = Some (w3, evs) ->
        let s3 := mkState w3 (heap s1) (trace s1 ++ CallQobj job :: evs) in
        (forall ex s4,
           _safe_submit_qobj (S fuel) qobj backend backend_options
             noise_config skip s3 = (Raise ex, s4) ->
           run = (Raise ex, s4)) /\
        (forall job' job_id' s4,
           _safe_submit_qobj (S fuel) qobj backend backend_options
             noise_config skip s3 = (Ret (job', job_id'), s4) ->
           run = recover JOB_FINAL_STATES (S fuel) backend idx
                   (<[idx := job']> jobs) (<[idx := job_id']> job_ids)
                   job' job_id' qjob_config backend_options noise_config
                   skip job_callback s4 /\
           (forall s5 result s6,
              poll JOB_FINAL_STATES fuel backend job' job_id' qjob_config
                job_callback
                (mkState (world s4) (heap s4)
                   (trace s4 ++ [Log Info (RunningQobj idx job_id')]))
                = (Ret DONE, s5) ->
              fetch fuel backend idx job' job_id' qjob_config s5
                = (Ret result, s6) ->
              run = (Ret (<[idx := job']> jobs, <[idx := job_id']> job_ids,
                          result), s6))))).
Proof.
  intros _ _ Hpoll Hdead run.
  assert (forall k : M (State W) (list Job * list string * loc),
            (qobj <- call (CallQobj job) (job_qobj backend job) ;;
             report_failure backend job job_id job_status ;;
             submitted <- _safe_submit_qobj (S fuel) qobj backend
                            backend_options noise_config skip ;;
             let (job', job_id') := submitted : Job * string in
             recover JOB_FINAL_STATES (S fuel) backend idx
               (<[idx := job']> jobs) (<[idx := job_id']> job_ids) job'
               job_id' qjob_config backend_options noise_config skip
               job_callback)%py s1 = k s1 -> run = k s1) as Hrun.
  { intros k <-. unfold run. cbn [recover]. unfold bind at 1.
    unfold emit at 1. rewrite (bind_Ret _ _ _ _ _ Hpoll).
    destruct (decide (job_status = DONE)) as [?|_]; [contradiction|].
    reflexivity. }
  split; [eapply poll_returns_final, Hpoll|]. split.
  - intros ex w2 Hqobj.
    apply (Hrun (fun _ => (Raise ex, _))).
    apply bind_Raise, call_raises, Hqobj.
  - intros qobj w2 Hqobj. split.
    + intros ex w3 -> Herr.
      apply (Hrun (fun _ => (Raise ex, _))).
      rewrite (bind_Ret _ _ _ _ _ (call_answers _ _ _ _ _ Hqobj)).
      apply bind_Raise.
      rewrite (report_failure_raises _ _ _ _ _ _ _ _ Herr).
      rewrite <- app_assoc. reflexivity.
    + intros w3 evs Hlog s3.
      assert (report_failure backend job job_id job_status
                (mkState w2 (heap s1) (trace s1 ++ [CallQobj job]))
              = (Ret tt, s3)) as Hreport.
      { rewrite (report_failure_logs _ _ _ _ _ _ _ _ _ Hlog).
        unfold s3. rewrite <- app_assoc. reflexivity. }
      split.
      * intros ex s4 Hsubmit.
        apply (Hrun (fun _ => (Raise ex, s4))).
        rewrite (bind_Ret _ _ _ _ _ (call_answers _ _ _ _ _ Hqobj)).
        rewrite (bind_Ret _ _ _ _ _ Hreport).
        apply bind_Raise, Hsubmit.
      * intros job' job_id' s4 Hsubmit.
        assert (run = recover JOB_FINAL_STATES (S fuel) backend idx
                        (<[idx := job']> jobs) (<[idx := job_id']> job_ids)
                        job' job_id' qjob_config backend_options
                        noise_config skip job_callback s4) as Hstep.
        { apply (Hrun (fun _ => recover JOB_FINAL_STATES (S fuel) backend idx
                        (<[idx := job']> jobs) (<[idx := job_id']> job_ids)
                        job' job_id' qjob_config backend_options
                        noise_config skip job_callback s4)).
          rewrite (bind_Ret _ _ _ _ _ (call_answers _ _ _ _ _ Hqobj)).
          rewrite (bind_Ret _ _ _ _ _ Hreport).
          rewrite (bind_Ret _ _ _ _ _ Hsubmit). reflexivity. }
        split; [exact Hstep|].
        intros s5 result s6 Hpoll' Hfetch. rewrite Hstep.
        cbn [recover]. unfold bind at 1. unfold emit at 1.
        rewrite (bind_Ret _ _ _ _ _ Hpoll').
        destruct (decide (DONE = DONE)) as [_|?]; [|congruence].
        rewrite (bind_Ret _ _ _ _ _ Hfetch). reflexivity.
Qed.

Lemma recover_resubmits_dead_job_witness :
  recover final_states 4 cancelled_then_done_backend 0 [0%nat] ["id"%string]
    0%nat "id" [("wait"%string, 2)] [] [] false None
    (start 0%nat empty_batch_heap)
  = (Ret ([2%nat], ["id-again"%string], 0%nat),
     mkState 6%nat (mkHeap [empty_batch] [mkResult true [1%nat]] 0)
       [Log Info (RunningQobj 0 "id"); CallStatus 0%nat; CallQobj 0%nat;
        Log Warning (IsCancelled "id"); CallRun three_batch [] [];
        CallJobId 2%nat; Log Info (RunningQobj 0 "id-again");
        CallStatus 2%nat; CallResult 2%nat [("wait"%string, 2)];
        Log Info (Completed 0 "id-again")]).
Proof.
  pose proof (recover_resubmits_dead_job final_states
                cancelled_then_done_backend 2 0 [0%nat] ["id"%string] 0%nat
                "id" [("wait"%string, 2)] [] [] false None
                (start 0%nat empty_batch_heap)
                (mkState 1%nat empty_batch_heap
                   [Log Info (RunningQobj 0 "id"); CallStatus 0%nat])
                CANCELLED ltac:(reflexivity) ltac:(reflexivity)
                ltac:(vm_compute; reflexivity) ltac:(discriminate)) as H.
  cbv zeta in H. destruct H as (_ & _ & H).
  destruct (H three_batch 2%nat ltac:(reflexivity)) as [_ H1].
  destruct (H1 2%nat [Log Warning (IsCancelled "id")] ltac:(reflexivity))
    as [_ H2].
  destruct (H2 2%nat "id-again"%string
              (mkState 4%nat empty_batch_heap
                 [Log Info (RunningQobj 0 "id"); CallStatus 0%nat;
                  CallQobj 0%nat; Log Warning (IsCancelled "id");
                  CallRun three_batch [] []; CallJobId 2%nat])
              ltac:(vm_compute; reflexivity)) as [_ H3].
  exact (H3 (mkState 5%nat empty_batch_heap
               [Log Info (RunningQobj 0 "id"); CallStatus 0%nat;
                CallQobj 0%nat; Log Warning (IsCancelled "id");
                CallRun three_batch [] []; CallJobId 2%nat;
                Log Info (RunningQobj 0 "id-again"); CallStatus 2%nat])
            0%nat _ ltac:(vm_compute; reflexivity)
            ltac:(vm_compute; reflexivity)).
Defined.

(** A run on a backend whose only job is CANCELLED and cannot give its chunk
    back: the JobError of [job.qobj()] leaves [run_qobj]. *)
Lemma run_qobj_surfaces_unreadable_job :
  run_qobj final_states None 5 0%nat (Some unreadable_job_backend)
    (Some [("wait"%string, 2)]) None None false None
    (start 0%nat three_batch_heap)
  = (Raise (JobError "gone"),
     mkState 5%nat three_batch_heap
       [CallRun three_batch [] []; CallJobId 0%nat; CallBackendStatus;
        Log Info (BackendStatusIs 0%nat); Log Info (JobsSubmitted 1);
        Log Info (AllJobIds ["id"%string]); Log Info (RunningQobj 0 "id");
        CallStatus 0%nat; CallQobj 0%nat]).
Proof. vm_compute. reflexivity. Qed.


(** ** What a run can emit *)

Section emits.
Context {W : Type} (P : event -> Prop).

Lemma emits_ret {A} (a : A) : emits (W := W) P (ret a).
Proof.
  intros s r s' H. inversion H; subst. exists [].
  rewrite app_nil_r. split; [reflexivity|constructor].
Qed.

Lemma emits_raise {A} (ex : exn) : emits (W := W) (A := A) P (raise ex).
Proof.
  intros s r s' H. inversion H; subst. exists [].
  rewrite app_nil_r. split; [reflexivity|constructor].
Qed.

Lemma emits_diverge {A} : emits (W := W) (A := A) P diverge.
Proof.
  intros s r s' H. inversion H; subst. exists [].
  rewrite app_nil_r. split; [reflexivity|constructor].
Qed.

Lemma emits_bind {A B} (m : M (State W) A) (k : A -> M (State W) B) :
  emits P m -> (forall a, emits P (k a)) -> emits P (bind m k).
Proof.
  intros Hm Hk s r s' H. unfold bind in H.
  destruct (m s) as [[a|ex|] s1] eqn:Hms.
  - destruct (Hm _ _ _ Hms) as (e1 & Ht1 & HP1).
    destruct (Hk a _ _ _ H) as (e2 & Ht2 & HP2).
    exists (e1 ++ e2). rewrite Ht2, Ht1, app_assoc.
    split; [reflexivity|apply Forall_app; auto].
  - inversion H; subst. eapply Hm, Hms.
  - inversion H; subst. eapply Hm, Hms.
Qed.

Lemma emits_call {A} (ev : event) (f : op W A) : P ev -> emits P (call ev f).
Proof.
  intros Hev s r s' H. unfold call in H.
  destruct (f (world s)) as [[ex|a] w']; inversion H; subst;
    exists [ev]; (split; [reflexivity|repeat constructor; exact Hev]).
Qed.

Lemma emits_emit (ev : event) : P ev -> emits (W := W) P (emit ev).
Proof.
  intros Hev s r s' H. inversion H; subst.
  exists [ev]. split; [reflexivity|repeat constructor; exact Hev].
Qed.

Lemma emits_on_heap {A} (m : M Heap A) : emits (W := W) P (on_heap m).
Proof.
  intros s r s' H. unfold on_heap in H.
  destruct (m (heap s)) as [r0 h']. inversion H; subst.
  exists []. rewrite app_nil_r. split; [reflexivity|constructor].
Qed.

Lemma emits_attempt {A} (m : M (State W) A) :
  emits P m -> emits P (attempt m).
Proof.
  intros Hm s r s' H. unfold attempt in H.
  destruct (m s) as [[a|ex|] s1] eqn:Hms; inversion H; subst;
    eapply Hm, Hms.
Qed.

Lemma emits_subscript {V} (d : dict V) (key : string) :
  emits (W := W) P (subscript d key).
Proof.
  unfold subscript. destruct (dict_get key d);
    [apply emits_ret|apply emits_raise].
Qed.

Lemma emits_for_each {A X} (xs : list X) (body : A -> X -> M (State W) A) :
  (forall acc x, emits P (body acc x)) ->
  forall acc, emits P (for_each xs body acc).
Proof.
  intros Hbody. induction xs as [|x xs IH]; intros acc; simpl.
  - apply emits_ret.
  - apply emits_bind; [apply Hbody|exact IH].
Qed.
End emits.

Ltac quiet_step :=
  unfold quiet;
  first
    [ apply emits_ret | apply emits_raise | apply emits_diverge
    | apply emits_on_heap | apply emits_subscript
    | apply emits_call; reflexivity | apply emits_emit; reflexivity
    | apply emits_attempt
    | apply emits_bind; [|intros ?] ].

Lemma quiet_run_on_backend {W} (backend : Backend W) qobj backend_options
  noise_config skip :
  quiet (run_on_backend backend qobj backend_options noise_config skip).
Proof.
  unfold run_on_backend.
  destruct skip; [|quiet_step].
  quiet_step; [quiet_step|].
  destruct (is_aer_provider backend).
  - quiet_step; [destruct backend_options; repeat quiet_step|].
    quiet_step; [destruct noise_config; repeat quiet_step|].
    quiet_step.
  - destruct (is_basicaer_provider backend); repeat quiet_step.
Qed.

Lemma quiet_safe_submit {W} (backend : Backend W) qobj backend_options
  noise_config skip (fuel : nat) :
  quiet (_safe_submit_qobj fuel qobj backend backend_options noise_config
           skip).
Proof.
  induction fuel as [|fuel IH]; simpl; [quiet_step|].
  quiet_step; [apply quiet_run_on_backend|].
  quiet_step; [repeat quiet_step|].
  destruct a0 as [ex|id]; [|quiet_step].
  quiet_step; [quiet_step|exact IH].
Qed.

Lemma quiet_submit_all {W} (backend : Backend W) fuel qobjs backend_options
  noise_config skip :
  quiet (submit_all fuel backend qobjs backend_options noise_config skip).
Proof.
  unfold submit_all, quiet. apply emits_for_each. intros [jobs job_ids] qob.
  quiet_step; [quiet_step|].
  quiet_step; [apply quiet_safe_submit|].
  destruct a0. quiet_step.
Qed.

Lemma quiet_fetch_all {W} (backend : Backend W) jobs qjob_config :
  quiet (fetch_all backend jobs qjob_config).
Proof.
  unfold fetch_all, quiet. apply emits_for_each. intros results job.
  repeat quiet_step.
Qed.

(** ** The simulator path *)

Lemma direct_fetch_all_asked {W} (backend : Backend W) qjob_config jobs :
  forall w rs asked w',
    direct_fetch backend jobs qjob_config w = (rs, None, asked, w') ->
    asked = jobs /\ length rs = length jobs.
Proof.
  induction jobs as [|job jobs IH]; intros w rs asked w' H; simpl in H.
  - inversion H; subst. split; reflexivity.
  - destruct (job_result backend job qjob_config w) as [[ex|r] w1];
      [discriminate|].
    destruct (direct_fetch backend jobs qjob_config w1)
      as [[[rs1 raised1] asked1] w2] eqn:Hrest.
    inversion H; subst.
    destruct (IH _ _ _ _ Hrest) as [-> Hlen]. simpl. rewrite Hlen.
    split; reflexivity.
Qed.

Lemma fetch_all_loop {W} (backend : Backend W) qjob_config jobs :
  forall (acc : list loc) (s : State W),
    for_each jobs
      (fun (results : list loc) job =>
         r <- call (CallResult job qjob_config)
                   (job_result backend job qjob_config) ;;
         result <- on_heap (alloc_result r) ;;
         ret (results ++ [result]))
      acc s
    = let '(rs, raised, asked, w') :=
        direct_fetch backend jobs qjob_config (world s) in
      (match raised with
       | Some ex => Raise ex
       | None => Ret (acc ++ seq (length (result_store (heap s))) (length rs))
       end,
       mkState w'
         (mkHeap (qobj_store (heap s)) (result_store (heap s) ++ rs)
                 (uuid_count (heap s)))
         (trace s ++ map (fun j => CallResult j qjob_config) asked)).
Proof.
  induction jobs as [|job jobs IH]; intros acc [w [qs rst u] tr].
  - simpl. rewrite !app_nil_r. reflexivity.
  - cbn [for_each direct_fetch world heap trace qobj_store result_store
         uuid_count].
    unfold bind at 1. unfold bind at 1. unfold call at 1. cbn [world].
    destruct (job_result backend job qjob_config w) as [[ex|r] w1].
    + cbn [heap trace map]. rewrite app_nil_r. reflexivity.
    + cbn [heap trace]. unfold bind at 1, on_heap at 1, alloc_result at 1.
      cbn [heap world trace qobj_store result_store uuid_count].
      unfold ret at 1. rewrite IH.
      cbn [world heap trace qobj_store result_store uuid_count].
      destruct (direct_fetch backend jobs qjob_config w1)
        as [[[rs raised] asked] w2].
      rewrite <- !app_assoc, length_app. cbn [length app map seq].
      replace (length rst + 1)%nat with (S (length rst)) by lia.
      reflexivity.
Qed.

(** C6: on a simulator-class backend a run emits no event of the recovery
    machinery (no status poll, no queue position, no sleep, no job
    retrieved or chunk read back); once the chunks are submitted it asks
    each job for its result once, in order, and stores each result as the
    fetch returned it, successful or not.  An exception of a fetch is the
    outcome of the run.  Otherwise the run returns None when there is no
    job, the one result itself when there is one job, and for more jobs a
    new object with the success flag of the first result and the records of
    all of them, in order. *)
Theorem simulator_fetches_each_job_once {W}
  (JOB_FINAL_STATES : list JobStatus) (MAX_CIRCUITS_PER_JOB : option Z)
  (backend : Backend W) (fuel : nat) (qobj : loc)
  (qjob_config : option (dict Z))
  (backend_options noise_config : option (dict OptionValue))
  (skip : bool) (job_callback : option (callback W)) (s : State W) :
  is_simulator_backend backend = true ->
  quiet (run_qobj JOB_FINAL_STATES MAX_CIRCUITS_PER_JOB fuel qobj
           (Some backend) qjob_config backend_options noise_config skip
           job_callback) /\
  (forall qobjs h1 jobs job_ids s1,
     _split_qobj_to_qobjs qobj
       (max_circuits_per_job MAX_CIRCUITS_PER_JOB backend) (heap s)
       = (Ret qobjs, h1) ->
     submit_all fuel backend qobjs (or_empty backend_options)
       (or_empty noise_config) skip (mkState (world s) h1 (trace s))
       = (Ret (jobs, job_ids), s1) ->
     let '(rs, raised, asked, w') :=
       direct_fetch backend jobs (or_empty qjob_config) (world s1) in
     let stored := result_store (heap s1) in
     exists out new,
       run_qobj JOB_FINAL_STATES MAX_CIRCUITS_PER_JOB fuel qobj
         (Some backend) qjob_config backend_options noise_config skip
         job_callback s
       = (out,
          mkState w'
            (mkHeap (qobj_store (heap s1)) (stored ++ rs ++ new)
                    (uuid_count (heap s1)))
            (trace s1
               ++ map (fun j => CallResult j (or_empty qjob_config)) asked)) /\
       match raised with
       | Some ex => out = Raise ex /\ new = []
       | None =>
           asked = jobs /\
           match rs with
           | [] => out = Ret None /\ new = []
           | [r] => out = Ret (Some (length stored)) /\ new = []
           | r0 :: _ =>
               out = Ret (Some (length stored + length rs)%nat) /\
               new = [mkResult (success r0) (concat (map results rs))]
           end
       end).
Proof.
  intros Hsim. split.
  - unfold run_qobj. rewrite Hsim. cbn [negb].
    quiet_step; [quiet_step|].
    quiet_step; [apply quiet_submit_all|].
    destruct a0 as [jobs job_ids].
    quiet_step; [apply quiet_fetch_all|].
    destruct a0; repeat quiet_step.
  - intros qobjs h1 jobs job_ids s1 Hsplit Hsubmit.
    destruct (direct_fetch backend jobs (or_empty qjob_config) (world s1))
      as [[[rs raised] asked] w'] eqn:Hfetch.
    intros stored.
    unfold run_qobj. rewrite Hsim. cbn [negb].
    unfold bind at 1. unfold on_heap at 1. rewrite Hsplit.
    rewrite (bind_Ret _ _ _ _ _ Hsubmit).
    unfold bind at 1. unfold fetch_all. rewrite fetch_all_loop, Hfetch.
    destruct raised as [ex|].
    + exists (Raise ex), []. rewrite app_nil_r. split; [reflexivity|].
      split; reflexivity.
    + destruct (direct_fetch_all_asked _ _ _ _ _ _ _ Hfetch) as [-> Hlen].
      destruct rs as [|r0 [|r1 rs]].
      * exists (Ret None), []. cbn [length seq app]. unfold ret.
        split; [reflexivity|]. split; [reflexivity|]. split; reflexivity.
      * exists (Ret (Some (length stored))), [].
        cbn [length seq app]. unfold bind, on_heap. cbn [heap world trace].
        unfold _combine_result_objects. cbn [length]. 
        destruct (decide (1%nat = 1%nat)) as [_|?]; [|congruence].
        cbn [lookup list_lookup]. unfold ret.
        split; [reflexivity|]. split; [reflexivity|]. split; reflexivity.
      * exists (Ret (Some (length stored + length (r0 :: r1 :: rs))%nat)),
          [mkResult (success r0) (concat (map results (r0 :: r1 :: rs)))].
        pose proof (fresh_objects_at (r0 :: r1 :: rs) stored) as Hat.
        subst stored. cbn [app]. unfold bind, on_heap.
        cbn [length seq heap world trace] in Hat |- *.
        rewrite (combine_many _ _ _ _ _ _ _ _ _ Hat).
        unfold ret. rewrite length_app, <- app_assoc. cbn [length app].
        split; [reflexivity|]. split; [reflexivity|]. split; reflexivity.
Qed.

Lemma simulator_fetches_each_job_once_witness :
  is_simulator_backend simulator_backend = true /\
  run_qobj final_states (Some 2) 3 0%nat (Some simulator_backend) None None
    None false None (start 0%nat three_batch_heap)
  = (Ret (Some 2%nat),
     mkState 6%nat
       (mkHeap (qobj_store (heap (snd simulator_submitted)))
          [mkResult true [4%nat]; mkResult false [5%nat];
           mkResult true [4; 5]%nat] 2)
       (trace (snd simulator_submitted)
          ++ [CallResult 0%nat []; CallResult 2%nat []])).
Proof.
  split; [reflexivity|].
  assert (_split_qobj_to_qobjs 0%nat
            (max_circuits_per_job (Some 2) simulator_backend)
            (heap (start 0%nat three_batch_heap))
          = (Ret [2; 3]%nat, snd simulator_chunks)) as Hsplit
    by (vm_compute; reflexivity).
  assert (submit_all 3 simulator_backend [2; 3]%nat (or_empty None)
            (or_empty None) false
            (mkState (world (start 0%nat three_batch_heap))
                     (snd simulator_chunks)
                     (trace (start 0%nat three_batch_heap)))
          = (Ret ([0; 2]%nat, ["sim"; "sim"]%string), snd simulator_submitted))
    as Hsubmit by (vm_compute; reflexivity).
  pose proof (proj2 (simulator_fetches_each_job_once final_states (Some 2)
                       simulator_backend 3 0%nat None None None false None
                       (start 0%nat three_batch_heap) eq_refl)
                [2; 3]%nat (snd simulator_chunks) [0; 2]%nat
                ["sim"; "sim"]%string (snd simulator_submitted)
                Hsplit Hsubmit) as H.
  change (direct_fetch simulator_backend [0; 2]%nat (or_empty None)
            (world (snd simulator_submitted)))
    with ([mkResult true [4%nat]; mkResult false [5%nat]],
          @None exn, [0; 2]%nat, 6%nat) in H.
  cbv beta iota zeta in H.
  destruct H as (out & new & Hrun & _ & -> & ->).
  exact Hrun.
Defined.

(** A simulator run in full: two chunks, two submissions, one fetch for
    each job, and the failed second result combined as it came. *)
Example simulator_run :
  let run := run_qobj final_states (Some 2) 3 0%nat (Some simulator_backend)
               None None None false None (start 0%nat three_batch_heap) in
  fst run = Ret (Some 2%nat) /\
  result_store (heap (snd run))
    = [mkResult true [4%nat]; mkResult false [5%nat];
       mkResult true [4; 5]%nat] /\
  filter (fun ev => is_fetch ev = true) (trace (snd run))
  = [CallResult 0%nat []; CallResult 2%nat []].
Proof. vm_compute. repeat split. Qed.

(** ** The empty batch *)

Lemma split_empty_batch qs rst u qobj q K :
  qs !! qobj = Some q -> is_QasmQobj q = true -> experiments q = [] ->
  1 <= K ->
  _split_qobj_to_qobjs qobj K (mkHeap qs rst u)
  = (Ret [],
     mkHeap (qs ++ [mkQobj true (qobj_id q) (config q) [] (header q)]) rst u).
Proof.
  intros Hq Hqasm Hexp HK.
  unfold _split_qobj_to_qobjs, bind.
  rewrite (read_qobj_eq _ _ _ _ _ Hq). cbv beta iota.
  destruct (decide (K = 0)) as [?|_]; [lia|].
  rewrite Hexp. cbn [length]. rewrite np_ceil_div_zero.
  destruct (decide (0 = 1)) as [?|_]; [lia|].
  rewrite Hqasm. reflexivity.
Qed.

(** C10, as the code has it: a QasmQobj batch without experiments and a
    chunk size K >= 1 give no chunk, no submission and no result object.
    On a simulator backend the run returns None and nothing is raised.  On
    any other backend the run first asks the backend for its status, to log
    it: it returns None when the backend answers, and the exception of that
    query leaves the run when it raises. *)
Theorem run_qobj_empty_batch_returns_none {W}
  (JOB_FINAL_STATES : list JobStatus) (MAX_CIRCUITS_PER_JOB : option Z)
  (backend : Backend W) (fuel : nat) (qobj : loc) (q : Qobj)
  (qjob_config : option (dict Z))
  (backend_options noise_config : option (dict OptionValue))
  (skip : bool) (job_callback : option (callback W)) (s : State W) :
  qobj_store (heap s) !! qobj = Some q ->
  is_QasmQobj q = true -> experiments q = [] ->
  1 <= max_circuits_per_job MAX_CIRCUITS_PER_JOB backend ->
  let run := run_qobj JOB_FINAL_STATES MAX_CIRCUITS_PER_JOB fuel qobj
               (Some backend) qjob_config backend_options noise_config skip
               job_callback s in
  exists h',
    _split_qobj_to_qobjs qobj
      (max_circuits_per_job MAX_CIRCUITS_PER_JOB backend) (heap s)
      = (Ret [], h') /\
    result_store h' = result_store (heap s) /\
    (is_simulator_backend backend = true ->
     run = (Ret None, mkState (world s) h' (trace s))) /\
    (is_simulator_backend backend = false ->
     (forall st w',
        backend_status backend (world s) = (inr st, w') ->
        run = (Ret None,
               mkState w' h'
                 (trace s ++ [CallBackendStatus;
                              Log Info (BackendStatusIs st);
                              Log Info (JobsSubmitted 0);
                              Log Info (AllJobIds [])]))) /\
     (forall ex w',
        backend_status backend (world s) = (inl ex, w') ->
        run = (Raise ex, mkState w' h' (trace s ++ [CallBackendStatus])))).
Proof.
  intros Hq Hqasm Hexp HK run. destruct s as [w [qs rst u] tr].
  cbn [heap qobj_store] in Hq.
  pose proof (split_empty_batch qs rst u qobj q _ Hq Hqasm Hexp HK) as Hsplit.
  eexists. split; [exact Hsplit|]. split; [reflexivity|].
  assert (forall sim, is_simulator_backend backend = sim ->
            run = (results <-
                     (if negb sim then
                        status <- call CallBackendStatus
                                       (backend_status backend) ;;
                        emit (Log Info (BackendStatusIs status)) ;;
                        emit (Log Info (JobsSubmitted 0)) ;;
                        emit (Log Info (AllJobIds [])) ;;
                        recovered <- recover_all JOB_FINAL_STATES fuel backend
                                       [] [] (or_empty qjob_config)
                                       (or_empty backend_options)
                                       (or_empty noise_config) skip
                                       job_callback ;;
                        ret (snd recovered)
                      else fetch_all backend [] (or_empty qjob_config)) ;;
                   match results with
                   | [] => ret None
                   | _ => result <- on_heap (_combine_result_objects results) ;;
                          ret (Some result)
                   end)
                  (mkState w
                     (mkHeap (qs ++ [mkQobj true (qobj_id q) (config q) []
                                            (header q)]) rst u) tr))
    as Hrun.
  { intros sim Hsim. unfold run, run_qobj. rewrite Hsim.
    unfold bind at 1. unfold on_heap at 1. cbn [heap world trace].
    rewrite Hsplit. reflexivity. }
  split.
  - intros Hsim. rewrite (Hrun true Hsim). reflexivity.
  - intros Hsim. split.
    + intros st w' Hst. rewrite (Hrun false Hsim). cbn [negb].
      cbn [world] in Hst.
      unfold bind at 1. unfold bind at 1. unfold call at 1. cbn [world].
      rewrite Hst.
      cbn. rewrite <- !app_assoc. reflexivity.
    + intros ex w' Hst. rewrite (Hrun false Hsim). cbn [negb].
      cbn [world] in Hst.
      unfold bind at 1. unfold bind at 1. unfold call at 1. cbn [world].
      rewrite Hst. reflexivity.
Qed.

Lemma run_qobj_empty_batch_returns_none_witness :
  qobj_store empty_batch_heap !! 0%nat = Some empty_batch /\
  1 <= max_circuits_per_job None simulator_backend /\
  fst (run_qobj final_states None 0 0%nat (Some simulator_backend) None None
         None false None (start 0%nat empty_batch_heap)) = Ret None.
Proof.
  split; [reflexivity|]. split; [vm_compute; discriminate|].
  destruct (run_qobj_empty_batch_returns_none final_states None
              simulator_backend 0 0%nat empty_batch None None None false None
              (start 0%nat empty_batch_heap) eq_refl eq_refl eq_refl
              ltac:(vm_compute; discriminate))
    as (h' & _ & _ & Hsim & _).
  rewrite (Hsim eq_refl). reflexivity.
Defined.

(** An empty batch on a backend that is no simulator and whose status
    cannot be asked: the run raises. *)
Lemma run_qobj_empty_batch_raises :
  is_QasmQobj empty_batch = true /\
  experiments empty_batch = [] /\
  max_circuits_per_job None status_failing_backend = 4 /\
  fst (_split_qobj_to_qobjs 0%nat 4 empty_batch_heap) = Ret [] /\
  fst (run_qobj final_states None 5 0%nat (Some status_failing_backend)
         (Some [("wait"%string, 2)]) None None false None
         (start 0%nat empty_batch_heap))
  = Raise (JobError "status unavailable") /\
  fst (run_qobj final_states None 5 0%nat (Some status_failing_backend)
         (Some [("wait"%string, 2)]) None None false None
         (start 0%nat empty_batch_heap))
  <> Ret None.
Proof. repeat split; try reflexivity. vm_compute. discriminate. Qed.

(** * Further properties *)

(** ** find_regs_by_name *)

Lemma find_regs_loop_Some (regs : list Register) (name : string)
  (r : Register) :
  find_regs_loop regs name = Some r <->
  exists i : nat,
    regs !! i = Some r /\ reg_name r = name /\
    forall (j : nat) r', (j < i)%nat -> regs !! j = Some r' ->
                         reg_name r' <> name.
Proof.
  induction regs as [|reg regs IH]; simpl.
  - split; [discriminate|]. intros (i & Hi & _). destruct i; discriminate.
  - destruct (decide (reg_name reg = name)) as [Heq|Hne].
    + split.
      * intros H. injection H as <-. exists 0%nat.
        split; [reflexivity|]. split; [exact Heq|]. intros j r' Hj. lia.
      * intros (i & Hi & Hname & Hfirst). destruct i as [|i].
        -- simpl in Hi. exact Hi.
        -- exfalso. apply (Hfirst 0%nat reg); [lia|reflexivity|exact Heq].
    + rewrite IH. split.
      * intros (i & Hi & Hname & Hfirst). exists (S i).
        split; [exact Hi|]. split; [exact Hname|].
        intros [|j] r' Hj Hr'.
        -- simpl in Hr'. injection Hr' as <-. exact Hne.
        -- apply (Hfirst j r'); [lia|exact Hr'].
      * intros (i & Hi & Hname & Hfirst). destruct i as [|i].
        -- simpl in Hi. injection Hi as ->. contradiction.
        -- exists i. split; [exact Hi|]. split; [exact Hname|].
           intros j r' Hj Hr'. apply (Hfirst (S j) r'); [lia|exact Hr'].
Qed.

(** X1: [find_regs_by_name] returns a register exactly when it is the first
    register with that name in the list the flag selects (the quantum
    registers for [qreg], the classical ones otherwise). *)
Theorem find_regs_by_name_first_match (circuit : QuantumCircuit)
  (name : string) (qreg : bool) (r : Register) :
  find_regs_by_name circuit name qreg = Some r <->
  exists i : nat,
    (if qreg then qregs circuit else cregs circuit) !! i = Some r /\
    reg_name r = name /\
    forall (j : nat) r', (j < i)%nat ->
      (if qreg then qregs circuit else cregs circuit) !! j = Some r' ->
      reg_name r' <> name.
Proof. unfold find_regs_by_name. apply find_regs_loop_Some. Qed.

(** X2: [find_regs_by_name] returns None exactly when no register of the
    selected list has that name, whatever the other list holds. *)
Theorem find_regs_by_name_none (circuit : QuantumCircuit) (name : string)
  (qreg : bool) :
  find_regs_by_name circuit name qreg = None <->
  Forall (fun r => reg_name r <> name)
         (if qreg then qregs circuit else cregs circuit).
Proof.
  unfold find_regs_by_name.
  induction (if qreg then qregs circuit else cregs circuit) as [|reg regs IH];
    simpl.
  - split; [constructor|reflexivity].
  - destruct (decide (reg_name reg = name)) as [Heq|Hne].
    + split; [discriminate|]. intros H. inversion H; subst. contradiction.
    + rewrite IH. split.
      * intros H. constructor; assumption.
      * intros H. inversion H; assumption.
Qed.

Example find_regs_by_name_sample :
  find_regs_by_name sample_circuit "anc" true = Some (mkRegister "anc" 1) /\
  find_regs_by_name sample_circuit "anc" false = Some (mkRegister "anc" 4) /\
  find_regs_by_name sample_circuit "q" false = None.
Proof. repeat split. Qed.

(** ** More on the chunker *)

(** What the chunker does when the chunk count is not 1, for a QasmQobj. *)
Lemma split_many st rs u qobj q K :
  st !! qobj = Some q -> is_QasmQobj q = true -> K <> 0 ->
  np_ceil_div (Z.of_nat (length (experiments q))) K <> 1 ->
  let k := Z.to_nat (np_ceil_div (Z.of_nat (length (experiments q))) K) in
  _split_qobj_to_qobjs qobj K (mkHeap st rs u)
  = (Ret (seq (S (length st)) k),
     mkHeap (st ++ template_of q :: new_chunks (template_of q) q K 0 u k)
            rs (u + k)%nat).
Proof.
  intros Hq Hqasm HK Hn k.
  unfold _split_qobj_to_qobjs, bind.
  rewrite (read_qobj_eq _ _ _ _ _ Hq). cbv beta iota.
  destruct (decide (K = 0)) as [?|_]; [contradiction|].
  destruct (decide (np_ceil_div (Z.of_nat (length (experiments q))) K = 1))
    as [?|_]; [contradiction|].
  rewrite Hqasm. fold (template_of q).
  unfold alloc_qobj at 1. cbn [qobj_store result_store uuid_count].
  unfold py_range.
  destruct (Z.le_gt_cases (np_ceil_div (Z.of_nat (length (experiments q))) K) 0)
    as [Hle|Hgt].
  - rewrite seqZ_nil by exact Hle.
    replace k with 0%nat by (unfold k; lia).
    cbn [for_each seq new_chunks]. unfold ret.
    rewrite Nat.add_0_r. reflexivity.
  - replace (np_ceil_div (Z.of_nat (length (experiments q))) K)
      with (Z.of_nat k) by (unfold k; lia).
    rewrite (split_loop_spec k _ _ _ qobj (length st) q (template_of q))
      by (first [apply lookup_app_l_Some, Hq
                | apply list_lookup_middle; reflexivity]).
    rewrite length_app, <- app_assoc. cbn [length app].
    replace (length st + 1)%nat with (S (length st)) by lia.
    reflexivity.
Qed.

Lemma new_chunks_lookup tmpl q K (k : nat) : forall a u (i : nat),
  (i < k)%nat ->
  new_chunks tmpl q K a u k !! i
  = Some (mkQobj (is_QasmQobj tmpl) (Uuid (u + i)) (config tmpl)
            (py_slice (experiments q) ((a + Z.of_nat i) * K)
                      ((a + Z.of_nat i + 1) * K))
            (header tmpl)).
Proof.
  induction k as [|k IH]; intros a u i Hi; [lia|].
  destruct i as [|i]; simpl.
  - rewrite Nat.add_0_r, Z.add_0_r. reflexivity.
  - rewrite IH by lia.
    replace (a + 1 + Z.of_nat i) with (a + Z.pos (Pos.of_succ_nat i)) by lia.
    replace (S u + i)%nat with (u + S i)%nat by lia. reflexivity.
Qed.

Lemma py_slice_nonneg {A} (l : list A) (a b : Z) :
  0 <= a <= b ->
  py_slice l a b = take (Z.to_nat (b - a)) (drop (Z.to_nat a) l).
Proof.
  intros Hab. unfold py_slice, clamp_index.
  destruct (Z.ltb_spec a 0) as [?|_]; [lia|].
  destruct (Z.ltb_spec b 0) as [?|_]; [lia|].
  destruct (Z.le_gt_cases a (Z.of_nat (length l))) as [Ha|Ha].
  - rewrite (Z.min_l a) by lia.
    destruct (Z.le_gt_cases b (Z.of_nat (length l))) as [Hb|Hb].
    + rewrite (Z.min_l b) by lia. reflexivity.
    + rewrite (Z.min_r b) by lia.
      rewrite !take_ge; [reflexivity| |]; rewrite length_drop; lia.
  - rewrite (Z.min_r a), (Z.min_r b) by lia.
    rewrite !drop_ge by lia. rewrite !take_nil. reflexivity.
Qed.

(** X3: a batch that is not a QasmQobj is handed back as it is when the
    chunk count is 1, that is when 1 <= M <= K and K is below M * 2^1075
    (so that the double quotient M / K is not zero), and is refused with an
    AquaError, the store untouched, in every other case. *)
Theorem split_qobj_other_kinds (h : Heap) (qobj : loc) (q : Qobj) (K : Z) :
  qobj_store h !! qobj = Some q -> is_QasmQobj q = false -> 1 <= K ->
  _split_qobj_to_qobjs qobj K h
  = (if decide (1 <= Z.of_nat (length (experiments q)) <= K /\
                K < Z.of_nat (length (experiments q)) * 2 ^ 1075)
     then Ret [qobj]
     else Raise (AquaError "Only support QasmQobj now." None), h).
Proof.
  intros Hq Hkind HK. destruct h as [st rs u]. cbn [qobj_store] in Hq.
  destruct (decide (1 <= Z.of_nat (length (experiments q)) <= K /\
                    K < Z.of_nat (length (experiments q)) * 2 ^ 1075))
    as [[Hin Hfl]|Hout].
  - exact (split_single st rs u qobj q K Hq Hin Hfl).
  - unfold _split_qobj_to_qobjs, bind.
    rewrite (read_qobj_eq _ _ _ _ _ Hq). cbv beta iota.
    destruct (decide (K = 0)) as [?|_]; [lia|].
    pose proof (ceil_div_bounds (Z.of_nat (length (experiments q))) K
                  ltac:(lia)) as Hc.
    destruct (decide (np_ceil_div (Z.of_nat (length (experiments q))) K = 1))
      as [H1|_].
    + exfalso. apply Hout. unfold np_ceil_div, underflows in H1.
      rewrite !Z.abs_eq in H1 by lia.
      destruct (Z.leb_spec (Z.of_nat (length (experiments q)) * 2 ^ 1075) K);
        [discriminate|].
      rewrite H1 in Hc. lia.
    + rewrite Hkind. reflexivity.
Qed.

Lemma split_qobj_other_kinds_witness :
  _split_qobj_to_qobjs 0%nat 4 pulse_batch_heap
  = (Raise (AquaError "Only support QasmQobj now." None), pulse_batch_heap).
Proof.
  apply (split_qobj_other_kinds pulse_batch_heap 0%nat pulse_batch 4);
    [reflexivity | reflexivity | lia].
Defined.

(** X4: with a chunk size below 1 no chunk is ever produced: a chunk size
    of 0 raises ZeroDivisionError, and a negative one makes the chunk count
    0 or less, so that a QasmQobj yields the empty list of chunks, whatever
    its experiments. *)
Theorem split_qobj_chunk_size_below_one (h : Heap) (qobj : loc) (q : Qobj)
  (K : Z) :
  qobj_store h !! qobj = Some q -> is_QasmQobj q = true -> K <= 0 ->
  exists h',
    _split_qobj_to_qobjs qobj K h
    = (if decide (K = 0) then Raise (ZeroDivisionError "division by zero")
       else Ret [], h') /\
    qobj_store h' !! qobj = Some q /\
    result_store h' = result_store h.
Proof.
  intros Hq Hqasm HK. destruct h as [st rs u]. cbn [qobj_store] in Hq.
  destruct (decide (K = 0)) as [->|Hnz].
  - exists (mkHeap st rs u). split; [|split; [exact Hq|reflexivity]].
    unfold _split_qobj_to_qobjs, bind.
    rewrite (read_qobj_eq _ _ _ _ _ Hq). reflexivity.
  - assert (np_ceil_div (Z.of_nat (length (experiments q))) K <= 0) as Hle.
    { unfold np_ceil_div.
      destruct (underflows (Z.of_nat (length (experiments q))) K); [lia|].
      unfold ceil_div.
      replace (- Z.of_nat (length (experiments q)) / K)
        with (Z.of_nat (length (experiments q)) / - K)
        by (rewrite <- Z.div_opp_opp by lia; f_equal; lia).
      pose proof (Z.div_pos (Z.of_nat (length (experiments q))) (- K)
                    ltac:(lia) ltac:(lia)). lia. }
    eexists. split.
    + rewrite (split_many _ _ _ _ _ _ Hq Hqasm Hnz) by lia.
      replace (Z.to_nat (np_ceil_div (Z.of_nat (length (experiments q))) K))
        with 0%nat by lia.
      reflexivity.
    + cbn [qobj_store result_store new_chunks].
      split; [apply lookup_app_l_Some, Hq|reflexivity].
Qed.

Lemma split_qobj_chunk_size_below_one_witness :
  exists h',
    _split_qobj_to_qobjs 0%nat (-4) ten_batch_heap = (Ret [], h') /\
    qobj_store h' !! 0%nat = Some ten_batch.
Proof.
  destruct (split_qobj_chunk_size_below_one ten_batch_heap 0%nat ten_batch
              (-4)) as (h' & H1 & H2 & _);
    [reflexivity | reflexivity | lia |].
  exists h'. split; [exact H1|exact H2].
Defined.

(** X5: when a QasmQobj batch does not fit in one chunk, every chunk is a
    new object beyond the objects the store held, QasmQobj like the batch,
    with the batch's config and header and a uuid of its own, drawn in
    order; the objects the store held, the batch among them, are left as
    they were. *)
Theorem split_qobj_chunks_are_fresh_copies (h : Heap) (qobj : loc) (q : Qobj)
  (K : Z) :
  qobj_store h !! qobj = Some q -> is_QasmQobj q = true -> 1 <= K ->
  K < Z.of_nat (length (experiments q)) ->
  exists (qobjs : list loc) (chunks : list Qobj) (h' : Heap),
    _split_qobj_to_qobjs qobj K h = (Ret qobjs, h') /\
    qobjs_at h' qobjs chunks /\
    NoDup qobjs /\
    Forall (fun l => (length (qobj_store h) < l)%nat) qobjs /\
    (forall l o, qobj_store h !! l = Some o -> qobj_store h' !! l = Some o) /\
    uuid_count h' = (uuid_count h + length chunks)%nat /\
    (forall (i : nat) c,
       chunks !! i = Some c ->
       is_QasmQobj c = true /\ qobj_id c = Uuid (uuid_count h + i) /\
       config c = config q /\ header c = header q).
Proof.
  intros Hq Hqasm HK HM. destruct h as [st rs u]. cbn [qobj_store] in Hq.
  pose proof (ceil_div_bounds (Z.of_nat (length (experiments q))) K
                ltac:(lia)) as Hc.
  set (k := Z.to_nat (ceil_div (Z.of_nat (length (experiments q))) K)).
  exists (seq (S (length st)) k), (new_chunks (template_of q) q K 0 u k).
  eexists. split.
  { pose proof (split_many st rs u qobj q K Hq Hqasm ltac:(lia)) as Hs.
    rewrite np_ceil_div_large in Hs by lia. apply Hs.
    intros H1. rewrite H1 in Hc. lia. }
  cbn [qobj_store uuid_count].
  split.
  { unfold qobjs_at. cbn [qobj_store].
    pose proof (fresh_objects_at (new_chunks (template_of q) q K 0 u k)
                  (st ++ [template_of q])) as HF.
    rewrite new_chunks_length, length_app, <- app_assoc in HF.
    cbn [length app] in HF.
    replace (length st + 1)%nat with (S (length st)) in HF by lia.
    exact HF. }
  split; [apply NoDup_seq|].
  split.
  { apply Forall_forall. intros l Hl. apply elem_of_seq in Hl. lia. }
  split; [intros l o Hl; apply lookup_app_l_Some, Hl|].
  split; [rewrite new_chunks_length; reflexivity|].
  intros i c Hi.
  assert (i < k)%nat as Hlt.
  { apply lookup_lt_Some in Hi. rewrite new_chunks_length in Hi. exact Hi. }
  rewrite (new_chunks_lookup _ _ _ _ _ _ _ Hlt) in Hi.
  injection Hi as <-. cbn. auto.
Qed.

Lemma split_qobj_chunks_are_fresh_copies_witness :
  exists qobjs chunks h',
    _split_qobj_to_qobjs 0%nat 4 ten_batch_heap = (Ret qobjs, h') /\
    qobjs_at h' qobjs chunks /\
    NoDup qobjs /\
    qobj_store h' !! 0%nat = Some ten_batch.
Proof.
  destruct (split_qobj_chunks_are_fresh_copies ten_batch_heap 0%nat ten_batch
              4) as (qobjs & chunks & h' & H1 & H2 & H3 & _ & H4 & _);
    [reflexivity | reflexivity | lia | simpl; lia |].
  exists qobjs, chunks, h'. repeat split; auto.
Defined.

(** X6: when a QasmQobj batch of M experiments does not fit in one chunk of
    K, the i-th chunk holds the experiments from position i*K on, K of them
    for every chunk but the last, and between 1 and K for the last. *)
Theorem split_qobj_chunks_are_full_but_last (h : Heap) (qobj : loc) (q : Qobj)
  (K : Z) :
  qobj_store h !! qobj = Some q -> is_QasmQobj q = true -> 1 <= K ->
  K < Z.of_nat (length (experiments q)) ->
  exists (qobjs : list loc) (chunks : list Qobj) (h' : Heap),
    _split_qobj_to_qobjs qobj K h = (Ret qobjs, h') /\
    qobjs_at h' qobjs chunks /\
    (forall (i : nat) c,
       chunks !! i = Some c ->
       experiments c
       = take (Z.to_nat K) (drop (i * Z.to_nat K) (experiments q)) /\
       ((S i < length chunks)%nat ->
        Z.of_nat (length (experiments c)) = K) /\
       (S i = length chunks ->
        1 <= Z.of_nat (length (experiments c)) <= K)).
Proof.
  intros Hq Hqasm HK HM. destruct h as [st rs u]. cbn [qobj_store] in Hq.
  pose proof (ceil_div_bounds (Z.of_nat (length (experiments q))) K
                ltac:(lia)) as Hc.
  set (M := Z.of_nat (length (experiments q))) in *.
  set (k := Z.to_nat (ceil_div M K)).
  assert (ceil_div M K = Z.of_nat k) as Hk by (unfold k; nia).
  exists (seq (S (length st)) k), (new_chunks (template_of q) q K 0 u k).
  eexists. split.
  { pose proof (split_many st rs u qobj q K Hq Hqasm ltac:(lia)) as Hs.
    rewrite np_ceil_div_large in Hs by lia. apply Hs.
    fold M. intros H1. rewrite H1 in Hc. lia. }
  split.
  { unfold qobjs_at. cbn [qobj_store].
    pose proof (fresh_objects_at (new_chunks (template_of q) q K 0 u k)
                  (st ++ [template_of q])) as HF.
    rewrite new_chunks_length, length_app, <- app_assoc in HF.
    cbn [length app] in HF.
    replace (length st + 1)%nat with (S (length st)) in HF by lia.
    exact HF. }
  rewrite new_chunks_length.
  intros i c Hi.
  assert (i < k)%nat as Hlt.
  { apply lookup_lt_Some in Hi. rewrite new_chunks_length in Hi. exact Hi. }
  rewrite (new_chunks_lookup _ _ _ _ _ _ _ Hlt) in Hi.
  injection Hi as <-. cbn [experiments].
  rewrite py_slice_nonneg by nia.
  replace (Z.to_nat ((0 + Z.of_nat i + 1) * K - (0 + Z.of_nat i) * K))
    with (Z.to_nat K) by lia.
  replace (Z.to_nat ((0 + Z.of_nat i) * K)) with (i * Z.to_nat K)%nat by nia.
  split; [reflexivity|].
  rewrite length_take, length_drop. fold M in Hc.
  split; intros Hi'; unfold M in *; nia.
Qed.

Lemma split_qobj_chunks_are_full_but_last_witness :
  exists qobjs chunks h',
    _split_qobj_to_qobjs 0%nat 4 ten_batch_heap = (Ret qobjs, h') /\
    qobjs_at h' qobjs chunks /\
    map experiments chunks
    = [[0; 1; 2; 3]; [4; 5; 6; 7]; [8; 9]]%nat.
Proof.
  destruct (split_qobj_chunks_are_full_but_last ten_batch_heap 0%nat
              ten_batch 4) as (qobjs & chunks & h' & H1 & H2 & H3);
    [reflexivity | reflexivity | lia | simpl; lia |].
  exists qobjs, chunks, h'. split; [exact H1|]. split; [exact H2|].
  vm_compute in H1. injection H1 as <- <-.
  unfold qobjs_at in H2. cbn [qobj_store] in H2.
  inversion H2 as [|? c0 ? t0 Hc0 H20]; subst.
  inversion H20 as [|? c1 ? t1 Hc1 H21]; subst.
  inversion H21 as [|? c2 ? t2 Hc2 H22]; subst.
  inversion H22; subst.
  vm_compute in Hc0, Hc1, Hc2.
  injection Hc0 as <-. injection Hc1 as <-. injection Hc2 as <-.
  reflexivity.
Defined.

(** ** More on the combiner *)

(** The object the combiner returns, and the store it leaves. *)
Lemma combine_exact qs st u (rs : list loc) (objs : list Result) r0 o0 :
  Forall2 (fun l r => st !! l = Some r) (r0 :: rs) (o0 :: objs) ->
  exists l st',
    _combine_result_objects (r0 :: rs) (mkHeap qs st u)
      = (Ret l, mkHeap qs st' u) /\
    st' !! l = Some (mkResult (success o0) (concat (map results (o0 :: objs)))) /\
    (forall l0 o, st !! l0 = Some o -> st' !! l0 = Some o) /\
    (rs = [] -> l = r0 /\ st' = st) /\
    (rs <> [] -> l = length st /\ length st' = S (length st)).
Proof.
  intros Hall. inversion Hall as [|? ? ? ? H0 Htail]; subst.
  destruct Htail as [|r1 o1 rs objs H1 Htail].
  - exists r0, st. split; [reflexivity|].
    split; [cbn; rewrite app_nil_r; destruct o0; exact H0|].
    split; [auto|]. split; [auto|congruence].
  - rewrite (combine_many qs st u r0 r1 rs o0 o1 objs Hall).
    eexists _, _. split; [reflexivity|].
    split; [apply list_lookup_middle; reflexivity|].
    split; [intros l0 o Hl0; apply lookup_app_l_Some, Hl0|].
    split; [discriminate|]. intros _.
    split; [reflexivity|]. rewrite length_app. simpl. lia.
Qed.

(** X7: the success flag of the combined result is the flag of the first
    result, whatever the flags of the others. *)
Theorem combine_keeps_first_success_flag (h : Heap) (r0 : loc)
  (rs : list loc) (o0 : Result) (objs : list Result) :
  results_at h (r0 :: rs) (o0 :: objs) ->
  exists (l : loc) (h' : Heap) (r : Result),
    _combine_result_objects (r0 :: rs) h = (Ret l, h') /\
    result_store h' !! l = Some r /\
    success r = success o0.
Proof.
  intros Hall. destruct h as [qs st u].
  destruct (combine_exact qs st u rs objs r0 o0 Hall)
    as (l & st' & Hc & Hl & _).
  eexists l, _, _. split; [exact Hc|]. split; [exact Hl|reflexivity].
Qed.

Lemma combine_keeps_first_success_flag_witness :
  exists l h' r,
    _combine_result_objects [1; 0]%nat
      (mkHeap [] [mkResult false [7%nat]; mkResult true [8%nat]] 0)
    = (Ret l, h') /\
    result_store h' !! l = Some r /\
    success r = true.
Proof.
  apply (combine_keeps_first_success_flag
           (mkHeap [] [mkResult false [7%nat]; mkResult true [8%nat]] 0)
           1%nat [0%nat] (mkResult true [8%nat]) [mkResult false [7%nat]]).
  repeat constructor.
Defined.

(** X8: on two results or more the combiner returns an object that did not
    exist before and is none of its inputs; it allocates that one object and
    touches neither the qobj store nor the uuid supply. *)
Theorem combine_many_allocates_one_object (h : Heap) (rs : list loc)
  (objs : list Result) :
  results_at h rs objs -> (2 <= length rs)%nat ->
  exists (l : loc) (h' : Heap),
    _combine_result_objects rs h = (Ret l, h') /\
    (l ∉ rs) /\
    result_store h !! l = None /\
    length (result_store h') = S (length (result_store h)) /\
    qobj_store h' = qobj_store h /\
    uuid_count h' = uuid_count h.
Proof.
  intros Hall Hlen. destruct h as [qs st u]. unfold results_at in Hall.
  cbn [result_store] in Hall.
  destruct Hall as [|r0 o0 rs objs H0 Htail]; [simpl in Hlen; lia|].
  assert (rs <> []) as Hne by (destruct rs; [simpl in Hlen; lia|discriminate]).
  assert (Forall2 (fun l r => st !! l = Some r) (r0 :: rs) (o0 :: objs))
    as Hall by (constructor; assumption).
  destruct (combine_exact qs st u rs objs r0 o0 Hall)
    as (l & st' & Hc & _ & _ & _ & Hmany).
  destruct (Hmany Hne) as [-> Hlen'].
  eexists _, _. split; [exact Hc|].
  cbn [result_store qobj_store uuid_count].
  split.
  { intros Hin. apply list_elem_of_lookup in Hin as [i Hi].
    destruct (Forall2_lookup_l _ _ _ _ _ Hall Hi) as (o & _ & Ho).
    apply lookup_lt_Some in Ho. lia. }
  split; [apply lookup_ge_None; lia|].
  split; [exact Hlen'|]. split; reflexivity.
Qed.

Lemma combine_many_allocates_one_object_witness :
  exists l h',
    _combine_result_objects [0; 1]%nat two_results_heap = (Ret l, h') /\
    (l ∉ [0; 1]%nat).
Proof.
  destruct (combine_many_allocates_one_object two_results_heap [0; 1]%nat
              two_results) as (l & h' & H1 & H2 & _);
    [repeat constructor | simpl; lia |].
  exists l, h'. split; assumption.
Defined.

(** X9: combining the same results a second time, in the store the first
    combination left, gives an object with the same success flag and the
    same records as the first. *)
Theorem combine_twice_gives_equal_results (h h1 : Heap) (rs : list loc)
  (objs : list Result) (l1 : loc) :
  results_at h rs objs ->
  _combine_result_objects rs h = (Ret l1, h1) ->
  exists (l2 : loc) (h2 : Heap) (r : Result),
    _combine_result_objects rs h1 = (Ret l2, h2) /\
    result_store h2 !! l1 = Some r /\
    result_store h2 !! l2 = Some r.
Proof.
  intros Hall Hfirst. destruct h as [qs st u]. unfold results_at in Hall.
  cbn [result_store] in Hall.
  destruct Hall as [|r0 o0 rs objs H0 Htail]; [discriminate|].
  assert (Forall2 (fun l r => st !! l = Some r) (r0 :: rs) (o0 :: objs))
    as Hall by (constructor; assumption).
  destruct (combine_exact qs st u rs objs r0 o0 Hall)
    as (l & st1 & Hc & Hl & Hext1 & _).
  rewrite Hc in Hfirst. injection Hfirst as <- <-.
  assert (Forall2 (fun l r => st1 !! l = Some r) (r0 :: rs) (o0 :: objs))
    as Hall1.
  { eapply Forall2_impl; [exact Hall|]. intros l0 o. apply Hext1. }
  destruct (combine_exact qs st1 u rs objs r0 o0 Hall1)
    as (l2 & st2 & Hc2 & Hl2 & Hext2 & _).
  eexists l2, _, _. split; [exact Hc2|]. cbn [result_store].
  split; [apply Hext2, Hl|exact Hl2].
Qed.

Lemma combine_twice_gives_equal_results_witness :
  exists l2 h2 r,
    _combine_result_objects [0; 1]%nat
      (snd (_combine_result_objects [0; 1]%nat two_results_heap))
    = (Ret l2, h2) /\
    result_store h2 !! 2%nat = Some r /\
    result_store h2 !! l2 = Some r.
Proof.
  apply (combine_twice_gives_equal_results two_results_heap _ [0; 1]%nat
           two_results 2%nat); [repeat constructor | reflexivity].
Defined.

(** ** More on the submission guard and the status prober *)

(** X10: the submission guard has no retry limit: however many times in a
    row the job id cannot be read, after that many rounds the guard has
    neither returned nor raised; it is about to run the chunk again. *)
Theorem safe_submit_never_gives_up {W} (backend : Backend W) (qobj : Qobj)
  (backend_options noise_config : dict OptionValue) (skip : bool)
  (rounds : list (Job * exn)) (s s1 : State W) :
  job_id_failures backend qobj backend_options noise_config skip rounds s s1 ->
  _safe_submit_qobj (length rounds) qobj backend backend_options noise_config
    skip s
  = (Diverge, s1).
Proof.
  revert s. induction rounds as [|[job0 ex0] rounds IH]; intros s Hfail.
  - simpl in Hfail. subst. reflexivity.
  - destruct Hfail as (sa & wb & Hrun0 & Hid0 & Hrest).
    cbn [length _safe_submit_qobj].
    rewrite (bind_Ret _ _ _ _ _ Hrun0). unfold bind at 1.
    unfold attempt. rewrite (call_raises _ _ _ _ _ Hid0).
    unfold bind, emit. cbn [world heap trace].
    rewrite <- (IH _ Hrest). unfold job_id_warning.
    rewrite <- !app_assoc. reflexivity.
Qed.

Lemma safe_submit_never_gives_up_witness :
  fst (_safe_submit_qobj 2 three_batch no_id_backend [] [] false
         (start 0%nat empty_batch_heap)) = Diverge.
Proof.
  assert (job_id_failures no_id_backend three_batch [] [] false
            [(0%nat, JobError "no id"); (2%nat, JobError "no id")]
            (start 0%nat empty_batch_heap)
            (mkState 4%nat empty_batch_heap
               [CallRun three_batch [] []; CallJobId 0%nat;
                job_id_warning (JobError "no id");
                CallRun three_batch [] []; CallJobId 2%nat;
                job_id_warning (JobError "no id")])) as H.
  { simpl. eexists _, _. split; [reflexivity|]. split; [reflexivity|].
    eexists _, _. split; [reflexivity|]. split; [reflexivity|].
    reflexivity. }
  exact (f_equal fst (safe_submit_never_gives_up no_id_backend three_batch
                        [] [] false _ _ _ H)).
Defined.

(** X11: the status prober has no retry limit either: however many times in
    a row the status query raises JobError, after that many warnings and
    sleeps the prober has neither returned nor raised. *)
Theorem safe_get_job_status_never_gives_up {W} (backend : Backend W)
  (job : Job) (job_id : string) (msgs : list string) (s : State W) (w1 : W) :
  status_job_errors backend job msgs (world s) w1 ->
  _safe_get_job_status (length msgs) backend job job_id s
  = (Diverge,
     mkState w1 (heap s) (trace s ++ status_retry_trace job job_id msgs)).
Proof.
  revert s. induction msgs as [|m msgs IH]; intros s Herr.
  - simpl in Herr. subst. destruct s. simpl. rewrite app_nil_r. reflexivity.
  - destruct Herr as (wm & Hm & Hrest).
    cbn [length _safe_get_job_status]. unfold bind at 1. unfold attempt.
    rewrite (call_raises _ _ _ _ _ Hm). cbn [is_JobError].
    unfold bind, sleep. cbn [Z.ltb Z.compare]. unfold emit.
    cbn [world heap trace].
    rewrite (IH (mkState wm (heap s) _) Hrest).
    cbn [heap trace status_retry_trace flat_map].
    rewrite <- !app_assoc. reflexivity.
Qed.

Lemma safe_get_job_status_never_gives_up_witness :
  fst (_safe_get_job_status 3 flaky_status_backend 0%nat "j"
         (start 0%nat empty_batch_heap)) = Diverge.
Proof.
  assert (status_job_errors flaky_status_backend 0%nat
            ["busy"; "busy"; "busy"] 0%nat 3%nat) as H.
  { simpl. eexists; split; [reflexivity|].
    eexists; split; [reflexivity|].
    eexists; split; [reflexivity|reflexivity]. }
  exact (f_equal fst (safe_get_job_status_never_gives_up flaky_status_backend
                        0%nat "j" ["busy"; "busy"; "busy"]
                        (start 0%nat empty_batch_heap) 3%nat H)).
Defined.

Ltac emits_step :=
  first
    [ apply emits_ret | apply emits_raise | apply emits_diverge
    | apply emits_on_heap | apply emits_subscript
    | apply emits_call; reflexivity | apply emits_emit; reflexivity
    | apply emits_attempt
    | apply emits_bind; [|intros ?] ].

(** X12: whatever happens, the submission guard only runs the chunk, reads
    the job id and logs: between two attempts it never sleeps, and it never
    asks for a status, a queue position or a result. *)
Theorem safe_submit_only_submits {W} (backend : Backend W) (qobj : Qobj)
  (backend_options noise_config : dict OptionValue) (skip : bool)
  (fuel : nat) :
  emits (fun ev => submission_event ev = true)
    (_safe_submit_qobj fuel qobj backend backend_options noise_config skip).
Proof.
  induction fuel as [|fuel IH]; simpl; [emits_step|].
  emits_step.
  { unfold run_on_backend. destruct skip; [|emits_step].
    emits_step; [emits_step|].
    destruct (is_aer_provider backend).
    - emits_step; [destruct backend_options; repeat emits_step|].
      emits_step; [destruct noise_config; repeat emits_step|].
      emits_step.
    - destruct (is_basicaer_provider backend); repeat emits_step. }
  emits_step; [repeat emits_step|].
  destruct a0 as [ex|id]; [|emits_step].
  emits_step; [emits_step|exact IH].
Qed.

(** X13: whatever happens, the status prober of a job only asks that job
    for its status, logs the warning of a failed query and sleeps 5. *)
Theorem safe_get_job_status_only_probes {W} (backend : Backend W)
  (job : Job) (job_id : string) (fuel : nat) :
  emits (prober_event job job_id)
    (_safe_get_job_status fuel backend job job_id).
Proof.
  induction fuel as [|fuel IH]; simpl; [apply emits_diverge|].
  apply emits_bind.
  { apply emits_attempt, emits_call. left. reflexivity. }
  intros [ex|st]; [|apply emits_ret].
  destruct (is_JobError ex); [|apply emits_raise].
  apply emits_bind.
  { apply emits_emit. right. right. exists ex. reflexivity. }
  intros _. apply emits_bind; [|intros _; exact IH].
  unfold sleep. simpl. apply emits_emit. right. left. reflexivity.
Qed.

(** ** More on polling *)

Lemma call_trace {W A} (ev : event) (f : op W A) (s s' : State W) r :
  call ev f s = (r, s') -> trace s' = trace s ++ [ev] /\ heap s' = heap s.
Proof.
  unfold call. destruct (f (world s)) as [[ex|a] w']; intros H;
    inversion H; subst; split; reflexivity.
Qed.

(** X14: the polling loop only returns a final status, and when an observer
    is given, the last thing the loop did before returning was to call it
    with that status and the queue position 0. *)
Theorem poll_ends_with_final_callback {W} (JOB_FINAL_STATES : list JobStatus)
  (backend : Backend W) (job : Job) (job_id : string) (qjob_config : dict Z)
  (f : callback W) (fuel : nat) (s s' : State W) (job_status : JobStatus) :
  poll JOB_FINAL_STATES fuel backend job job_id qjob_config (Some f) s
    = (Ret job_status, s') ->
  job_status ∈ JOB_FINAL_STATES /\
  last (trace s') = Some (Callback job_id job_status 0 job).
Proof.
  revert s. induction fuel as [|fuel IH]; intros s H; [discriminate|].
  simpl in H.
  apply bind_Ret_inv in H as (st0 & s0 & _ & H).
  destruct (bool_decide (st0 ∈ JOB_FINAL_STATES)) eqn:Hfin.
  - apply bind_Ret_inv in H as (? & s1 & Hcb & H).
    unfold ret in H. inversion H; subst.
    apply bool_decide_eq_true in Hfin. split; [exact Hfin|].
    apply call_trace in Hcb as [-> _]. apply last_snoc.
  - apply bind_Ret_inv in H as (? & s1 & _ & H).
    apply bind_Ret_inv in H as (? & s2 & _ & H).
    apply bind_Ret_inv in H as (? & s3 & _ & H).
    apply bind_Ret_inv in H as (? & s4 & _ & H).
    eapply IH, H.
Qed.

Lemma poll_ends_with_final_callback_witness :
  DONE ∈ final_states /\
  last (trace (snd (poll final_states 3 queued_then_done_backend 0%nat "j"
                      [("wait"%string, 2)] (Some noting_callback)
                      (start 0%nat empty_batch_heap))))
  = Some (Callback "j" DONE 0 0%nat).
Proof.
  apply (poll_ends_with_final_callback final_states queued_then_done_backend
           0%nat "j" [("wait"%string, 2)] noting_callback 3
           (start 0%nat empty_batch_heap)).
  reflexivity.
Defined.

(** One turn of the polling loop on a status that is neither final nor
    QUEUED. *)
Lemma poll_other_status_step {W} (JOB_FINAL_STATES : list JobStatus)
  (backend : Backend W) (fuel : nat) (job : Job) (job_id : string)
  (qjob_config : dict Z) (job_callback : option (callback W))
  (s s1 : State W) (job_status : JobStatus) :
  _safe_get_job_status fuel backend job job_id s = (Ret job_status, s1) ->
  job_status ∉ JOB_FINAL_STATES -> job_status <> QUEUED ->
  poll JOB_FINAL_STATES (S fuel) backend job job_id qjob_config job_callback s
  = (do_callback job_callback job_id job_status 0 job ;;
     wait <- subscript qjob_config "wait" ;;
     sleep wait ;;
     poll JOB_FINAL_STATES fuel backend job job_id qjob_config job_callback)
      (mkState (world s1) (heap s1)
         (trace s1 ++ [Log Info (StatusIs job_id job_status)])).
Proof.
  intros Hst Hnonfinal Hnq. simpl.
  rewrite (bind_Ret _ _ _ _ _ Hst).
  rewrite bool_decide_eq_false_2 by exact Hnonfinal.
  destruct (decide (job_status = QUEUED)) as [?|_]; [contradiction|].
  reflexivity.
Qed.

(** X15: on a poll that observes a status that is neither final nor QUEUED,
    the queue position is not asked: the status is logged, the observer is
    given the position 0, and the loop waits and polls again. *)
Theorem poll_other_status_reports_zero {W} (JOB_FINAL_STATES : list JobStatus)
  (backend : Backend W) (fuel : nat) (job : Job) (job_id : string)
  (qjob_config : dict Z) (job_callback : option (callback W))
  (s s1 : State W) (job_status : JobStatus) :
  _safe_get_job_status fuel backend job job_id s = (Ret job_status, s1) ->
  job_status ∉ JOB_FINAL_STATES -> job_status <> QUEUED ->
  poll JOB_FINAL_STATES (S fuel) backend job job_id qjob_config job_callback s
  = (do_callback job_callback job_id job_status 0 job ;;
     wait <- subscript qjob_config "wait" ;;
     sleep wait ;;
     poll JOB_FINAL_STATES fuel backend job job_id qjob_config job_callback)
      (mkState (world s1) (heap s1)
         (trace s1 ++ [Log Info (StatusIs job_id job_status)])).
Proof.
  intros Hst Hnonfinal Hnq.
  exact (poll_other_status_step JOB_FINAL_STATES backend fuel job job_id
           qjob_config job_callback s s1 job_status Hst Hnonfinal Hnq).
Qed.

Lemma poll_other_status_reports_zero_witness :
  fst (poll final_states 2 running_backend 0%nat "j" [("wait"%string, 2)]
         (Some noting_callback) (start 0%nat empty_batch_heap)) = Diverge /\
  trace (snd (poll final_states 2 running_backend 0%nat "j"
                [("wait"%string, 2)] (Some noting_callback)
                (start 0%nat empty_batch_heap)))
  = [CallStatus 0%nat; Log Info (StatusIs "j" RUNNING);
     Callback "j" RUNNING 0 0%nat; Sleep 2].
Proof.
  assert (RUNNING ∉ final_states) as Hnf.
  { unfold final_states. intros Hin.
    repeat (apply elem_of_cons in Hin as [Hin|Hin]; [discriminate|]).
    eapply not_elem_of_nil, Hin. }
  rewrite (poll_other_status_reports_zero final_states running_backend 1
             0%nat "j" [("wait"%string, 2)] (Some noting_callback)
             (start 0%nat empty_batch_heap) _ RUNNING eq_refl Hnf
             ltac:(discriminate)).
  split; reflexivity.
Defined.

(** X16: when [qjob_config] has no entry "wait", a job that is not final at
    the first poll makes the polling loop raise: never does the loop wait,
    poll a second time or return; and when nothing else fails, what it
    raises is KeyError for "wait", after the status was logged and the
    observer called. *)
Theorem poll_without_wait_raises {W} (JOB_FINAL_STATES : list JobStatus)
  (backend : Backend W) (fuel : nat) (job : Job) (job_id : string)
  (qjob_config : dict Z) (job_callback : option (callback W))
  (s s1 : State W) (job_status : JobStatus) :
  _safe_get_job_status fuel backend job job_id s = (Ret job_status, s1) ->
  job_status ∉ JOB_FINAL_STATES ->
  dict_get "wait" qjob_config = None ->
  (exists ex s',
     poll JOB_FINAL_STATES (S fuel) backend job job_id qjob_config
          job_callback s = (Raise ex, s')) /\
  (job_status <> QUEUED ->
   forall s2,
     do_callback job_callback job_id job_status 0 job
       (mkState (world s1) (heap s1)
          (trace s1 ++ [Log Info (StatusIs job_id job_status)]))
       = (Ret tt, s2) ->
     poll JOB_FINAL_STATES (S fuel) backend job job_id qjob_config
          job_callback s = (Raise (KeyError "wait"), s2)).
Proof.
  intros Hst Hnonfinal Hwait.
  assert (forall (s0 : State W),
            (wait <- subscript qjob_config "wait" ;;
             sleep wait ;;
             poll JOB_FINAL_STATES fuel backend job job_id qjob_config
                  job_callback) s0
            = (Raise (KeyError "wait"), s0)) as Hkey.
  { intros s0. unfold bind, subscript. rewrite Hwait. reflexivity. }
  assert (forall p (s0 : State W),
            exists ex s',
              (do_callback job_callback job_id job_status p job ;;
               wait <- subscript qjob_config "wait" ;;
               sleep wait ;;
               poll JOB_FINAL_STATES fuel backend job job_id qjob_config
                    job_callback) s0
              = (Raise ex, s')) as Hcb.
  { intros p s0. unfold bind at 1.
    destruct job_callback as [f|]; cbn [do_callback].
    - unfold call. destruct (f job_id job_status p job (world s0))
        as [[ex|[]] w']; [eauto|]. rewrite Hkey. eauto.
    - unfold ret. rewrite Hkey. eauto. }
  split.
  - simpl. rewrite (bind_Ret _ _ _ _ _ Hst).
    rewrite bool_decide_eq_false_2 by exact Hnonfinal.
    destruct (decide (job_status = QUEUED)) as [->|Hnq].
    + unfold bind at 1. unfold bind at 1. unfold call at 1.
      destruct (queue_position backend job (world s1)) as [[ex|p] w2];
        [eauto|].
      unfold bind at 1. unfold emit at 1. unfold ret at 1. apply Hcb.
    + unfold bind at 1. unfold bind at 1. unfold emit at 1. unfold ret at 1.
      apply Hcb.
  - intros Hnq s2 Hobs.
    rewrite (poll_other_status_step JOB_FINAL_STATES backend fuel job
               job_id qjob_config job_callback s s1 job_status Hst Hnonfinal
               Hnq).
    rewrite (bind_Ret _ _ _ _ _ Hobs). apply Hkey.
Qed.

Lemma poll_without_wait_raises_witness :
  poll final_states 5 running_backend 0%nat "j" [] (Some noting_callback)
       (start 0%nat empty_batch_heap)
  = (Raise (KeyError "wait"),
     mkState 2%nat empty_batch_heap
       [CallStatus 0%nat; Log Info (StatusIs "j" RUNNING);
        Callback "j" RUNNING 0 0%nat]).
Proof.
  assert (RUNNING ∉ final_states) as Hnf.
  { unfold final_states. intros Hin.
    repeat (apply elem_of_cons in Hin as [Hin|Hin]; [discriminate|]).
    eapply not_elem_of_nil, Hin. }
  apply (proj2 (poll_without_wait_raises final_states running_backend 4
                  0%nat "j" [] (Some noting_callback)
                  (start 0%nat empty_batch_heap) _ RUNNING eq_refl Hnf
                  eq_refl) ltac:(discriminate)).
  reflexivity.
Defined.

(** ** The fetch loop *)

(** X17: when the result of a DONE job reports failure, however many times
    in a row, the fetch loop logs it, retrieves the job again from the
    backend by its id and asks the retrieved job; it returns the first
    result that reports success, and an exception of the result fetch
    leaves the loop. *)
Theorem fetch_retries_failed_results {W} (backend : Backend W) (idx : nat)
  (job_id : string) (qjob_config : dict Z) (rounds : list (Result * Job))
  (job job' : Job) (s s1 : State W) (fuel : nat) :
  failed_fetches backend job_id qjob_config rounds job s job' s1 ->
  (length rounds < fuel)%nat ->
  (forall r w2,
     job_result backend job' qjob_config (world s1) = (inr r, w2) ->
     success r = true ->
     fetch fuel backend idx job job_id qjob_config s
     = (Ret (length (result_store (heap s1))),
        mkState w2 (with_result (heap s1) r)
          (trace s1 ++ [CallResult job' qjob_config;
                        Log Info (Completed idx job_id)]))) /\
  (forall ex w2,
     job_result backend job' qjob_config (world s1) = (inl ex, w2) ->
     fetch fuel backend idx job job_id qjob_config s
     = (Raise ex,
        mkState w2 (heap s1) (trace s1 ++ [CallResult job' qjob_config]))).
Proof.
  revert job s fuel.
  induction rounds as [|[r0 next] rounds IH]; intros job s fuel Hfail Hfuel.
  - destruct Hfail as [-> ->].
    destruct fuel as [|fuel]; [simpl in Hfuel; lia|].
    split.
    + intros r w2 Hres Hok. cbn [fetch].
      rewrite (bind_Ret _ _ _ _ _ (call_answers _ _ _ _ _ Hres)).
      unfold bind, on_heap, alloc_result, emit, ret.
      cbn [heap world trace]. rewrite Hok. cbn [heap world trace].
      unfold with_result. rewrite <- app_assoc. reflexivity.
    + intros ex w2 Hres. cbn [fetch].
      apply bind_Raise, call_raises, Hres.
  - destruct Hfail as (w1 & w2 & Hres0 & Hbad & Hget & Hrest).
    destruct fuel as [|fuel]; [simpl in Hfuel; lia|].
    simpl in Hfuel.
    assert (fetch (S fuel) backend idx job job_id qjob_config s
            = fetch fuel backend idx next job_id qjob_config
                (mkState w2 (with_result (heap s) r0)
                   (trace s ++ [CallResult job qjob_config;
                                Log Warning (FailureJob job_id);
                                Log Warning (CompletedAnyway job_id);
                                CallRetrieveJob job_id]))) as Hstep.
    { cbn [fetch].
      rewrite (bind_Ret _ _ _ _ _ (call_answers _ _ _ _ _ Hres0)).
      unfold bind at 1. unfold on_heap at 1, alloc_result at 1.
      cbn [heap world trace]. rewrite Hbad.
      unfold bind at 1. unfold emit at 1.
      unfold bind at 1. unfold emit at 1.
      unfold bind at 1. unfold call at 1. cbn [heap world trace].
      rewrite Hget. unfold with_result. rewrite <- !app_assoc. reflexivity. }
    destruct (IH next _ fuel Hrest ltac:(lia)) as [IHok IHbad].
    split.
    + intros r w3 Hres Hok. rewrite Hstep. apply IHok; assumption.
    + intros ex w3 Hres. rewrite Hstep. apply IHbad; assumption.
Qed.

Lemma fetch_retries_failed_results_witness :
  fst (fetch 3 failing_result_backend 0 7%nat "id" []
         (start 0%nat empty_batch_heap)) = Ret 2%nat /\
  result_store
    (heap (snd (fetch 3 failing_result_backend 0 7%nat "id" []
                  (start 0%nat empty_batch_heap))))
  = [mkResult false [0%nat]; mkResult false [2%nat]; mkResult true [4%nat]].
Proof.
  assert (failed_fetches failing_result_backend "id" []
            [(mkResult false [0%nat], 101%nat);
             (mkResult false [2%nat], 103%nat)]
            7%nat (start 0%nat empty_batch_heap) 103%nat
            (mkState 4%nat
               (mkHeap [empty_batch]
                  [mkResult false [0%nat]; mkResult false [2%nat]] 0)
               [CallResult 7%nat []; Log Warning (FailureJob "id");
                Log Warning (CompletedAnyway "id"); CallRetrieveJob "id";
                CallResult 101%nat []; Log Warning (FailureJob "id");
                Log Warning (CompletedAnyway "id"); CallRetrieveJob "id"]))
    as H.
  { simpl. eexists _, _. split; [reflexivity|]. split; [reflexivity|].
    split; [reflexivity|].
    eexists _, _. split; [reflexivity|]. split; [reflexivity|].
    split; [reflexivity|]. split; reflexivity. }
  rewrite (proj1 (fetch_retries_failed_results failing_result_backend 0 "id"
                    [] _ 7%nat 103%nat _ _ 3 H ltac:(simpl; lia))
             (mkResult true [4%nat]) 5%nat eq_refl eq_refl).
  split; reflexivity.
Defined.

(** ** Result objects are kept, and only successful ones are collected *)

Lemma results_kept_refl {W} (s : State W) : results_kept s s.
Proof. intros l r H. exact H. Qed.

Lemma results_kept_trans {W} (s1 s2 s3 : State W) :
  results_kept s1 s2 -> results_kept s2 s3 -> results_kept s1 s3.
Proof. intros H12 H23 l r H. apply H23, H12, H. Qed.

Lemma successful_kept {W} (s s' : State W) (l : loc) :
  results_kept s s' -> successful_at s l -> successful_at s' l.
Proof. intros Hk (r & Hl & Hr). exists r. split; [apply Hk, Hl|exact Hr]. Qed.

Section keeps.
Context {W : Type}.

Lemma keeps_ret {A} (a : A) : keeps_results (W := W) (ret a).
Proof. intros s r s' H. inversion H; subst. apply results_kept_refl. Qed.

Lemma keeps_raise {A} (ex : exn) : keeps_results (W := W) (A := A) (raise ex).
Proof. intros s r s' H. inversion H; subst. apply results_kept_refl. Qed.

Lemma keeps_diverge {A} : keeps_results (W := W) (A := A) diverge.
Proof. intros s r s' H. inversion H; subst. apply results_kept_refl. Qed.

Lemma keeps_bind {A B} (m : M (State W) A) (k : A -> M (State W) B) :
  keeps_results m -> (forall a, keeps_results (k a)) ->
  keeps_results (bind m k).
Proof.
  intros Hm Hk s r s' H. unfold bind in H.
  destruct (m s) as [[a|ex|] s1] eqn:Hms.
  - eapply results_kept_trans; [eapply Hm, Hms|eapply Hk, H].
  - inversion H; subst. eapply Hm, Hms.
  - inversion H; subst. eapply Hm, Hms.
Qed.

Lemma keeps_call {A} (ev : event) (f : op W A) : keeps_results (call ev f).
Proof.
  intros s r s' H. apply call_trace in H as [_ Hh].
  intros l o Hl. rewrite Hh. exact Hl.
Qed.

Lemma keeps_emit (ev : event) : keeps_results (W := W) (emit ev).
Proof. intros s r s' H. inversion H; subst. intros l o Hl. exact Hl. Qed.

Lemma keeps_attempt {A} (m : M (State W) A) :
  keeps_results m -> keeps_results (attempt m).
Proof.
  intros Hm s r s' H. unfold attempt in H.
  destruct (m s) as [[a|ex|] s1] eqn:Hms; inversion H; subst;
    eapply Hm, Hms.
Qed.

Lemma keeps_subscript {V} (d : dict V) (key : string) :
  keeps_results (W := W) (subscript d key).
Proof.
  unfold subscript. destruct (dict_get key d);
    [apply keeps_ret|apply keeps_raise].
Qed.

Lemma keeps_sleep (seconds : Z) : keeps_results (W := W) (sleep seconds).
Proof.
  unfold sleep. destruct (seconds <? 0); [apply keeps_raise|apply keeps_emit].
Qed.

Lemma keeps_alloc_result (r : Result) :
  keeps_results (W := W) (on_heap (alloc_result r)).
Proof.
  intros s o s' H. inversion H; subst. intros l x Hl. cbn.
  apply lookup_app_l_Some, Hl.
Qed.

Lemma keeps_uuid4 : keeps_results (W := W) (on_heap uuid4).
Proof. intros s o s' H. inversion H; subst. intros l x Hl. exact Hl. Qed.

Lemma keeps_for_each {A X} (xs : list X) (body : A -> X -> M (State W) A) :
  (forall acc x, keeps_results (body acc x)) ->
  forall acc, keeps_results (for_each xs body acc).
Proof.
  intros Hbody. induction xs as [|x xs IH]; intros acc; simpl.
  - apply keeps_ret.
  - apply keeps_bind; [apply Hbody|exact IH].
Qed.
End keeps.

Ltac keeps_step :=
  first
    [ apply keeps_ret | apply keeps_raise | apply keeps_diverge
    | apply keeps_subscript | apply keeps_sleep | apply keeps_alloc_result
    | apply keeps_uuid4 | apply keeps_call | apply keeps_emit
    | apply keeps_attempt
    | apply keeps_bind; [|intros ?] ].

Lemma keeps_run_on_backend {W} (backend : Backend W) qobj backend_options
  noise_config skip :
  keeps_results
    (run_on_backend backend qobj backend_options noise_config skip).
Proof.
  unfold run_on_backend. destruct skip; [|keeps_step].
  keeps_step; [keeps_step|].
  destruct (is_aer_provider backend).
  - keeps_step; [destruct backend_options; repeat keeps_step|].
    keeps_step; [destruct noise_config; repeat keeps_step|].
    keeps_step.
  - destruct (is_basicaer_provider backend); repeat keeps_step.
Qed.

Lemma keeps_safe_submit {W} (backend : Backend W) qobj backend_options
  noise_config skip (fuel : nat) :
  keeps_results
    (_safe_submit_qobj fuel qobj backend backend_options noise_config skip).
Proof.
  induction fuel as [|fuel IH]; simpl; [keeps_step|].
  keeps_step; [apply keeps_run_on_backend|].
  keeps_step; [repeat keeps_step|].
  destruct a0 as [ex|id]; [|keeps_step].
  keeps_step; [keeps_step|exact IH].
Qed.

Lemma keeps_safe_get_job_status {W} (backend : Backend W) job job_id
  (fuel : nat) :
  keeps_results (_safe_get_job_status fuel backend job job_id).
Proof.
  induction fuel as [|fuel IH]; simpl; [keeps_step|].
  keeps_step; [repeat keeps_step|].
  destruct a as [ex|st]; [|keeps_step].
  destruct (is_JobError ex); [|keeps_step].
  keeps_step; [keeps_step|]. keeps_step; [keeps_step|exact IH].
Qed.

Lemma keeps_do_callback {W} (job_callback : option (callback W)) job_id st p
  job :
  keeps_results (do_callback job_callback job_id st p job).
Proof. destruct job_callback; simpl; keeps_step. Qed.

Lemma keeps_poll {W} (JOB_FINAL_STATES : list JobStatus)
  (backend : Backend W) job job_id qjob_config job_callback (fuel : nat) :
  keeps_results
    (poll JOB_FINAL_STATES fuel backend job job_id qjob_config job_callback).
Proof.
  induction fuel as [|fuel IH]; simpl; [keeps_step|].
  keeps_step; [apply keeps_safe_get_job_status|].
  destruct (bool_decide (a ∈ JOB_FINAL_STATES)).
  - keeps_step; [apply keeps_do_callback|keeps_step].
  - keeps_step.
    { destruct (decide (a = QUEUED)); repeat keeps_step. }
    keeps_step; [apply keeps_do_callback|].
    keeps_step; [keeps_step|]. keeps_step; [keeps_step|exact IH].
Qed.

Lemma keeps_fetch {W} (backend : Backend W) idx job_id qjob_config
  (fuel : nat) :
  forall job, keeps_results (fetch fuel backend idx job job_id qjob_config).
Proof.
  induction fuel as [|fuel IH]; intros job; simpl; [keeps_step|].
  keeps_step; [keeps_step|]. keeps_step; [keeps_step|].
  destruct (success a); [repeat keeps_step|].
  keeps_step; [keeps_step|]. keeps_step; [keeps_step|].
  keeps_step; [keeps_step|apply IH].
Qed.

Lemma keeps_report_failure {W} (backend : Backend W) job job_id st :
  keeps_results (report_failure backend job job_id st).
Proof.
  unfold report_failure.
  destruct (decide (st = CANCELLED)); [keeps_step|].
  destruct (decide (st = ERROR)); repeat keeps_step.
Qed.

Lemma keeps_recover {W} (JOB_FINAL_STATES : list JobStatus)
  (backend : Backend W) idx qjob_config backend_options noise_config skip
  job_callback (fuel : nat) :
  forall jobs job_ids job job_id,
    keeps_results
      (recover JOB_FINAL_STATES fuel backend idx jobs job_ids job job_id
         qjob_config backend_options noise_config skip job_callback).
Proof.
  induction fuel as [|fuel IH]; intros jobs job_ids job job_id; simpl;
    [keeps_step|].
  keeps_step; [keeps_step|]. keeps_step; [apply keeps_poll|].
  destruct (decide (a0 = DONE)).
  - keeps_step; [apply keeps_fetch|keeps_step].
  - keeps_step; [keeps_step|].
    keeps_step; [apply keeps_report_failure|].
    keeps_step; [apply keeps_safe_submit|].
    destruct a3 as [job' job_id']. apply IH.
Qed.

(** The fetch loop only returns the address of a successful result. *)
Lemma fetch_returns_success {W} (backend : Backend W) idx job_id qjob_config
  (fuel : nat) :
  forall job (s s' : State W) l,
    fetch fuel backend idx job job_id qjob_config s = (Ret l, s') ->
    successful_at s' l.
Proof.
  induction fuel as [|fuel IH]; intros job s s' l H; [discriminate|].
  simpl in H.
  apply bind_Ret_inv in H as (r & s1 & _ & H).
  apply bind_Ret_inv in H as (a & s2 & Halloc & H).
  destruct (success r) eqn:Hok.
  - apply bind_Ret_inv in H as (? & s3 & Hlog & H).
    unfold ret in H. inversion H; subst.
    unfold emit in Hlog. inversion Hlog; subst.
    unfold on_heap, alloc_result in Halloc. inversion Halloc; subst.
    exists r. cbn. split; [apply list_lookup_middle; reflexivity|exact Hok].
  - apply bind_Ret_inv in H as (? & s3 & _ & H).
    apply bind_Ret_inv in H as (? & s4 & _ & H).
    apply bind_Ret_inv in H as (? & s5 & _ & H).
    eapply IH, H.
Qed.

Lemma recover_returns_success {W} (JOB_FINAL_STATES : list JobStatus)
  (backend : Backend W) idx qjob_config backend_options noise_config skip
  job_callback (fuel : nat) :
  forall jobs job_ids job job_id (s s' : State W) jobs' job_ids' l,
    recover JOB_FINAL_STATES fuel backend idx jobs job_ids job job_id
      qjob_config backend_options noise_config skip job_callback s
      = (Ret (jobs', job_ids', l), s') ->
    successful_at s' l.
Proof.
  induction fuel as [|fuel IH];
    intros jobs job_ids job job_id s s' jobs' job_ids' l H; [discriminate|].
  simpl in H.
  apply bind_Ret_inv in H as (? & s1 & _ & H).
  apply bind_Ret_inv in H as (st & s2 & _ & H).
  destruct (decide (st = DONE)).
  - apply bind_Ret_inv in H as (l0 & s3 & Hfetch & H).
    unfold ret in H. inversion H; subst.
    eapply fetch_returns_success, Hfetch.
  - apply bind_Ret_inv in H as (? & s3 & _ & H).
    apply bind_Ret_inv in H as (? & s4 & _ & H).
    apply bind_Ret_inv in H as ([job' job_id'] & s5 & _ & H).
    eapply IH, H.
Qed.

Lemma recover_lists {W} (JOB_FINAL_STATES : list JobStatus)
  (backend : Backend W) idx qjob_config backend_options noise_config skip
  job_callback (fuel : nat) :
  forall (jobs : list Job) (job_ids : list string) job job_id
         (s s' : State W) jobs' job_ids' l,
    recover JOB_FINAL_STATES fuel backend idx jobs job_ids job job_id
      qjob_config backend_options noise_config skip job_callback s
      = (Ret (jobs', job_ids', l), s') ->
    length jobs' = length jobs /\ length job_ids' = length job_ids /\
    forall j : nat, j <> idx ->
      jobs' !! j = jobs !! j /\ job_ids' !! j = job_ids !! j.
Proof.
  induction fuel as [|fuel IH];
    intros jobs job_ids job job_id s s' jobs' job_ids' l H; [discriminate|].
  simpl in H.
  apply bind_Ret_inv in H as (? & s1 & _ & H).
  apply bind_Ret_inv in H as (st & s2 & _ & H).
  destruct (decide (st = DONE)).
  - apply bind_Ret_inv in H as (l0 & s3 & _ & H).
    unfold ret in H. inversion H; subst. auto.
  - apply bind_Ret_inv in H as (? & s3 & _ & H).
    apply bind_Ret_inv in H as (? & s4 & _ & H).
    apply bind_Ret_inv in H as ([job' job_id'] & s5 & _ & H).
    apply IH in H as (Hl1 & Hl2 & Hother).
    rewrite length_insert in Hl1. rewrite length_insert in Hl2.
    split; [exact Hl1|]. split; [exact Hl2|].
    intros j Hj. destruct (Hother j Hj) as [H1 H2].
    rewrite list_lookup_insert_ne in H1 by congruence.
    rewrite list_lookup_insert_ne in H2 by congruence. auto.
Qed.

(** X18: when the recovery loop of a chunk ends, the result it hands over
    has its success flag set, whatever the job went through before; and no
    result object that existed before was removed or changed. *)
Theorem recover_collects_a_successful_result {W}
  (JOB_FINAL_STATES : list JobStatus) (backend : Backend W) (fuel idx : nat)
  (jobs jobs' : list Job) (job_ids job_ids' : list string) (job : Job)
  (job_id : string) (qjob_config : dict Z)
  (backend_options noise_config : dict OptionValue) (skip : bool)
  (job_callback : option (callback W)) (s s' : State W) (l : loc) :
  recover JOB_FINAL_STATES fuel backend idx jobs job_ids job job_id
    qjob_config backend_options noise_config skip job_callback s
    = (Ret (jobs', job_ids', l), s') ->
  successful_at s' l /\ results_kept s s'.
Proof.
  intros H. split.
  - eapply recover_returns_success, H.
  - eapply keeps_recover, H.
Qed.


Lemma recover_collects_a_successful_result_witness :
  successful_at (snd eventful_recovery) 1%nat.
Proof.
  apply (proj1 (recover_collects_a_successful_result final_states
                  eventful_backend 5 0 [0%nat] [5%nat] ["id"%string]
                  ["id"%string] 0%nat "id" [("wait"%string, 2)] [] [] false
                  None (start 3%nat empty_batch_heap) (snd eventful_recovery)
                  1%nat eq_refl)).
Defined.

(** X19: the recovery loop of the chunk [idx] keeps the lengths of the
    lists of jobs and of job ids, and changes no entry of them other than
    the one at [idx]. *)
Theorem recover_touches_only_its_slot {W}
  (JOB_FINAL_STATES : list JobStatus) (backend : Backend W) (fuel idx : nat)
  (jobs jobs' : list Job) (job_ids job_ids' : list string) (job : Job)
  (job_id : string) (qjob_config : dict Z)
  (backend_options noise_config : dict OptionValue) (skip : bool)
  (job_callback : option (callback W)) (s s' : State W) (l : loc) :
  recover JOB_FINAL_STATES fuel backend idx jobs job_ids job job_id
    qjob_config backend_options noise_config skip job_callback s
    = (Ret (jobs', job_ids', l), s') ->
  length jobs' = length jobs /\ length job_ids' = length job_ids /\
  forall j : nat, j <> idx ->
    jobs' !! j = jobs !! j /\ job_ids' !! j = job_ids !! j.
Proof. apply recover_lists. Qed.

Lemma recover_touches_only_its_slot_witness :
  exists jobs' job_ids' l s',
    recover final_states 5 eventful_backend 1 [40; 0; 41]%nat
      ["a"; "id"; "b"]%string 0%nat "id" [("wait"%string, 2)] [] [] false
      None (start 3%nat empty_batch_heap)
    = (Ret (jobs', job_ids', l), s') /\
    jobs' !! 1%nat = Some 5%nat /\
    jobs' !! 0%nat = [40; 0; 41]%nat !! 0%nat /\
    jobs' !! 2%nat = [40; 0; 41]%nat !! 2%nat.
Proof.
  eexists [40; 5; 41]%nat, _, _, _.
  split; [vm_compute; reflexivity|]. split; [reflexivity|].
  pose proof (recover_touches_only_its_slot final_states eventful_backend 5 1
                [40; 0; 41]%nat [40; 5; 41]%nat ["a"; "id"; "b"]%string
                _ 0%nat "id" [("wait"%string, 2)] [] [] false None
                (start 3%nat empty_batch_heap) _ _
                ltac:(vm_compute; reflexivity)) as (_ & _ & Hother).
  split; [apply (Hother 0%nat); discriminate
         |apply (Hother 2%nat); discriminate].
Defined.

(** ** The run on a backend that is no simulator *)

Lemma recover_all_loop {W} (JOB_FINAL_STATES : list JobStatus)
  (backend : Backend W) fuel qjob_config backend_options noise_config skip
  job_callback (idxs : list nat) :
  forall (jobs : list Job) (job_ids : list string) (results : list loc)
         (s s' : State W) jobs' job_ids' results',
    for_each idxs
      (fun (acc : list Job * list string * list loc) idx =>
         let '(jobs, job_ids, results) := acc in
         match jobs !! idx, job_ids !! idx with
         | Some job, Some job_id =>
             done <- recover JOB_FINAL_STATES fuel backend idx jobs job_ids
                       job job_id qjob_config backend_options noise_config
                       skip job_callback ;;
             let '(jobs', job_ids', result) := done in
             ret (jobs', job_ids', results ++ [result])
         | _, _ => raise (IndexError "list index out of range")
         end)
      (jobs, job_ids, results) s
    = (Ret (jobs', job_ids', results'), s') ->
    Forall (successful_at s) results ->
    Forall (successful_at s') results' /\
    length results' = (length results + length idxs)%nat.
Proof.
  induction idxs as [|idx idxs IH];
    intros jobs job_ids results s s' jobs' job_ids' results' H Hall.
  - simpl in H. unfold ret in H. inversion H; subst.
    split; [exact Hall|simpl; lia].
  - cbn [for_each] in H.
    apply bind_Ret_inv in H as ([[jobs1 ids1] results1] & s1 & Hbody & H).
    destruct (jobs !! idx) as [job|]; [|discriminate].
    destruct (job_ids !! idx) as [job_id|]; [|discriminate].
    apply bind_Ret_inv in Hbody as ([[jobs2 ids2] l] & s2 & Hrec & Hret).
    unfold ret in Hret. inversion Hret; subst.
    apply IH in H.
    + destruct H as [Hs Hlen]. split; [exact Hs|].
      rewrite Hlen, length_app. simpl. lia.
    + apply Forall_app. split.
      * eapply Forall_impl; [exact Hall|].
        intros l0. apply successful_kept. eapply keeps_recover, Hrec.
      * repeat constructor. eapply recover_returns_success, Hrec.
Qed.

(** X20: on a backend that is no simulator, the result [run_qobj] returns
    has its success flag set: every chunk result that went into it reported
    success, and the combined object has the flag of the first. *)
Theorem run_qobj_recovered_result_is_successful {W}
  (JOB_FINAL_STATES : list JobStatus) (MAX_CIRCUITS_PER_JOB : option Z)
  (backend : Backend W) (fuel : nat) (qobj : loc)
  (qjob_config : option (dict Z))
  (backend_options noise_config : option (dict OptionValue))
  (skip : bool) (job_callback : option (callback W)) (s s' : State W)
  (l : loc) :
  is_simulator_backend backend = false ->
  run_qobj JOB_FINAL_STATES MAX_CIRCUITS_PER_JOB fuel qobj (Some backend)
    qjob_config backend_options noise_config skip job_callback s
    = (Ret (Some l), s') ->
  successful_at s' l.
Proof.
  intros Hsim H. unfold run_qobj in H. rewrite Hsim in H. cbn [negb] in H.
  apply bind_Ret_inv in H as (qobjs & s1 & _ & H).
  apply bind_Ret_inv in H as ([jobs job_ids] & s2 & _ & H).
  apply bind_Ret_inv in H as (results & s3 & Hres & H).
  apply bind_Ret_inv in Hres as (? & s4 & _ & Hres).
  apply bind_Ret_inv in Hres as (? & s5 & _ & Hres).
  apply bind_Ret_inv in Hres as (? & s6 & _ & Hres).
  apply bind_Ret_inv in Hres as (? & s7 & _ & Hres).
  apply bind_Ret_inv in Hres as ([[jobs' ids'] results'] & s8 & Hrec & Hres).
  unfold ret in Hres. inversion Hres; subst. cbn [snd] in H.
  unfold recover_all in Hrec.
  apply recover_all_loop in Hrec as [Hall _]; [|constructor].
  clear Hres. destruct results as [|r0 rs]; [discriminate|].
  apply bind_Ret_inv in H as (l0 & s9 & Hcomb & H).
  unfold ret in H. inversion H; subst.
  assert (exists objs, Forall2 (fun l r => result_store (heap s3) !! l = Some r)
                               (r0 :: rs) objs /\
                       exists o0 objs', objs = o0 :: objs' /\ success o0 = true)
    as (objs & Hobjs & o0 & objs' & -> & Hok).
  { inversion Hall as [|? ? (o0 & Ho0 & Hok) Hrest]; subst.
    assert (exists objs', Forall2 (fun l r => result_store (heap s3) !! l
                                              = Some r) rs objs')
      as [objs' Hobjs'].
    { clear -Hrest. induction Hrest as [|l0 ls (o & Ho & _) _ [objs IH]].
      - exists []. constructor.
      - exists (o :: objs). constructor; assumption. }
    exists (o0 :: objs'). split; [constructor; assumption|].
    exists o0, objs'. split; [reflexivity|exact Hok]. }
  destruct s3 as [w3 [qs st u] tr]. cbn [heap result_store] in Hobjs.
  destruct (combine_exact qs st u rs objs' r0 o0 Hobjs)
    as (l1 & st' & Hc & Hl1 & _).
  unfold on_heap in Hcomb. cbn [heap world trace] in Hcomb.
  rewrite Hc in Hcomb. inversion Hcomb; subst.
  eexists. cbn [heap result_store]. split; [exact Hl1|exact Hok].
Qed.

Lemma run_qobj_recovered_result_is_successful_witness :
  fst eventful_run = Ret (Some 1%nat) /\
  successful_at (snd eventful_run) 1%nat.
Proof.
  split; [reflexivity|].
  apply (run_qobj_recovered_result_is_successful final_states None
           eventful_backend 6 0%nat (Some [("wait"%string, 2)]) None None
           false None (start 0%nat three_batch_heap) (snd eventful_run)
           1%nat eq_refl eq_refl).
Defined.

(** ** Submissions and the outcome of a run *)

Lemma submit_all_loop_lengths {W} (backend : Backend W) fuel backend_options
  noise_config skip (qobjs : list loc) :
  forall (jobs : list Job) (job_ids : list string) (s s' : State W)
         jobs' job_ids',
    for_each qobjs
      (fun (acc : list Job * list string) qob =>
         let (jobs, job_ids) := acc in
         q <- on_heap (read_qobj qob) ;;
         submitted <- _safe_submit_qobj fuel q backend backend_options
                                        noise_config skip ;;
         let (job, job_id) := submitted : Job * string in
         ret (jobs ++ [job], job_ids ++ [job_id]))
      (jobs, job_ids) s
    = (Ret (jobs', job_ids'), s') ->
    length jobs' = (length jobs + length qobjs)%nat /\
    length job_ids' = (length job_ids + length qobjs)%nat.
Proof.
  induction qobjs as [|qob qobjs IH];
    intros jobs job_ids s s' jobs' job_ids' H.
  - simpl in H. unfold ret in H. inversion H; subst. simpl. lia.
  - cbn [for_each] in H.
    apply bind_Ret_inv in H as ([jobs1 ids1] & s1 & Hbody & H).
    apply bind_Ret_inv in Hbody as (q & s2 & _ & Hbody).
    apply bind_Ret_inv in Hbody as ([job job_id] & s3 & _ & Hbody).
    unfold ret in Hbody. inversion Hbody; subst.
    apply IH in H as [H1 H2]. rewrite length_app in H1, H2.
    simpl in *. lia.
Qed.

(** X21: when the submissions end, there is one job and one job id for
    each chunk. *)
Theorem submit_all_one_job_per_chunk {W} (backend : Backend W) (fuel : nat)
  (qobjs : list loc) (backend_options noise_config : dict OptionValue)
  (skip : bool) (s s' : State W) (jobs : list Job) (job_ids : list string) :
  submit_all fuel backend qobjs backend_options noise_config skip s
    = (Ret (jobs, job_ids), s') ->
  length jobs = length qobjs /\ length job_ids = length qobjs.
Proof.
  intros H. unfold submit_all in H.
  apply submit_all_loop_lengths in H. simpl in H. exact H.
Qed.

Lemma submit_all_one_job_per_chunk_witness :
  fst simulator_submitted = Ret ([0; 2]%nat, ["sim"; "sim"]%string) /\
  length [0; 2]%nat = length [2; 3]%nat.
Proof.
  split; [reflexivity|].
  apply (submit_all_one_job_per_chunk simulator_backend 3 [2; 3]%nat [] []
           false (mkState 0%nat (snd simulator_chunks) [])
           (snd simulator_submitted) [0; 2]%nat ["sim"; "sim"]%string).
  vm_compute. reflexivity.
Defined.

Lemma split_nonempty (h h' : Heap) (qobj : loc) (q : Qobj) (K : Z)
  (qobjs : list loc) :
  qobj_store h !! qobj = Some q -> 1 <= K ->
  (1 <= length (experiments q))%nat ->
  K < Z.of_nat (length (experiments q)) * 2 ^ 1075 ->
  _split_qobj_to_qobjs qobj K h = (Ret qobjs, h') ->
  qobjs <> [].
Proof.
  intros Hq HK HM Hfl H. destruct h as [st rs u]. cbn [qobj_store] in Hq.
  pose proof (ceil_div_bounds (Z.of_nat (length (experiments q))) K
                ltac:(lia)) as Hc.
  assert (np_ceil_div (Z.of_nat (length (experiments q))) K
          = ceil_div (Z.of_nat (length (experiments q))) K) as Hnp
    by (apply np_ceil_div_exact; rewrite ?Z.abs_eq; lia).
  destruct (decide (np_ceil_div (Z.of_nat (length (experiments q))) K = 1))
    as [H1|Hn1].
  - unfold _split_qobj_to_qobjs, bind in H.
    rewrite (read_qobj_eq _ _ _ _ _ Hq) in H. cbv beta iota in H.
    destruct (decide (K = 0)) as [?|_]; [lia|].
    destruct (decide (np_ceil_div (Z.of_nat (length (experiments q))) K = 1))
      as [_|?]; [|contradiction].
    unfold ret in H. inversion H; subst. discriminate.
  - destruct (is_QasmQobj q) eqn:Hqasm.
    + rewrite (split_many st rs u qobj q K Hq Hqasm ltac:(lia) Hn1) in H.
      inversion H; subst. rewrite Hnp.
      assert (1 <= ceil_div (Z.of_nat (length (experiments q))) K) by nia.
      destruct (Z.to_nat (ceil_div (Z.of_nat (length (experiments q))) K))
        eqn:Hk; [lia|discriminate].
    + unfold _split_qobj_to_qobjs, bind in H.
      rewrite (read_qobj_eq _ _ _ _ _ Hq) in H. cbv beta iota in H.
      destruct (decide (K = 0)) as [?|_]; [lia|].
      destruct (decide (np_ceil_div (Z.of_nat (length (experiments q))) K = 1))
        as [?|_]; [contradiction|].
      rewrite Hqasm in H. discriminate.
Qed.

Lemma fetch_all_length {W} (backend : Backend W) qjob_config
  (jobs : list Job) (s s' : State W) (results : list loc) :
  fetch_all backend jobs qjob_config s = (Ret results, s') ->
  length results = length jobs.
Proof.
  unfold fetch_all. rewrite fetch_all_loop.
  destruct (direct_fetch backend jobs qjob_config (world s))
    as [[[rs raised] asked] w'] eqn:Hfetch.
  destruct raised as [ex|]; [discriminate|].
  intros H. inversion H; subst.
  destruct (direct_fetch_all_asked _ _ _ _ _ _ _ Hfetch) as [_ Hlen].
  simpl. rewrite length_seq. exact Hlen.
Qed.

(** X22: with a chunk size K of 1 or more, [run_qobj] returns None only
    for a batch without experiments, or when K is M * 2^1075 or more, so
    that the double quotient M / K is zero and the batch is cut into no
    chunk: in every other case a batch that has experiments gives a result
    object, or the run raises. *)
Theorem run_qobj_none_only_for_empty_batch {W}
  (JOB_FINAL_STATES : list JobStatus) (MAX_CIRCUITS_PER_JOB : option Z)
  (backend : Backend W) (fuel : nat) (qobj : loc) (q : Qobj)
  (qjob_config : option (dict Z))
  (backend_options noise_config : option (dict OptionValue))
  (skip : bool) (job_callback : option (callback W)) (s s' : State W) :
  qobj_store (heap s) !! qobj = Some q ->
  1 <= max_circuits_per_job MAX_CIRCUITS_PER_JOB backend ->
  run_qobj JOB_FINAL_STATES MAX_CIRCUITS_PER_JOB fuel qobj (Some backend)
    qjob_config backend_options noise_config skip job_callback s
    = (Ret None, s') ->
  experiments q = [] \/
  Z.of_nat (length (experiments q)) * 2 ^ 1075
    <= max_circuits_per_job MAX_CIRCUITS_PER_JOB backend.
Proof.
  intros Hq HK H.
  destruct (experiments q) as [|e es] eqn:Hexp; [left; reflexivity|].
  destruct (Z.le_gt_cases (Z.of_nat (length (e :: es)) * 2 ^ 1075)
              (max_circuits_per_job MAX_CIRCUITS_PER_JOB backend))
    as [Hunder|Hfl]; [right; exact Hunder|exfalso].
  unfold run_qobj in H.
  apply bind_Ret_inv in H as (qobjs & s1 & Hsplit & H).
  apply bind_Ret_inv in H as ([jobs job_ids] & s2 & Hsub & H).
  apply bind_Ret_inv in H as (results & s3 & Hres & H).
  assert (qobjs <> []) as Hne.
  { unfold on_heap in Hsplit.
    destruct (_split_qobj_to_qobjs qobj
                (max_circuits_per_job MAX_CIRCUITS_PER_JOB backend) (heap s))
      as [o h'] eqn:Hs.
    inversion Hsplit; subst.
    eapply (split_nonempty (heap s) h' qobj q); eauto.
    - rewrite Hexp. simpl. lia.
    - rewrite Hexp. lia. }
  unfold submit_all in Hsub.
  apply submit_all_loop_lengths in Hsub as [Hjobs _]. simpl in Hjobs.
  assert (length results = length jobs) as Hlen.
  { destruct (is_simulator_backend backend); cbn [negb] in Hres.
    - eapply fetch_all_length, Hres.
    - apply bind_Ret_inv in Hres as (? & s4 & _ & Hres).
      apply bind_Ret_inv in Hres as (? & s5 & _ & Hres).
      apply bind_Ret_inv in Hres as (? & s6 & _ & Hres).
      apply bind_Ret_inv in Hres as (? & s7 & _ & Hres).
      apply bind_Ret_inv in Hres as ([[jobs' ids'] results'] & s8 & Hrec & Hres).
      unfold ret in Hres. inversion Hres; subst. cbn [snd].
      unfold recover_all in Hrec.
      apply recover_all_loop in Hrec as [_ Hlen]; [|constructor].
      rewrite Hlen, length_seq. reflexivity. }
  destruct results as [|r0 rs].
  - destruct qobjs; [congruence|]. simpl in *. lia.
  - apply bind_Ret_inv in H as (? & s9 & _ & H). discriminate.
Qed.

Lemma run_qobj_none_only_for_empty_batch_witness :
  fst (run_qobj final_states (Some (3 * 2 ^ 1075)) 0 0%nat
         (Some simulator_backend) None None None false None
         (start 0%nat three_batch_heap)) = Ret None /\
  (experiments three_batch = [] \/
   Z.of_nat (length (experiments three_batch)) * 2 ^ 1075
     <= max_circuits_per_job (Some (3 * 2 ^ 1075)) simulator_backend).
Proof.
  split; [vm_compute; reflexivity|].
  apply (run_qobj_none_only_for_empty_batch final_states
           (Some (3 * 2 ^ 1075)) simulator_backend 0 0%nat three_batch None
           None None false None (start 0%nat three_batch_heap)
           (snd (run_qobj final_states (Some (3 * 2 ^ 1075)) 0 0%nat
                   (Some simulator_backend) None None None false None
                   (start 0%nat three_batch_heap))));
    [reflexivity | vm_compute; discriminate | vm_compute; reflexivity].
Defined.

(** X23: a batch that is not a QasmQobj and does not fit in one chunk (or
    is empty) makes [run_qobj] raise the AquaError of the chunker before
    anything is submitted: the backend is not called, nothing is logged and
    the store is as it was. *)
Theorem run_qobj_refuses_other_kinds_before_submitting {W}
  (JOB_FINAL_STATES : list JobStatus) (MAX_CIRCUITS_PER_JOB : option Z)
  (backend : Backend W) (fuel : nat) (qobj : loc) (q : Qobj)
  (qjob_config : option (dict Z))
  (backend_options noise_config : option (dict OptionValue))
  (skip : bool) (job_callback : option (callback W)) (s : State W) :
  qobj_store (heap s) !! qobj = Some q -> is_QasmQobj q = false ->
  1 <= max_circuits_per_job MAX_CIRCUITS_PER_JOB backend ->
  ~ (1 <= Z.of_nat (length (experiments q))
       <= max_circuits_per_job MAX_CIRCUITS_PER_JOB backend) ->
  run_qobj JOB_FINAL_STATES MAX_CIRCUITS_PER_JOB fuel qobj (Some backend)
    qjob_config backend_options noise_config skip job_callback s
  = (Raise (AquaError "Only support QasmQobj now." None), s).
Proof.
  intros Hq Hkind HK Hout. destruct s as [w [st rs u] tr].
  cbn [heap qobj_store] in Hq.
  unfold run_qobj, bind, on_heap. cbn [heap world trace].
  unfold _split_qobj_to_qobjs, bind.
  rewrite (read_qobj_eq _ _ _ _ _ Hq). cbv beta iota.
  destruct (decide (max_circuits_per_job MAX_CIRCUITS_PER_JOB backend = 0))
    as [?|_]; [lia|].
  pose proof (ceil_div_bounds (Z.of_nat (length (experiments q)))
                (max_circuits_per_job MAX_CIRCUITS_PER_JOB backend)
                ltac:(lia)) as Hc.
  destruct (decide (np_ceil_div (Z.of_nat (length (experiments q)))
                      (max_circuits_per_job MAX_CIRCUITS_PER_JOB backend) = 1))
    as [H1|_].
  - exfalso.
    destruct (decide (Z.of_nat (length (experiments q)) = 0)) as [H0|Hpos].
    + rewrite H0, np_ceil_div_zero in H1. discriminate.
    + rewrite np_ceil_div_large in H1 by lia. rewrite H1 in Hc. lia.
  - rewrite Hkind. reflexivity.
Qed.

Lemma run_qobj_refuses_other_kinds_before_submitting_witness :
  run_qobj final_states None 5 0%nat (Some eventful_backend) None None None
    false None (start 0%nat pulse_batch_heap)
  = (Raise (AquaError "Only support QasmQobj now." None),
     start 0%nat pulse_batch_heap).
Proof.
  apply (run_qobj_refuses_other_kinds_before_submitting final_states None
           eventful_backend 5 0%nat pulse_batch None None None false None
           (start 0%nat pulse_batch_heap));
    [reflexivity | reflexivity | vm_compute; discriminate |].
  vm_compute. intros [_ H]. apply H. reflexivity.
Defined.

(** X24: on a local backend, when no maximum is set in the environment, a
    batch that has experiments is never cut: the chunk size is
    [sys.maxsize], and the one chunk is the batch itself. *)
Theorem local_backend_never_splits {W} (backend : Backend W) (h : Heap)
  (qobj : loc) (q : Qobj) :
  is_local_backend backend = true ->
  qobj_store h !! qobj = Some q ->
  1 <= Z.of_nat (length (experiments q)) <= sys_maxsize ->
  _split_qobj_to_qobjs qobj (max_circuits_per_job None backend) h
  = (Ret [qobj], h).
Proof.
  intros Hlocal Hq HM. unfold max_circuits_per_job. rewrite Hlocal.
  destruct h as [st rs u]. cbn [qobj_store] in Hq.
  apply (split_single st rs u qobj q sys_maxsize Hq HM).
  assert (sys_maxsize < 2 ^ 1075) by (vm_compute; reflexivity). nia.
Qed.

Lemma local_backend_never_splits_witness :
  _split_qobj_to_qobjs 0%nat (max_circuits_per_job None simulator_backend)
    ten_batch_heap
  = (Ret [0%nat], ten_batch_heap).
Proof.
  apply (local_backend_never_splits simulator_backend ten_batch_heap 0%nat
           ten_batch); [reflexivity | reflexivity |].
  vm_compute. split; discriminate.
Defined.

(** ** run_on_backend *)

(** X25: for a provider that is neither Aer nor BasicAer the validation
    cannot be skipped: asked to skip it, [run_on_backend] draws a uuid,
    logs that it cannot, and then does exactly what it does when not asked
    to skip. *)
Theorem run_on_backend_cannot_skip_elsewhere {W} (backend : Backend W)
  (qobj : Qobj) (backend_options noise_config : dict OptionValue)
  (s : State W) :
  is_aer_provider backend = false -> is_basicaer_provider backend = false ->
  run_on_backend backend qobj backend_options noise_config true s
  = run_on_backend backend qobj backend_options noise_config false
      (mkState (world s) (with_uuid_drawn (heap s))
               (trace s ++ [Log Info CanNotSkipValidation])).
Proof.
  intros Haer Hbasic. unfold run_on_backend. rewrite Haer, Hbasic.
  reflexivity.
Qed.

Lemma run_on_backend_cannot_skip_elsewhere_witness :
  run_on_backend eventful_backend three_batch [] [] true
    (start 0%nat empty_batch_heap)
  = (Ret 0%nat,
     mkState 1%nat (with_uuid_drawn empty_batch_heap)
       [Log Info CanNotSkipValidation; CallRun three_batch [] []]).
Proof.
  rewrite (run_on_backend_cannot_skip_elsewhere eventful_backend three_batch
             [] [] (start 0%nat empty_batch_heap) eq_refl eq_refl).
  reflexivity.
Defined.

(** X26: on an Aer backend with the validation skipped, options that are
    not empty must hold the key "backend_options", and a noise
    configuration that is not empty must hold the key "noise_model": if
    not, KeyError is raised for the missing key and nothing is submitted. *)
Theorem run_on_backend_aer_missing_key {W} (backend : Backend W)
  (qobj : Qobj) (backend_options noise_config : dict OptionValue)
  (s : State W) :
  is_aer_provider backend = true ->
  (backend_options <> [] ->
   dict_get "backend_options" backend_options = None ->
   run_on_backend backend qobj backend_options noise_config true s
   = (Raise (KeyError "backend_options"),
      mkState (world s) (with_uuid_drawn (heap s)) (trace s))) /\
  ((backend_options = [] \/
    is_Some (dict_get "backend_options" backend_options)) ->
   noise_config <> [] ->
   dict_get "noise_model" noise_config = None ->
   run_on_backend backend qobj backend_options noise_config true s
   = (Raise (KeyError "noise_model"),
      mkState (world s) (with_uuid_drawn (heap s)) (trace s))).
Proof.
  intros Haer. unfold run_on_backend. rewrite Haer. split.
  - intros Hne Hkey. destruct backend_options as [|kv bo]; [congruence|].
    unfold bind, on_heap, uuid4, subscript. cbn [heap world trace].
    rewrite Hkey. reflexivity.
  - intros Hbo Hne Hkey. destruct noise_config as [|kv nc]; [congruence|].
    unfold bind, on_heap, uuid4, subscript. cbn [heap world trace].
    rewrite Hkey.
    destruct backend_options as [|kv' bo]; [reflexivity|].
    destruct Hbo as [Hbo|[v Hv]]; [discriminate|].
    rewrite Hv. reflexivity.
Qed.

Lemma run_on_backend_aer_missing_key_witness :
  run_on_backend aer_backend three_batch [("shots"%string, 5%nat)] [] true
    (start 0%nat empty_batch_heap)
  = (Raise (KeyError "backend_options"),
     mkState 0%nat (with_uuid_drawn empty_batch_heap) []).
Proof.
  apply (proj1 (run_on_backend_aer_missing_key aer_backend three_batch
                  [("shots"%string, 5%nat)] []
                  (start 0%nat empty_batch_heap) eq_refl));
    [discriminate | reflexivity].
Defined.
